(** * MAHSA-LEARN: the course player, its scoring rule and the completion
      handlers of the application, embedded from the TypeScript sources.

    - [types.ts]                 : the records [User], [Slide], [Course].
    - [components/CoursePlayer]  : the React state of one playback session,
      its handlers and the footer that decides which control exists.
    - [App]                      : the handlers that apply a completion, a
      user update and a CSV import to the user collection (both revisions
      of the file are embedded; they are told apart by [Revision]).
    - [EducatorDashboard], [CourseBuilder] : the callers of those handlers.

    Numbers.  A JavaScript [number] that holds an XP amount is an integer
    here ([Z]); array indices and lengths are [nat].  Sets of slide ids are
    [gset string]; arrays are lists read with [!!]. *)

From Stdlib Require Import ZArith Lia.
From stdpp Require Import base decidable option list strings gmap sets.

(* ===================================================================== *)
(** ** types.ts *)
(* ===================================================================== *)

Inductive Role := Nurse | Educator.

Inductive SlideType := intro | video | quiz | summary.

#[global] Instance Role_eq_dec : EqDecision Role.
Proof. solve_decision. Defined.

#[global] Instance SlideType_eq_dec : EqDecision SlideType.
Proof. solve_decision. Defined.

(** [selectedOption] is typed [string] in the source, but the player fills
    it with [options[selectedOption]], which is [undefined] out of range:
    [None] stands for [undefined]. *)
Record QuizAttempt := mkQuizAttempt {
  qa_courseId : string;
  qa_slideId : string;
  qa_question : string;
  qa_selectedOption : option string;
  qa_isCorrect : bool;
  qa_timestamp : Z
}.

(** [quizAttempts] is an optional field: [None] when the key is absent. *)
Record User := mkUser {
  user_id : string;
  user_pin : string;
  user_name : string;
  user_role : Role;
  user_avatar : string;
  user_xp : Z;
  user_streak : Z;
  user_badges : list string;
  user_completedCourses : list string;
  user_quizAttempts : option (list QuizAttempt)
}.

Record QuizData := mkQuizData {
  question : string;
  options : list string;
  correctIndex : nat
}.

Record Slide := mkSlide {
  slide_id : string;
  slide_type : SlideType;
  slide_title : string;
  slide_content : string;
  slide_image : option string;
  quizData : option QuizData
}.

Record Course := mkCourse {
  course_id : string;
  course_title : string;
  course_category : string;
  slides : list Slide;
  xpReward : Z;
  durationMinutes : Z;
  course_timestamp : option Z
}.

Record AuthState := mkAuth {
  isAuthenticated : bool;
  currentUser : option User
}.

(** [Array.prototype.includes] on an array of strings. *)
Definition includes (l : list string) (x : string) : bool :=
  bool_decide (x ∈ l).

(** [s.type === 'quiz'] *)
Definition is_quiz (s : Slide) : bool :=
  bool_decide (slide_type s = quiz).

(** What a JavaScript expression evaluation ends in. *)
Inductive JsError := TypeError.

Inductive Outcome (A : Type) :=
| Returned (a : A)
| Threw (e : JsError).
Arguments Returned {A} a.
Arguments Threw {A} e.

(** The quotient of two integers as JavaScript computes it: a zero divisor
    raises nothing, it yields an infinity or NaN.  A finite quotient is kept
    as the pair it was computed from (its rounding is not modelled). *)
Inductive JsQuotient :=
| Ratio (num den : Z)
| PosInfinity
| NegInfinity
| NaN.

Definition js_div (a b : Z) : JsQuotient :=
  if (b =? 0)%Z then
    (if (a =? 0)%Z then NaN
     else if (0 <? a)%Z then PosInfinity else NegInfinity)
  else Ratio a b.

Definition js_scale (q : JsQuotient) (k : Z) : JsQuotient :=
  match q with
  | Ratio n d => Ratio (n * k) d
  | other => if (k =? 0)%Z then NaN else
               if (0 <? k)%Z then other else
                 match other with
                 | PosInfinity => NegInfinity
                 | NegInfinity => PosInfinity
                 | o => o
                 end
  end.

(** XP values are JavaScript numbers, that is IEEE 754 doubles, and the
    code only ever puts integers into them.  They are kept as [Z].  The
    integers from -(2^53 - 1) to 2^53 - 1 are the ones
    [Number.isSafeInteger] accepts: each of them is a double, and the
    addition of two of them whose sum is one of them is exact. *)
Definition MAX_SAFE_INTEGER : Z := 9007199254740991.

Definition isSafeInteger (z : Z) : bool :=
  (- MAX_SAFE_INTEGER <=? z)%Z && (z <=? MAX_SAFE_INTEGER)%Z.

(** The double nearest to an integer, ties going to the even significand
    of 53 bits; [None] stands for an infinity (a magnitude of 2^1024 or
    more after rounding). *)
Definition roundToDouble (z : Z) : option Z :=
  let a := Z.abs z in
  if (a <? 2 ^ 53)%Z then Some z
  else
    let ulp := (2 ^ (Z.log2 a - 52))%Z in
    let q := (a / ulp)%Z in
    let r := (a mod ulp)%Z in
    let q' := if (2 * r <? ulp)%Z then q
              else if (ulp <? 2 * r)%Z then (q + 1)%Z
              else if Z.even q then q else (q + 1)%Z in
    if (2 ^ 1024 <=? q' * ulp)%Z then None
    else Some (Z.sgn z * (q' * ulp))%Z.

(** [a + b] on two doubles that hold integers: the exact sum, rounded. *)
Definition numberAdd (a b : Z) : option Z := roundToDouble (a + b).

(* ===================================================================== *)
(** ** components/CoursePlayer.tsx *)
(* ===================================================================== *)

Module CoursePlayer.

Definition XP_PER_SLIDE : Z := 50.

(** The [useState] cells of the component.  [isVideoLoading] and
    [videoKey] only drive the spinner of the video frame and are left
    out. *)
Record State := mkState {
  currentSlideIndex : nat;
  selectedOption : option nat;
  isAnswerChecked : bool;
  isCorrect : bool;
  failedSlides : gset string;
  sessionXp : Z
}.

(** The props: the course, and whether the optional [onQuizAttempt]
    observer was passed ([onComplete] and [onClose] are mandatory). *)
Record Props := mkProps {
  course : Course;
  onQuizAttempt : bool
}.

(** Calls the component makes on its props. *)
Inductive Call :=
| OnComplete (courseId : string) (xp : Z)
| OnQuizAttempt (courseId slideId question : string)
                (answer : option string) (correct : bool).

(** The initial values of the [useState] cells. *)
Definition initialState : State :=
  {| currentSlideIndex := 0; selectedOption := None;
     isAnswerChecked := false; isCorrect := false;
     failedSlides := ∅; sessionXp := 0 |}.

(** [const slide = course.slides[currentSlideIndex]]: [None] is
    [undefined], the value of an out-of-bounds read. *)
Definition slide (p : Props) (st : State) : option Slide :=
  slides (course p) !! currentSlideIndex st.

(** [((currentSlideIndex + 1) / course.slides.length) * 100] *)
Definition progress (p : Props) (st : State) : JsQuotient :=
  js_scale (js_div (Z.of_nat (currentSlideIndex st) + 1)
                   (Z.of_nat (length (slides (course p))))) 100.

(** [currentSlideIndex === course.slides.length - 1] *)
Definition isLastSlide (p : Props) (st : State) : bool :=
  (Z.of_nat (currentSlideIndex st)
     =? Z.of_nat (length (slides (course p))) - 1)%Z.

Definition calculateSlideXp (st : State) (s : Slide) : Z :=
  if is_quiz s && bool_decide (slide_id s ∈ failedSlides st)
  then 0%Z else XP_PER_SLIDE.

(** Each handler is a closure over the [slide] of the render that
    created it; it returns the next state and the calls it made. *)
Definition handleNext (p : Props) (st : State) (s : Slide)
  : State * list Call :=
  let earnedForThisSlide := calculateSlideXp st s in
  let newTotalXp := (sessionXp st + earnedForThisSlide)%Z in
  if isLastSlide p st then
    (st, [OnComplete (course_id (course p)) newTotalXp])
  else
    ({| currentSlideIndex := currentSlideIndex st + 1;
        selectedOption := None;
        isAnswerChecked := false;
        isCorrect := false;
        failedSlides := failedSlides st;
        sessionXp := newTotalXp |}, []).

Definition handleRetry (st : State) : State * list Call :=
  ({| currentSlideIndex := currentSlideIndex st;
      selectedOption := None;
      isAnswerChecked := false;
      isCorrect := false;
      failedSlides := failedSlides st;
      sessionXp := sessionXp st |}, []).

Definition handleQuizSubmit (p : Props) (st : State) (s : Slide)
  : State * list Call :=
  match selectedOption st, quizData s with
  | Some sel, Some q =>
      let correct := bool_decide (sel = correctIndex q) in
      ({| currentSlideIndex := currentSlideIndex st;
          selectedOption := selectedOption st;
          isAnswerChecked := true;
          isCorrect := correct;
          failedSlides :=
            if correct then failedSlides st
            else failedSlides st ∪ {[ slide_id s ]};
          sessionXp := sessionXp st |},
       if onQuizAttempt p then
         [OnQuizAttempt (course_id (course p)) (slide_id s) (question q)
                        (options q !! sel) correct]
       else [])
  | _, _ => (st, [])
  end.

(** The [onClick] of an option button:
    [() => !isAnswerChecked && setSelectedOption(idx)]. *)
Definition handleSelect (st : State) (idx : nat) : State * list Call :=
  if isAnswerChecked st then (st, [])
  else ({| currentSlideIndex := currentSlideIndex st;
           selectedOption := Some idx;
           isAnswerChecked := isAnswerChecked st;
           isCorrect := isCorrect st;
           failedSlides := failedSlides st;
           sessionXp := sessionXp st |}, []).

(** What the user can press. *)
Inductive Event :=
| SelectOption (idx : nat)
| CheckAnswer
| TryAgain
| Continue.

(** The handler bound to each control, whether or not the control is
    on screen. *)
Definition handler (p : Props) (st : State) (s : Slide) (ev : Event)
  : State * list Call :=
  match ev with
  | SelectOption idx => handleSelect st idx
  | CheckAnswer => handleQuizSubmit p st s
  | TryAgain => handleRetry st
  | Continue => handleNext p st s
  end.

(** [slide.type === 'quiz' && !isAnswerChecked] *)
Definition showQuizCheckBtn (st : State) (s : Slide) : bool :=
  is_quiz s && negb (isAnswerChecked st).

(** The footer renders exactly one button. *)
Inductive FooterButton :=
| BtnCheckAnswer (disabled : bool)
| BtnTryAgain
| BtnContinue.

Definition footer (st : State) (s : Slide) : FooterButton :=
  if showQuizCheckBtn st s then
    BtnCheckAnswer (bool_decide (selectedOption st = None))
  else if is_quiz s && negb (isCorrect st) then BtnTryAgain
  else BtnContinue.

(** The option buttons exist only in the ['quiz'] case of
    [renderContent], one per entry of [slide.quizData?.options], each
    [disabled={isAnswerChecked}]. *)
Definition optionButton (st : State) (s : Slide) (idx : nat) : bool :=
  is_quiz s
  && match quizData s with
     | Some q => bool_decide (idx < length (options q))
     | None => false
     end
  && negb (isAnswerChecked st).

(** A control can fire when it is rendered and not disabled. *)
Definition enabled (st : State) (s : Slide) (ev : Event) : bool :=
  match ev with
  | SelectOption idx => optionButton st s idx
  | CheckAnswer =>
      match footer st s with BtnCheckAnswer d => negb d | _ => false end
  | TryAgain =>
      match footer st s with BtnTryAgain => true | _ => false end
  | Continue =>
      match footer st s with BtnContinue => true | _ => false end
  end.

(** One user action on the rendered component: a press on a control that
    is absent or disabled reaches no handler. *)
Definition click (p : Props) (st : State) (s : Slide) (ev : Event)
  : State * list Call :=
  if enabled st s ev then handler p st s ev else (st, []).

(** The body of the component up to its first use of [slide]: the
    dependency array [[currentSlideIndex, slide.type]] of [useEffect]
    reads [slide.type], which throws when [slide] is [undefined]. *)
Record Rendered := mkRendered {
  r_slide : Slide;
  r_progress : JsQuotient;
  r_isLastSlide : bool;
  r_footer : FooterButton
}.

Definition render (p : Props) (st : State) : Outcome Rendered :=
  let s := slide p st in
  let pr := progress p st in
  let last := isLastSlide p st in
  match s with
  | None => Threw TypeError
  | Some s => Returned (mkRendered s pr last (footer st s))
  end.

(** Mounting the component: the first render from the initial state. *)
Definition mount (p : Props) : Outcome (State * Rendered) :=
  match render p initialState with
  | Returned r => Returned (initialState, r)
  | Threw e => Threw e
  end.

Definition isComplete (c : Call) : bool :=
  match c with OnComplete _ _ => true | _ => false end.

(** A session: the events are delivered one by one to the component as
    rendered from the current state.  The session is over at the first
    [onComplete] (the owner closes the player); the calls made so far are
    returned together with the last state. *)
Fixpoint play (p : Props) (st : State) (evs : list Event)
  : Outcome (State * list Call) :=
  match slide p st with
  | None => Threw TypeError
  | Some s =>
      match evs with
      | [] => Returned (st, [])
      | ev :: evs' =>
          let '(st', calls) := click p st s ev in
          if existsb isComplete calls then Returned (st', calls)
          else match play p st' evs' with
               | Returned (st'', calls') => Returned (st'', calls ++ calls')
               | Threw e => Threw e
               end
      end
  end.

(** The same with the handlers invoked directly, in any order, whether
    or not their control is on screen. *)
Fixpoint invoke (p : Props) (st : State) (evs : list Event)
  : Outcome (State * list Call) :=
  match slide p st with
  | None => Threw TypeError
  | Some s =>
      match evs with
      | [] => Returned (st, [])
      | ev :: evs' =>
          let '(st', calls) := handler p st s ev in
          if existsb isComplete calls then Returned (st', calls)
          else match invoke p st' evs' with
               | Returned (st'', calls') => Returned (st'', calls ++ calls')
               | Threw e => Threw e
               end
      end
  end.

(** The reported total of a session, if it completed. *)
Definition reportedXp (calls : list Call) : option Z :=
  match filter (fun c => isComplete c = true) calls with
  | OnComplete _ xp :: _ => Some xp
  | _ => None
  end.

(** Was slide [s] answered incorrectly, according to the attempts the
    observer received? *)
Definition isWrongAttemptOn (sid : string) (c : Call) : bool :=
  match c with
  | OnQuizAttempt _ sid' _ _ correct =>
      bool_decide (sid' = sid) && negb correct
  | _ => false
  end.

Definition everFailed (calls : list Call) (s : Slide) : bool :=
  is_quiz s && existsb (isWrongAttemptOn (slide_id s)) calls.

End CoursePlayer.

(* ===================================================================== *)
(** ** App.tsx *)
(* ===================================================================== *)

(** The file exists in two revisions: the first keeps the collections in
    local storage, the second syncs every change to the backend.  Handlers
    that differ take the revision as an argument. *)
Inductive Revision := LocalStorageApp | ApiApp.

Module App.

Record State := mkState {
  users : list User;
  courses : list Course;
  auth : AuthState;
  activeCourse : option Course
}.

(** Requests to [services/api], fired and forgotten. *)
Inductive ApiCall :=
| saveUser (u : User)
| updateUserProgress (u : User)
| logQuizAttempt (userId : string) (a : QuizAttempt).

Definition hasId (id : string) (u : User) : bool :=
  bool_decide (user_id u = id).

(** [xs.find(u => u.id === id)] *)
Definition findUser (id : string) (xs : list User) : option User :=
  List.find (hasId id) xs.

(** [courses.find(c => c.id === courseId)] *)
Definition findCourse (courseId : string) (cs : list Course)
  : option Course :=
  List.find (fun c => bool_decide (course_id c = courseId)) cs.

(** [course ? course.slides.length * 50 : 0] *)
Definition maxPossibleXp (cs : list Course) (courseId : string) : Z :=
  match findCourse courseId cs with
  | Some c => (Z.of_nat (length (slides c)) * 50)%Z
  | None => 0%Z
  end.

(** [earnedXp === maxPossibleXp && maxPossibleXp > 0] *)
Definition isPerfectScore (cs : list Course) (courseId : string)
           (earnedXp : Z) : bool :=
  (earnedXp =? maxPossibleXp cs courseId)%Z
  && (0 <? maxPossibleXp cs courseId)%Z.

(** [if (cond && !newBadges.includes(b)) newBadges.push(b)] *)
Definition pushBadge (cond : bool) (b : string) (newBadges : list string)
  : list string :=
  if cond && negb (includes newBadges b) then newBadges ++ [b]
  else newBadges.

(** The callback of [users.map] inside [handleCompleteCourse].
    [u.xp + earnedXp] adds two doubles; it is taken here as the sum in
    [Z], which is what the doubles give whenever the two operands and
    their sum are safe integers ([isSafeInteger], [numberAdd]).  What is
    stated below about the value of the new XP carries that range as a
    hypothesis. *)
Definition completeFor (cur : User) (perfect : bool) (courseId : string)
           (earnedXp : Z) (u : User) : User :=
  if hasId (user_id cur) u then
    if includes (user_completedCourses u) courseId then u
    else
      let newXp := (user_xp u + earnedXp)%Z in
      let newCompleted := user_completedCourses u ++ [courseId] in
      let newBadges := user_badges u in
      let newBadges :=
        pushBadge (bool_decide (length newCompleted = 1)) "b1" newBadges in
      let newBadges := pushBadge (1000 <=? newXp)%Z "b2" newBadges in
      let newBadges := pushBadge perfect "b4" newBadges in
      {| user_id := user_id u; user_pin := user_pin u;
         user_name := user_name u; user_role := user_role u;
         user_avatar := user_avatar u;
         user_xp := newXp;
         user_streak := user_streak u;
         user_badges := newBadges;
         user_completedCourses := newCompleted;
         user_quizAttempts := user_quizAttempts u |}
  else u.

(** [userUpdated] of the second revision: set by the callback when it
    rewards some user. *)
Definition userUpdated (cur : User) (courseId : string) (xs : list User)
  : bool :=
  existsb (fun u => hasId (user_id cur) u
                    && negb (includes (user_completedCourses u) courseId))
          xs.

Definition handleCompleteCourse (rev : Revision) (st : State)
           (courseId : string) (earnedXp : Z) : State * list ApiCall :=
  match currentUser (auth st) with
  | None => (st, [])
  | Some cur =>
      let perfect := isPerfectScore (courses st) courseId earnedXp in
      let updatedUsers :=
        map (completeFor cur perfect courseId earnedXp) (users st) in
      let updatedCurrentUser := findUser (user_id cur) updatedUsers in
      match rev with
      | LocalStorageApp =>
          ({| users := updatedUsers; courses := courses st;
              auth := mkAuth true updatedCurrentUser;
              activeCourse := None |}, [])
      | ApiApp =>
          if userUpdated cur courseId (users st) then
            ({| users := updatedUsers; courses := courses st;
                auth := mkAuth true updatedCurrentUser;
                activeCourse := None |},
             match updatedCurrentUser with
             | Some u => [updateUserProgress u]
             | None => []
             end)
          else (st, [])
      end
  end.

(** [handleQuizAttempt]; [now] is the value of [Date.now()]. *)
Definition handleQuizAttempt (rev : Revision) (st : State) (now : Z)
           (courseId slideId question : string) (answer : option string)
           (correct : bool) : State * list ApiCall :=
  match currentUser (auth st) with
  | None => (st, [])
  | Some cur =>
      let attempt :=
        mkQuizAttempt courseId slideId question answer correct now in
      let append (u : User) : User :=
        {| user_id := user_id u; user_pin := user_pin u;
           user_name := user_name u; user_role := user_role u;
           user_avatar := user_avatar u; user_xp := user_xp u;
           user_streak := user_streak u; user_badges := user_badges u;
           user_completedCourses := user_completedCourses u;
           user_quizAttempts :=
             Some (default [] (user_quizAttempts u) ++ [attempt]) |} in
      match rev with
      | LocalStorageApp =>
          let updatedUsers :=
            map (fun u => if hasId (user_id cur) u then append u else u)
                (users st) in
          ({| users := updatedUsers; courses := courses st;
              auth := mkAuth (isAuthenticated (auth st))
                             (findUser (user_id cur) updatedUsers);
              activeCourse := activeCourse st |}, [])
      | ApiApp =>
          let updatedUser := append cur in
          ({| users := map (fun u => if hasId (user_id cur) u
                                     then updatedUser else u) (users st);
              courses := courses st;
              auth := mkAuth (isAuthenticated (auth st)) (Some updatedUser);
              activeCourse := activeCourse st |},
           [logQuizAttempt (user_id cur) attempt])
      end
  end.

(** [handleUpdateUser]: the record with the same id is replaced whole. *)
Definition handleUpdateUser (rev : Revision) (st : State)
           (updatedUser : User) : State * list ApiCall :=
  ({| users := map (fun u => if hasId (user_id updatedUser) u
                             then updatedUser else u) (users st);
      courses := courses st;
      auth := match currentUser (auth st) with
              | Some cur =>
                  if hasId (user_id updatedUser) cur
                  then mkAuth (isAuthenticated (auth st)) (Some updatedUser)
                  else auth st
              | None => auth st
              end;
      activeCourse := activeCourse st |},
   match rev with
   | LocalStorageApp => []
   | ApiApp => [saveUser updatedUser]
   end).

(** What one imported record does to the entry it matches.
    First revision: [{...old, name, pin, role}].
    Second revision: [{...old, ...imported}], every key of [imported]
    wins; the optional [quizAttempts] wins when it is present. *)
Definition mergeImported (rev : Revision) (old imported : User) : User :=
  match rev with
  | LocalStorageApp =>
      {| user_id := user_id old; user_pin := user_pin imported;
         user_name := user_name imported; user_role := user_role imported;
         user_avatar := user_avatar old; user_xp := user_xp old;
         user_streak := user_streak old; user_badges := user_badges old;
         user_completedCourses := user_completedCourses old;
         user_quizAttempts := user_quizAttempts old |}
  | ApiApp =>
      {| user_id := user_id imported; user_pin := user_pin imported;
         user_name := user_name imported; user_role := user_role imported;
         user_avatar := user_avatar imported; user_xp := user_xp imported;
         user_streak := user_streak imported;
         user_badges := user_badges imported;
         user_completedCourses := user_completedCourses imported;
         user_quizAttempts :=
           match user_quizAttempts imported with
           | Some a => Some a
           | None => user_quizAttempts old
           end |}
  end.

(** The body of [importedUsers.forEach], on the working copy
    [updatedUsers]: [findIndex], then overwrite in place or [push]. *)
Definition importOne (rev : Revision) (updatedUsers : list User)
           (imported : User) : list User :=
  match list_find (fun u => user_id u = user_id imported) updatedUsers with
  | Some (index, old) =>
      <[ index := mergeImported rev old imported ]> updatedUsers
  | None => updatedUsers ++ [imported]
  end.

Definition handleImportUsers (rev : Revision) (st : State)
           (importedUsers : list User) : State * list ApiCall :=
  ({| users := foldl (importOne rev) (users st) importedUsers;
      courses := courses st; auth := auth st;
      activeCourse := activeCourse st |},
   match rev with
   | LocalStorageApp => []
   | ApiApp => map saveUser importedUsers
   end).

End App.

(* ===================================================================== *)
(** ** components/EducatorDashboard.tsx, components/CourseBuilder.tsx *)
(* ===================================================================== *)

Module EducatorDashboard.

Section Avatar.
(** [encodeURIComponent] is a browser built-in; only the string it
    returns matters here. *)
Variable encodeURIComponent : string → string.

Definition avatarUrl (name : string) : string :=
  "https://ui-avatars.com/api/?name=" +:+ encodeURIComponent name
    +:+ "&background=random".

(** The form of the user dialog. *)
Record NewUser := mkNewUser {
  nu_name : string; nu_id : string; nu_pin : string; nu_role : Role
}.

(** The object literal [handleFileChange] pushes for one CSV line
    whose fields are [id,name,pin,role] (the splitting of the text
    into lines and fields is not modelled). *)
Definition parsedUser (id name pin : string) (role : Role) : User :=
  {| user_id := id; user_pin := pin; user_name := name;
     user_role := role; user_avatar := avatarUrl name;
     user_xp := 0; user_streak := 0; user_badges := [];
     user_completedCourses := []; user_quizAttempts := Some [] |}.

(** [handleSaveUser] in edit mode (the dialog was opened on an existing
    user): what it passes to [onUpdateUser], if anything. *)
Definition handleSaveUser_edit (users : list User) (newUser : NewUser)
  : option User :=
  if bool_decide (nu_name newUser = "") || bool_decide (nu_id newUser = "")
     || bool_decide (nu_pin newUser = "")
  then None
  else
    match App.findUser (nu_id newUser) users with
    | Some originalUser =>
        Some {| user_id := user_id originalUser;
                user_pin := nu_pin newUser;
                user_name := nu_name newUser;
                user_role := nu_role newUser;
                user_avatar :=
                  if bool_decide (user_name originalUser = nu_name newUser)
                  then user_avatar originalUser
                  else avatarUrl (nu_name newUser);
                user_xp := user_xp originalUser;
                user_streak := user_streak originalUser;
                user_badges := user_badges originalUser;
                user_completedCourses :=
                  user_completedCourses originalUser;
                user_quizAttempts := user_quizAttempts originalUser |}
    | None => None
    end.
End Avatar.

End EducatorDashboard.

Module CourseBuilder.

(** [handleSaveCourse]: what is handed to [onSave]; nothing when the
    title, the category or the slide list is empty. *)
Definition handleSaveCourse (title category : string) (slides : list Slide)
  : option (string * string * list Slide * Z * Z) :=
  if bool_decide (title = "") || bool_decide (category = "")
     || bool_decide (length slides = 0)
  then None
  else Some (title, category, slides,
             (Z.of_nat (length slides) * 2)%Z,
             (Z.of_nat (length slides) * 50)%Z).

(** [handlePreview]: does the preview player open? *)
Definition handlePreview (title category : string) (slides : list Slide)
  : bool :=
  negb (bool_decide (title = "") || bool_decide (category = "")
        || bool_decide (length slides = 0)).

End CourseBuilder.

(* ===================================================================== *)
(** ** services/mockData.ts: the first seed course *)
(* ===================================================================== *)

Module MockData.

Definition c1_slides : list Slide :=
  [ mkSlide "s1" intro "Importance of Hygiene"
      "Proper hand hygiene is the single most important way to prevent the spread of infection."
      (Some "https://images.unsplash.com/photo-1584634731339-252c581abfc5?auto=format&fit=crop&q=80&w=800")
      None;
    mkSlide "s2" video "The 5 Moments"
      "https://www.youtube.com/embed/IisgnbMfKvI" None None;
    mkSlide "s3" quiz "Quick Check" ""
      None
      (Some (mkQuizData
               "How long should you rub your hands together with soap?"
               ["5 seconds"; "10 seconds"; "At least 20 seconds"; "1 minute"]
               2));
    mkSlide "s4" summary "Module Complete"
      "You have successfully reviewed the Hand Hygiene protocols. Keep up the good work!"
      (Some "https://images.unsplash.com/photo-1628160205073-b26a117b9b00?auto=format&fit=crop&q=80&w=800")
      None ].

Definition INITIAL_USERS : list User :=
  [ mkUser "12345" "1234" "Sarah Jenkins" Nurse
      "https://ui-avatars.com/api/?name=Sarah+Jenkins&background=0ea5e9&color=fff"
      1250 5 ["b1"; "b2"] [] (Some []);
    mkUser "54321" "1234" "Mike Ross" Nurse
      "https://ui-avatars.com/api/?name=Mike+Ross&background=f59e0b&color=fff"
      850 2 ["b1"] [] (Some []);
    mkUser "99901" "1234" "Emily Blunt" Nurse
      "https://ui-avatars.com/api/?name=Emily+Blunt&background=10b981&color=fff"
      2100 12 ["b1"; "b2"; "b3"] [] (Some []);
    mkUser "admin" "1234" "Dr. A. Wong" Educator
      "https://ui-avatars.com/api/?name=Dr+Wong&background=6366f1&color=fff"
      0 0 [] [] (Some []) ].

(** [timestamp] is [Date.now() - 1000000000] in the source; [now] is the
    value of [Date.now()] when the module is loaded. *)
Definition c1 (now : Z) : Course :=
  mkCourse "c1" "Hand Hygiene Protocol" "Infection Control" c1_slides
           100 5 (Some (now - 1000000000)%Z).

End MockData.

(* ===================================================================== *)
(** ** Notions used in the statements *)
(* ===================================================================== *)

Module Scoring.
Import CoursePlayer.

(** The XP an advance adds for the slide it leaves: the total after
    [handleNext] (the new [sessionXp], or the total handed to
    [onComplete] on the last slide) minus [sessionXp] before. *)
Definition awardedXp (p : Props) (st : State) (s : Slide) : Z :=
  match handleNext p st s with
  | (_, OnComplete _ total :: _) => (total - sessionXp st)%Z
  | (st', _) => (sessionXp st' - sessionXp st)%Z
  end.

(** The scoring rule in the words of the specification: full XP, except
    for a quiz slide whose id is in the failed set. *)
Definition scoringRule (failed : gset string) (s : Slide) : Z :=
  match slide_type s with
  | quiz => if bool_decide (slide_id s ∈ failed) then 0%Z else 50%Z
  | intro | video | summary => 50%Z
  end.

(** The sum of the rule over a list of slides. *)
Definition sumAwards (failed : gset string) (l : list Slide) : Z :=
  foldr (fun s acc => (scoringRule failed s + acc)%Z) 0%Z l.

(** The quiz slides of a course that received a wrong answer. *)
Definition failedQuizzes (calls : list Call) (l : list Slide) : list Slide :=
  filter (fun s => everFailed calls s = true) l.

(** The state the session is in while it is under way: the index is in
    range and [sessionXp] is the sum of the awards of the slides already
    left. *)
Definition Consistent (p : Props) (st : State) : Prop :=
  currentSlideIndex st < length (slides (course p))
  ∧ sessionXp st
    = sumAwards (failedSlides st)
                (take (currentSlideIndex st) (slides (course p))).

(** The ids of the slides of a course are pairwise distinct. *)
Definition uniqueSlideIds (c : Course) : Prop :=
  NoDup (map slide_id (slides c)).

End Scoring.

(* ===================================================================== *)
(** ** Concrete sessions on the seed course *)
(* ===================================================================== *)

Module Examples.
Import CoursePlayer.

(** The player opened on the seed course c1 (intro, video, quiz,
    summary), with the observer of the application. *)
Definition p1 : Props := mkProps (MockData.c1 0) true.

(** The quiz slide of c1; its correct option is the one at index 2. *)
Definition s3 : Slide :=
  mkSlide "s3" quiz "Quick Check" "" None
    (Some (mkQuizData
             "How long should you rub your hands together with soap?"
             ["5 seconds"; "10 seconds"; "At least 20 seconds"; "1 minute"]
             2)).

(** On the quiz slide after two advances, nothing selected yet. *)
Definition atQuiz : State :=
  {| currentSlideIndex := 2; selectedOption := None;
     isAnswerChecked := false; isCorrect := false;
     failedSlides := ∅; sessionXp := 100 |}.

(** On the quiz slide, option 0 selected (a wrong one), not checked. *)
Definition atQuizWrongSelected : State :=
  {| currentSlideIndex := 2; selectedOption := Some 0;
     isAnswerChecked := false; isCorrect := false;
     failedSlides := ∅; sessionXp := 100 |}.

(** On the quiz slide, the right option checked at the first attempt. *)
Definition atQuizCheckedRight : State :=
  {| currentSlideIndex := 2; selectedOption := Some 2;
     isAnswerChecked := true; isCorrect := true;
     failedSlides := ∅; sessionXp := 100 |}.

(** The quiz answered right at the first attempt. *)
Definition firstTry : list Event :=
  [Continue; Continue; SelectOption 2; CheckAnswer; Continue; Continue].

(** The quiz answered wrong once, retried, then answered right. *)
Definition failedOnce : list Event :=
  [Continue; Continue; SelectOption 0; CheckAnswer; TryAgain;
   SelectOption 2; CheckAnswer; Continue; Continue].

(** Where those two sessions end, and the calls they made. *)
Definition firstTryEnd : State * list Call :=
  ({| currentSlideIndex := 3; selectedOption := None;
      isAnswerChecked := false; isCorrect := false;
      failedSlides := ∅; sessionXp := 150 |},
   [OnQuizAttempt "c1" "s3"
      "How long should you rub your hands together with soap?"
      (Some "At least 20 seconds") true;
    OnComplete "c1" 200]).

Definition failedOnceEnd : State * list Call :=
  ({| currentSlideIndex := 3; selectedOption := None;
      isAnswerChecked := false; isCorrect := false;
      failedSlides := {[ "s3" ]}; sessionXp := 100 |},
   [OnQuizAttempt "c1" "s3"
      "How long should you rub your hands together with soap?"
      (Some "5 seconds") false;
    OnQuizAttempt "c1" "s3"
      "How long should you rub your hands together with soap?"
      (Some "At least 20 seconds") true;
    OnComplete "c1" 150]).

(** A course without slides. *)
Definition emptyCourse : Course :=
  mkCourse "c0" "Empty" "Safety" [] 0 0 None.

Definition pEmpty : Props := mkProps emptyCourse true.

(** A course whose two quiz slides carry the same id. *)
Definition twinQuiz (title : string) : Slide :=
  mkSlide "q" quiz title "" None
    (Some (mkQuizData "Ready?" ["yes"; "no"] 0)).

Definition twinCourse : Course :=
  mkCourse "twins" "Twins" "Safety" [twinQuiz "first"; twinQuiz "second"]
           100 4 None.

Definition pTwins : Props := mkProps twinCourse true.

(** The first quiz right at once, the second wrong and then right. *)
Definition secondTwinFailed : list Event :=
  [SelectOption 0; CheckAnswer; Continue;
   SelectOption 1; CheckAnswer; TryAgain; SelectOption 0; CheckAnswer;
   Continue].

(** The first seed user, Sarah Jenkins. *)
Definition sarah : User :=
  mkUser "12345" "1234" "Sarah Jenkins" Nurse
    "https://ui-avatars.com/api/?name=Sarah+Jenkins&background=0ea5e9&color=fff"
    1250 5 ["b1"; "b2"] [] (Some []).

(** The application with the seed data, Sarah logged in and playing c1. *)
Definition sarahPlaying : App.State :=
  {| App.users := MockData.INITIAL_USERS;
     App.courses := [MockData.c1 0];
     App.auth := mkAuth true (Some sarah);
     App.activeCourse := Some (MockData.c1 0) |}.

(** Sarah after a first completion of c1 that earned 150 XP. *)
Definition sarahAfter150 : User :=
  mkUser "12345" "1234" "Sarah Jenkins" Nurse
    "https://ui-avatars.com/api/?name=Sarah+Jenkins&background=0ea5e9&color=fff"
    1400 5 ["b1"; "b2"] ["c1"] (Some []).

(** Sarah after a first completion of c1 that earned 200 XP. *)
Definition sarahAfter200 : User :=
  mkUser "12345" "1234" "Sarah Jenkins" Nurse
    "https://ui-avatars.com/api/?name=Sarah+Jenkins&background=0ea5e9&color=fff"
    1450 5 ["b1"; "b2"; "b4"] ["c1"] (Some []).

(** The same application once Sarah has completed c1 with 150 XP. *)
Definition sarahDone : App.State :=
  {| App.users := sarahAfter150 :: tail MockData.INITIAL_USERS;
     App.courses := [MockData.c1 0];
     App.auth := mkAuth true (Some sarahAfter150);
     App.activeCourse := None |}.

End Examples.

(* ===================================================================== *)
(** ** App.tsx: the handlers of the login screen and of user management *)
(* ===================================================================== *)

Module AppHandlers.
Import App.

(** What a handler does besides setting state. *)
Inductive Effect :=
| Api (c : ApiCall)
| ApiDeleteUser (userId : string)
| ApiSaveCourse (c : Course)
| Alert (msg : string).

(** [{ ...u, pin: newPin }] *)
Definition withPin (u : User) (newPin : string) : User :=
  {| user_id := user_id u; user_pin := newPin; user_name := user_name u;
     user_role := user_role u; user_avatar := user_avatar u;
     user_xp := user_xp u; user_streak := user_streak u;
     user_badges := user_badges u;
     user_completedCourses := user_completedCourses u;
     user_quizAttempts := user_quizAttempts u |}.

(** [u.id === id && u.pin === pin] *)
Definition credentialsMatch (id pin : string) (u : User) : bool :=
  bool_decide (user_id u = id) && bool_decide (user_pin u = pin).

(** [handleLogin], the same in both revisions.  The second component is
    the new value of the [loginError] cell ([None] is [undefined]). *)
Definition handleLogin (st : State) (id pin : string)
  : State * option string :=
  match List.find (credentialsMatch id pin) (users st) with
  | Some user =>
      ({| users := users st; courses := courses st;
          auth := mkAuth true (Some user);
          activeCourse := activeCourse st |}, None)
  | None => (st, Some "Invalid Staff ID or PIN")
  end.

(** [handleResetPin]; the boolean is its return value. *)
Definition handleResetPin (rev : Revision) (st : State) (id newPin : string)
  : State * list Effect * bool :=
  match list_find (fun u => user_id u = id) (users st) with
  | Some (userIndex, u) =>
      let updatedUser := withPin u newPin in
      ({| users := <[ userIndex := updatedUser ]> (users st);
          courses := courses st; auth := auth st;
          activeCourse := activeCourse st |},
       match rev with
       | LocalStorageApp => []
       | ApiApp => [Api (saveUser updatedUser)]
       end,
       true)
  | None => (st, [], false)
  end.

(** [users.some(u => u.id === id)] *)
Definition idTaken (id : string) (xs : list User) : bool :=
  existsb (hasId id) xs.

Definition handleAddUser (rev : Revision) (st : State) (newUser : User)
  : State * list Effect :=
  if idTaken (user_id newUser) (users st) then
    (st, [Alert ("User with ID " +:+ user_id newUser +:+ " already exists.")])
  else
    ({| users := users st ++ [newUser]; courses := courses st;
        auth := auth st; activeCourse := activeCourse st |},
     match rev with
     | LocalStorageApp => []
     | ApiApp => [Api (saveUser newUser)]
     end).

(** [handleRemoveUser]; [confirmed] is the answer to the [confirm]
    dialog, which opens only when the id is not the one logged in. *)
Definition handleRemoveUser (rev : Revision) (st : State) (userId : string)
           (confirmed : bool) : State * list Effect :=
  if match currentUser (auth st) with
     | Some cur => bool_decide (userId = user_id cur)
     | None => false
     end
  then (st, [Alert "You cannot delete your own account while logged in."])
  else if confirmed then
    ({| users := List.filter (fun u => negb (hasId userId u)) (users st);
        courses := courses st; auth := auth st;
        activeCourse := activeCourse st |},
     match rev with
     | LocalStorageApp => []
     | ApiApp => [ApiDeleteUser userId]
     end)
  else (st, []).

(** [handleUpdateCourse] *)
Definition handleUpdateCourse (rev : Revision) (st : State)
           (updatedCourse : Course) : State * list Effect :=
  ({| users := users st;
      courses := map (fun c => if bool_decide (course_id c
                                               = course_id updatedCourse)
                               then updatedCourse else c) (courses st);
      auth := auth st; activeCourse := activeCourse st |},
   match rev with
   | LocalStorageApp => []
   | ApiApp => [ApiSaveCourse updatedCourse]
   end).

End AppHandlers.

(* ===================================================================== *)
(** ** components/EducatorDashboard.tsx: statistics, saving a course *)
(* ===================================================================== *)

Module EducatorStats.

(** [users.filter(u => u.role === 'Nurse')] *)
Definition nurses (users : list User) : list User :=
  List.filter (fun u => bool_decide (user_role u = Nurse)) users.

(** [nurses.length * courses.length] *)
Definition totalAssignments (users : list User) (courses : list Course) : Z :=
  (Z.of_nat (length (nurses users)) * Z.of_nat (length courses))%Z.

(** [nurses.reduce((acc, user) => acc + user.completedCourses.length, 0)] *)
Definition totalCompletions (users : list User) : Z :=
  foldl (fun acc user =>
           (acc + Z.of_nat (length (user_completedCourses user)))%Z)
        0%Z (nurses users).

(** The value of the 'Pending' slice of the chart. *)
Definition pending (users : list User) (courses : list Course) : Z :=
  (totalAssignments users courses - totalCompletions users)%Z.

(** [handleSaveCourse] of the dashboard on what the builder hands over
    (title, category, slides, durationMinutes, xpReward), while a course
    is being edited: the course passed to [onUpdateCourse], that is
    [{ ...courseData, id: editingCourse.id }].  The builder's data has no
    [timestamp] key. *)
Definition editedCourse (editingCourse : Course)
           (courseData : string * string * list Slide * Z * Z) : Course :=
  let '(title, category, slides, durationMinutes, xpReward) := courseData in
  mkCourse (course_id editingCourse) title category slides
           xpReward durationMinutes None.

End EducatorStats.

(* ===================================================================== *)
(** ** components/CourseBuilder.tsx: the slide list and the slide form *)
(* ===================================================================== *)

Module SlideEditor.

(** The cells of the slide form. *)
Record Form := mkForm {
  activeSlideType : option SlideType;
  editingSlideId : option string;
  slideTitle : string;
  slideContent : string;
  slideImage : string;
  quizQuestion : string;
  quizOptions : list string;
  quizCorrectIdx : nat
}.

(** The slide list and the form ([mode], which only selects the screen,
    is left out). *)
Record Builder := mkBuilder {
  b_slides : list Slide;
  b_form : Form
}.

(** The form after [resetSlideForm]. *)
Definition emptyForm : Form :=
  mkForm None None "" "" "" "" [""; ""] 0.

(** A string as a condition: the empty string is falsy. *)
Definition truthy (s : string) : bool := negb (bool_decide (s = "")).

Section Editor.
(** [getEmbedUrl] works with regular expressions, and [o.trim() === '']
    with the whitespace classes of JavaScript: both are taken as they
    are. *)
Variable getEmbedUrl : string → string.
Variable isBlank : string → bool.

(** The slide [handleSaveSlide] builds from the form; [freshId] is the
    string [`s-${Date.now()}`]. *)
Definition newSlide (freshId : string) (ty : SlideType) (f : Form) : Slide :=
  {| slide_id := match editingSlideId f with
                 | Some id => if truthy id then id else freshId
                 | None => freshId
                 end;
     slide_type := ty;
     slide_title := if bool_decide (ty = quiz) then "Knowledge Check"
                    else slideTitle f;
     slide_content := if bool_decide (ty = video)
                      then getEmbedUrl (slideContent f)
                      else slideContent f;
     slide_image := if truthy (slideImage f) then Some (slideImage f)
                    else None;
     quizData := if bool_decide (ty = quiz) then
                   Some {| question := quizQuestion f;
                           options := List.filter (fun o => negb (isBlank o))
                                                  (quizOptions f);
                           correctIndex := quizCorrectIdx f |}
                 else None |}.

Definition handleSaveSlide (freshId : string) (b : Builder) : Builder :=
  match activeSlideType (b_form b) with
  | None => b
  | Some ty =>
      let s := newSlide freshId ty (b_form b) in
      {| b_slides :=
           match editingSlideId (b_form b) with
           | Some id =>
               if truthy id then
                 map (fun s' => if bool_decide (slide_id s' = id)
                                then s else s') (b_slides b)
               else b_slides b ++ [s]
           | None => b_slides b ++ [s]
           end;
         b_form := emptyForm |}
  end.
End Editor.

(** [handleEditSlide]: the slide is loaded into the form; the quiz cells
    are loaded only from a quiz slide that has its data. *)
Definition handleEditSlide (b : Builder) (s : Slide) : Builder :=
  let f := b_form b in
  let loadQuiz := is_quiz s && bool_decide (is_Some (quizData s)) in
  {| b_slides := b_slides b;
     b_form :=
       {| activeSlideType := Some (slide_type s);
          editingSlideId := Some (slide_id s);
          slideTitle := slide_title s;
          slideContent := slide_content s;
          slideImage := default "" (slide_image s);
          quizQuestion :=
            match quizData s with
            | Some q => if loadQuiz then question q else quizQuestion f
            | None => quizQuestion f
            end;
          quizOptions :=
            match quizData s with
            | Some q => if loadQuiz then options q else quizOptions f
            | None => quizOptions f
            end;
          quizCorrectIdx :=
            match quizData s with
            | Some q => if loadQuiz then correctIndex q else quizCorrectIdx f
            | None => quizCorrectIdx f
            end |} |}.

(** [removeSlide] *)
Definition removeSlide (b : Builder) (id : string) : Builder :=
  {| b_slides := List.filter (fun s => negb (bool_decide (slide_id s = id)))
                             (b_slides b);
     b_form := b_form b |}.

(** The two [splice] calls of [onDrop] on a copy of the list:
    [splice(from, 1)] takes out the entry at [from], if there is one;
    [splice(to, 0, item)] puts [item] in at [to], or at the end when [to]
    is past it.  An entry is [None] when it is [undefined], which is what
    the first call yields out of range. *)
Definition moveEntry {A : Type} (l : list A) (from to : nat)
  : list (option A) :=
  let draggedItem := l !! from in
  let rest := Some <$> delete from l in
  take to rest ++ [draggedItem] ++ drop to rest.

(** [onDrop]: the new slide list, or [None] when nothing is set
    ([draggedIdx] is [null], or the drop is on the dragged row). *)
Definition onDrop (slides : list Slide) (draggedIdx : option nat)
           (dropIndex : nat) : option (list (option Slide)) :=
  match draggedIdx with
  | None => None
  | Some from =>
      if bool_decide (from = dropIndex) then None
      else Some (moveEntry slides from dropIndex)
  end.

End SlideEditor.

(* ===================================================================== *)
(** ** Further notions used in the statements *)
(* ===================================================================== *)

Module Sessions.
Import CoursePlayer.

(** A slide the player can get past: a quiz slide carries its data and
    its correct index is one of its options. *)
Definition passable (s : Slide) : Prop :=
  slide_type s = quiz →
  ∃ q, quizData s = Some q ∧ correctIndex q < length (options q).

(** The presses of a user who answers every quiz right at once. *)
Definition flawlessPresses (s : Slide) : list Event :=
  if is_quiz s then
    match quizData s with
    | Some q => [SelectOption (correctIndex q); CheckAnswer; Continue]
    | None => [Continue]
    end
  else [Continue].

Definition flawlessRun (l : list Slide) : list Event :=
  flat_map flawlessPresses l.

(** A selection, when there is one, is the index of an option of the
    current slide. *)
Definition selectionInRange (p : Props) (st : State) : Prop :=
  ∀ sel, selectedOption st = Some sel →
         ∃ s q, slide p st = Some s ∧ quizData s = Some q
                ∧ sel < length (options q).

(** The state on arrival at slide [i] with [xp] points and no quiz failed
    so far. *)
Definition arriving (i : nat) (xp : Z) : State :=
  {| currentSlideIndex := i; selectedOption := None;
     isAnswerChecked := false; isCorrect := false;
     failedSlides := ∅; sessionXp := xp |}.

(** Every answer handed to the observer is a text. *)
Definition answerDefined (c : Call) : Prop :=
  match c with
  | OnQuizAttempt _ _ _ answer _ => is_Some answer
  | OnComplete _ _ => True
  end.

End Sessions.

(* ===================================================================== *)
(** ** Further concrete cases *)
(* ===================================================================== *)

Module Cases.
Import CoursePlayer.

(** A quiz slide as the builder saves it from the untouched quiz form:
    both options blank, so none is kept. *)
Definition emptyQuiz : Slide :=
  mkSlide "s-1700000000000" quiz "Knowledge Check" "" None
    (Some (mkQuizData "" [] 0)).

Definition blockedCourse : Course :=
  mkCourse "c3-1700000000001" "Blocked" "Safety"
    [mkSlide "s-1699999999999" intro "Welcome" "Read on." None None;
     emptyQuiz]
    100 4 (Some 1700000000001%Z).

(** The preview of the builder passes no attempt observer. *)
Definition pBlocked : Props := mkProps blockedCourse false.

(** Stand-ins for the two helpers of the slide form on the strings used
    below, which hold no white space and no video address: the blank test
    is the test for the empty string, the embed helper returns its
    argument. *)
Definition emptyIsBlank (o : string) : bool := bool_decide (o = "").

Definition keepUrl (url : string) : string := url.

(** The quiz form with a blank first option and the second one marked. *)
Definition shiftedForm : SlideEditor.Form :=
  SlideEditor.mkForm (Some quiz) None "" "" "" "Ready?" [""; "yes"; "no"] 1.

(** The builder opened on the slides of the seed course. *)
Definition c1Builder : SlideEditor.Builder :=
  SlideEditor.mkBuilder MockData.c1_slides SlideEditor.emptyForm.

(** The first slide of the seed course. *)
Definition s1 : Slide :=
  mkSlide "s1" intro "Importance of Hygiene"
    "Proper hand hygiene is the single most important way to prevent the spread of infection."
    (Some "https://images.unsplash.com/photo-1584634731339-252c581abfc5?auto=format&fit=crop&q=80&w=800")
    None.

(** A second record with the id and the PIN of the first seed user. *)
Definition sarahTwin : User :=
  mkUser "12345" "1234" "Sarah J." Educator "" 0 0 [] [] None.

End Cases.

(** [u.quizAttempts || updatedUsers[index].quizAttempts] of the second
    revision's import, as a function of the imported record: the attempts
    it carries win, an empty list included. *)
Definition keepAttempts (a : User) (q : option (list QuizAttempt))
  : option (list QuizAttempt) :=
  match user_quizAttempts a with Some x => Some x | None => q end.

(* ===================================================================== *)
(** ** components/CourseBuilder.tsx: the preview *)
(* ===================================================================== *)

Module Preview.
Import CoursePlayer.

(** [getPreviewCourse] *)
Definition getPreviewCourse (title category : string) (slides : list Slide)
  : Course :=
  mkCourse "preview-temp"
    (if bool_decide (title = "") then "Untitled Course" else title)
    (if bool_decide (category = "") then "Uncategorized" else category)
    slides
    (Z.of_nat (length slides) * 50)%Z
    (Z.of_nat (length slides) * 2)%Z
    None.

(** [<CoursePlayer course={getPreviewCourse()} onClose=... onComplete=... />]:
    the preview passes no [onQuizAttempt]. *)
Definition previewProps (title category : string) (slides : list Slide)
  : Props :=
  mkProps (getPreviewCourse title category slides) false.

(** The preview of the seed course c1. *)
Definition pPreview : Props :=
  previewProps "Hand Hygiene Protocol" "Infection Control"
    MockData.c1_slides.

End Preview.

(* ===================================================================== *)
(** ** The player: scoring *)
(* ===================================================================== *)

Section PlayerScoring.
Import CoursePlayer Scoring.

Lemma calculateSlideXp_rule (st : State) (s : Slide) :
  calculateSlideXp st s = scoringRule (failedSlides st) s.
Proof.
  unfold calculateSlideXp, scoringRule, is_quiz, XP_PER_SLIDE.
  destruct (slide_type s); reflexivity.
Qed.

Lemma awardedXp_calculate (p : Props) (st : State) (s : Slide) :
  awardedXp p st s = calculateSlideXp st s.
Proof.
  unfold awardedXp, handleNext.
  destruct (isLastSlide p st); simpl; lia.
Qed.

(** C1. Advancing past a slide adds 50 XP, except that it adds 0 for a
    quiz slide whose id is in the failed set of the session; an intro,
    video or summary slide always adds 50. *)
Theorem C1_xp_awarded_for_slide (p : Props) (st : State) (s : Slide) :
  awardedXp p st s
  = match slide_type s with
    | quiz => if bool_decide (slide_id s ∈ failedSlides st)
              then 0%Z else 50%Z
    | intro | video | summary => 50%Z
    end.
Proof.
  rewrite awardedXp_calculate, calculateSlideXp_rule.
  unfold scoringRule, is_quiz, XP_PER_SLIDE.
  destruct (slide_type s); reflexivity.
Qed.

(** On the seed course: the quiz slide s3 adds 0 in the session that
    failed it once and 50 in the session that did not; the intro slide s1
    adds 50 in both. *)
Lemma C1_xp_awarded_for_slide_witness :
  awardedXp Examples.p1 Examples.failedOnceEnd.1 Examples.s3 = 0%Z
  ∧ awardedXp Examples.p1 Examples.firstTryEnd.1 Examples.s3 = 50%Z
  ∧ awardedXp Examples.p1 Examples.failedOnceEnd.1 Cases.s1 = 50%Z
  ∧ awardedXp Examples.p1 Examples.firstTryEnd.1 Cases.s1 = 50%Z.
Proof.
  exact (conj (C1_xp_awarded_for_slide
                 Examples.p1 Examples.failedOnceEnd.1 Examples.s3)
        (conj (C1_xp_awarded_for_slide
                 Examples.p1 Examples.firstTryEnd.1 Examples.s3)
        (conj (C1_xp_awarded_for_slide
                 Examples.p1 Examples.failedOnceEnd.1 Cases.s1)
              (C1_xp_awarded_for_slide
                 Examples.p1 Examples.firstTryEnd.1 Cases.s1)))).
Defined.

End PlayerScoring.

(* ===================================================================== *)
(** ** The player: what the handlers do to the session *)
(* ===================================================================== *)

Section PlayerSession.
Import CoursePlayer Scoring.

(** No handler removes an id from the failed set. *)
Lemma handler_failedSlides_mono (p : Props) (st : State) (s : Slide)
      (ev : Event) :
  failedSlides st ⊆ failedSlides (handler p st s ev).1.
Proof.
  destruct ev; simpl.
  - unfold handleSelect. destruct (isAnswerChecked st); simpl; set_solver.
  - unfold handleQuizSubmit.
    destruct (selectedOption st) as [sel|]; [|simpl; set_solver].
    destruct (quizData s) as [q|]; [|simpl; set_solver].
    simpl. destruct (bool_decide (sel = correctIndex q)); set_solver.
  - set_solver.
  - unfold handleNext. destruct (isLastSlide p st); simpl; set_solver.
Qed.

(** A handler leaves the index in range. *)
Lemma handler_index_in_range (p : Props) (st : State) (s : Slide)
      (ev : Event) :
  currentSlideIndex st < length (slides (course p)) →
  currentSlideIndex (handler p st s ev).1 < length (slides (course p)).
Proof.
  intros Hlt. destruct ev; simpl.
  - unfold handleSelect. destruct (isAnswerChecked st); simpl; lia.
  - unfold handleQuizSubmit.
    destruct (selectedOption st); [|simpl; lia].
    destruct (quizData s); simpl; lia.
  - lia.
  - unfold handleNext, isLastSlide.
    destruct (Z.eqb_spec (Z.of_nat (currentSlideIndex st))
                         (Z.of_nat (length (slides (course p))) - 1));
      simpl; lia.
Qed.

Lemma slide_in_range (p : Props) (st : State) :
  currentSlideIndex st < length (slides (course p)) ↔
  is_Some (slide p st).
Proof. unfold slide. symmetry. apply lookup_lt_is_Some. Qed.

(** From a state whose index is in range, any sequence of handler
    invocations runs to the end (or to the completion) without a throw. *)
Lemma invoke_returns (p : Props) (evs : list Event) (st : State) :
  currentSlideIndex st < length (slides (course p)) →
  ∃ r, invoke p st evs = Returned r.
Proof.
  revert st. induction evs as [|ev evs IH]; intros st Hlt.
  - simpl. apply slide_in_range in Hlt as [s ->]. eauto.
  - simpl. pose proof Hlt as Hlt'.
    apply slide_in_range in Hlt as [s ->].
    pose proof (handler_index_in_range p st s ev Hlt') as Hnext.
    destruct (handler p st s ev) as [st' calls]; simpl in Hnext.
    destruct (existsb isComplete calls); [eauto|].
    destruct (IH st' Hnext) as [[st'' calls'] ->]. eauto.
Qed.

(** A session on the rendered component is a sequence of handler
    invocations: the presses that reach no handler drop out. *)
Lemma play_is_invoke (p : Props) (evs : list Event) (st : State)
      (r : State * list Call) :
  play p st evs = Returned r →
  ∃ evs', invoke p st evs' = Returned r.
Proof.
  revert st r. induction evs as [|ev evs IH]; intros st r.
  - intros H. exists []. exact H.
  - simpl. destruct (slide p st) as [s|] eqn:Hs; [|discriminate].
    unfold click. destruct (enabled st s ev).
    + destruct (handler p st s ev) as [st' calls] eqn:Hh.
      destruct (existsb isComplete calls) eqn:Hc.
      * intros H. exists [ev]. simpl. rewrite Hs, Hh, Hc. exact H.
      * destruct (play p st' evs) as [[st'' calls']|] eqn:Hp;
          [|discriminate].
        intros H. destruct (IH _ _ Hp) as [evs' Hi].
        exists (ev :: evs'). simpl. rewrite Hs, Hh, Hc, Hi. exact H.
    + simpl. destruct (play p st evs) as [[st'' calls']|] eqn:Hp;
        [|discriminate].
      intros H. destruct (IH _ _ Hp) as [evs' Hi].
      exists evs'. rewrite Hi. exact H.
Qed.

Lemma play_returns (p : Props) (evs : list Event) (st : State) :
  currentSlideIndex st < length (slides (course p)) →
  ∃ r, play p st evs = Returned r.
Proof.
  revert st. induction evs as [|ev evs IH]; intros st Hlt.
  - simpl. apply slide_in_range in Hlt as [s ->]. eauto.
  - simpl. pose proof Hlt as Hlt'.
    apply slide_in_range in Hlt as [s ->].
    unfold click. destruct (enabled st s ev).
    + pose proof (handler_index_in_range p st s ev Hlt') as Hnext.
      destruct (handler p st s ev) as [st' calls]; simpl in Hnext.
      destruct (existsb isComplete calls); [eauto|].
      destruct (IH st' Hnext) as [[st'' calls'] ->]. eauto.
    + simpl. destruct (IH st Hlt') as [[st'' calls'] ->]. eauto.
Qed.

Lemma invoke_failedSlides_mono (p : Props) (evs : list Event) (st : State)
      (st' : State) (calls : list Call) :
  invoke p st evs = Returned (st', calls) →
  failedSlides st ⊆ failedSlides st'.
Proof.
  revert st st' calls. induction evs as [|ev evs IH]; intros st st' calls.
  - simpl. destruct (slide p st); [|discriminate].
    intros [= <- <-]. set_solver.
  - simpl. destruct (slide p st) as [s|]; [|discriminate].
    pose proof (handler_failedSlides_mono p st s ev) as Hm.
    destruct (handler p st s ev) as [st1 calls1]; simpl in Hm.
    destruct (existsb isComplete calls1).
    + intros [= <- <-]. exact Hm.
    + destruct (invoke p st1 evs) as [[st2 calls2]|] eqn:Hi;
        [|discriminate].
      intros [= <- <-]. specialize (IH _ _ _ Hi). set_solver.
Qed.

(** C3. Once the current quiz slide receives a wrong answer its id is in
    the failed set, it stays there through every later handler invocation
    (retry, a new selection, a later correct check, an advance), and the
    XP the advance adds for that slide is 0, whatever the last check
    said. *)
Theorem C3_failed_slide_is_permanent
        (p : Props) (st : State) (s : Slide) (q : QuizData) (sel : nat)
        (evs : list Event) :
  slide p st = Some s →
  slide_type s = quiz →
  quizData s = Some q →
  selectedOption st = Some sel →
  sel ≠ correctIndex q →
  slide_id s ∈ failedSlides (handleQuizSubmit p st s).1
  ∧ ∃ st' calls,
      invoke p (handleQuizSubmit p st s).1 evs = Returned (st', calls)
      ∧ slide_id s ∈ failedSlides st'
      ∧ calculateSlideXp st' s = 0%Z
      ∧ awardedXp p st' s = 0%Z.
Proof.
  intros Hcur Hty Hq Hsel Hne.
  assert (Hin : slide_id s ∈ failedSlides (handleQuizSubmit p st s).1).
  { unfold handleQuizSubmit. rewrite Hsel, Hq. simpl.
    rewrite bool_decide_eq_false_2 by exact Hne. set_solver. }
  split; [exact Hin|].
  assert (Hlt : currentSlideIndex (handleQuizSubmit p st s).1
                < length (slides (course p))).
  { apply (handler_index_in_range p st s CheckAnswer).
    apply slide_in_range. rewrite Hcur. eauto. }
  destruct (invoke_returns p evs _ Hlt) as [[st' calls] Hrun].
  exists st', calls. split; [exact Hrun|].
  pose proof (invoke_failedSlides_mono _ _ _ _ _ Hrun) as Hmono.
  assert (Hin' : slide_id s ∈ failedSlides st') by set_solver.
  assert (Hxp : calculateSlideXp st' s = 0%Z).
  { unfold calculateSlideXp, is_quiz.
    rewrite (bool_decide_eq_true_2 _ Hty).
    rewrite (bool_decide_eq_true_2 _ Hin'). reflexivity. }
  repeat split; try assumption.
  rewrite awardedXp_calculate. exact Hxp.
Qed.

(** C4 (amended).  A check of the answer, with an option selected on a
    slide that carries quiz data, marks the answer as checked, and right
    exactly when the selected index is the correct index.  When the
    player was given an observer it calls it exactly once; the flag it
    passes is whether the selected index is the correct index, the answer
    it passes is the entry of the option list at the selected index,
    whether the answer is right or wrong.  When the player was given no
    observer it makes no call. *)
Theorem C4_submit_emits_one_attempt
        (p : Props) (st : State) (s : Slide) (q : QuizData) (sel : nat) :
  selectedOption st = Some sel →
  quizData s = Some q →
  isAnswerChecked (handleQuizSubmit p st s).1 = true
  ∧ isCorrect (handleQuizSubmit p st s).1
    = bool_decide (sel = correctIndex q)
  ∧ (handleQuizSubmit p st s).2
    = if onQuizAttempt p
      then [OnQuizAttempt (course_id (course p)) (slide_id s) (question q)
                          (options q !! sel)
                          (bool_decide (sel = correctIndex q))]
      else [].
Proof.
  intros Hsel Hq. unfold handleQuizSubmit.
  rewrite Hsel, Hq. simpl. auto.
Qed.

End PlayerSession.

(* ===================================================================== *)
(** ** The player: which control can fire *)
(* ===================================================================== *)

Section PlayerControls.
Import CoursePlayer Scoring Examples.

Lemma is_quiz_true (s : Slide) : is_quiz s = true ↔ slide_type s = quiz.
Proof. unfold is_quiz. apply bool_decide_eq_true. Qed.

Lemma is_quiz_false (s : Slide) : is_quiz s = false ↔ slide_type s ≠ quiz.
Proof. unfold is_quiz. apply bool_decide_eq_false. Qed.

(** The check control fires exactly on a quiz slide that is not yet
    checked and has a selection. *)
Lemma enabled_CheckAnswer (st : State) (s : Slide) :
  enabled st s CheckAnswer = true ↔
  slide_type s = quiz ∧ isAnswerChecked st = false
  ∧ is_Some (selectedOption st).
Proof.
  unfold enabled, footer, showQuizCheckBtn. rewrite <- is_quiz_true.
  split.
  - intros H.
    destruct (is_quiz s), (isAnswerChecked st), (isCorrect st),
      (selectedOption st); simpl in H; try discriminate H;
      repeat split; eauto.
  - intros (Hq & Hc & [sel Hsel]). rewrite Hq, Hc, Hsel. reflexivity.
Qed.

(** The retry control fires exactly on a quiz slide whose checked answer
    is wrong. *)
Lemma enabled_TryAgain (st : State) (s : Slide) :
  enabled st s TryAgain = true ↔
  slide_type s = quiz ∧ isAnswerChecked st = true ∧ isCorrect st = false.
Proof.
  unfold enabled, footer, showQuizCheckBtn. rewrite <- is_quiz_true.
  destruct (is_quiz s), (isAnswerChecked st), (isCorrect st); simpl;
    split; try (intros (? & ? & ?)); try discriminate; auto.
Qed.

(** The advance control fires exactly on a slide that is not a quiz, or
    on a quiz slide whose checked answer is right. *)
Lemma enabled_Continue (st : State) (s : Slide) :
  enabled st s Continue = true ↔
  slide_type s ≠ quiz
  ∨ (isAnswerChecked st = true ∧ isCorrect st = true).
Proof.
  unfold enabled, footer, showQuizCheckBtn. rewrite <- is_quiz_false.
  destruct (is_quiz s), (isAnswerChecked st), (isCorrect st); simpl;
    split; try (intros [?|[? ?]]); try discriminate; auto.
Qed.

(** Every press that the check control accepts is a check with a
    selection on a quiz slide; when the slide carries its quiz data and
    the observer is supplied, the press calls the observer exactly once. *)
Lemma click_CheckAnswer_calls_once (p : Props) (st : State) (s : Slide)
      (q : QuizData) :
  onQuizAttempt p = true →
  quizData s = Some q →
  enabled st s CheckAnswer = true →
  ∃ sel, selectedOption st = Some sel
         ∧ (click p st s CheckAnswer).2
           = [OnQuizAttempt (course_id (course p)) (slide_id s) (question q)
                            (options q !! sel)
                            (bool_decide (sel = correctIndex q))].
Proof.
  intros Hobs Hq Hen. unfold click. rewrite Hen. simpl.
  apply enabled_CheckAnswer in Hen as (_ & _ & [sel Hsel]).
  exists sel. split; [exact Hsel|].
  unfold handleQuizSubmit. rewrite Hsel, Hq, Hobs. reflexivity.
Qed.

(** C5, as stated, does not hold.  The handlers themselves reject
    nothing: on the quiz slide of the seed course, with no answer checked,
    [handleNext] moves on to the next slide and adds 50 XP; after a right
    answer was checked, [handleRetry] clears the answer. *)
Lemma C5_handlers_do_not_reject :
  slide p1 atQuiz = Some s3
  ∧ slide_type s3 = quiz
  ∧ isAnswerChecked atQuiz = false
  ∧ (handleNext p1 atQuiz s3).1 ≠ atQuiz
  ∧ currentSlideIndex (handleNext p1 atQuiz s3).1 = 3
  ∧ sessionXp (handleNext p1 atQuiz s3).1 = 150%Z
  ∧ (handleNext p1 atQuiz s3).2 = []
  ∧ isCorrect atQuizCheckedRight = true
  ∧ (handleRetry atQuizCheckedRight).1 ≠ atQuizCheckedRight
  ∧ (handleRetry atQuizCheckedRight).2 = [].
Proof.
  repeat split; try reflexivity.
  - intros H. apply (f_equal currentSlideIndex) in H. discriminate H.
  - intros H. apply (f_equal isAnswerChecked) in H. discriminate H.
Qed.

(** C5 (amended).  No handler signals an error.  [handleQuizSubmit]
    returns at once, state unchanged and nothing emitted, when no option
    is selected or the slide has no quiz data.  The other preconditions
    are kept by the footer: a press on the check control changes nothing
    when nothing is selected, when the slide is not a quiz or when the
    answer is already checked; a press on the advance control changes
    nothing on a quiz slide whose answer is not checked and right; a
    press on the retry control changes nothing unless the slide is a
    quiz whose checked answer is wrong. *)
Theorem C5_preconditions_kept_by_controls
        (p : Props) (st : State) (s : Slide) :
  (selectedOption st = None ∨ quizData s = None →
   handleQuizSubmit p st s = (st, []))
  ∧ (selectedOption st = None ∨ slide_type s ≠ quiz
     ∨ isAnswerChecked st = true →
     click p st s CheckAnswer = (st, []))
  ∧ (slide_type s = quiz
     ∧ ¬ (isAnswerChecked st = true ∧ isCorrect st = true) →
     click p st s Continue = (st, []))
  ∧ (¬ (slide_type s = quiz ∧ isAnswerChecked st = true
        ∧ isCorrect st = false) →
     click p st s TryAgain = (st, [])).
Proof.
  repeat split.
  - intros [H|H]; unfold handleQuizSubmit; rewrite H; [reflexivity|].
    destruct (selectedOption st); reflexivity.
  - intros H. unfold click.
    destruct (enabled st s CheckAnswer) eqn:He; [|reflexivity].
    apply enabled_CheckAnswer in He as (Hq & Hc & [sel Hsel]).
    destruct H as [H|[H|H]]; congruence.
  - intros [Hq Hn]. unfold click.
    destruct (enabled st s Continue) eqn:He; [|reflexivity].
    apply enabled_Continue in He as [He|He]; [congruence|tauto].
  - intros Hn. unfold click.
    destruct (enabled st s TryAgain) eqn:He; [|reflexivity].
    apply enabled_TryAgain in He. tauto.
Qed.

Lemma C5_preconditions_kept_by_controls_witness :
  (selectedOption atQuiz = None ∨ quizData s3 = None)
  ∧ handleQuizSubmit p1 atQuiz s3 = (atQuiz, [])
  ∧ (selectedOption atQuiz = None ∨ slide_type s3 ≠ quiz
     ∨ isAnswerChecked atQuiz = true)
  ∧ click p1 atQuiz s3 CheckAnswer = (atQuiz, [])
  ∧ (slide_type s3 = quiz
     ∧ ¬ (isAnswerChecked atQuiz = true ∧ isCorrect atQuiz = true))
  ∧ click p1 atQuiz s3 Continue = (atQuiz, [])
  ∧ ¬ (slide_type s3 = quiz ∧ isAnswerChecked atQuiz = true
       ∧ isCorrect atQuiz = false)
  ∧ click p1 atQuiz s3 TryAgain = (atQuiz, []).
Proof.
  assert (H1 : selectedOption atQuiz = None ∨ quizData s3 = None)
    by (left; reflexivity).
  assert (H2 : selectedOption atQuiz = None ∨ slide_type s3 ≠ quiz
               ∨ isAnswerChecked atQuiz = true)
    by (left; reflexivity).
  assert (H3 : slide_type s3 = quiz
               ∧ ¬ (isAnswerChecked atQuiz = true ∧ isCorrect atQuiz = true))
    by (split; [reflexivity | intros [H _]; discriminate H]).
  assert (H4 : ¬ (slide_type s3 = quiz ∧ isAnswerChecked atQuiz = true
                  ∧ isCorrect atQuiz = false))
    by (intros (_ & H & _); discriminate H).
  destruct (C5_preconditions_kept_by_controls p1 atQuiz s3)
    as (T1 & T2 & T3 & T4).
  exact (conj H1 (conj (T1 H1) (conj H2 (conj (T2 H2)
          (conj H3 (conj (T3 H3) (conj H4 (T4 H4)))))))).
Defined.

End PlayerControls.

(* ===================================================================== *)
(** ** The player: opening a course *)
(* ===================================================================== *)

Section PlayerMount.
Import CoursePlayer Examples.

(** On a course with at least one slide the player mounts in the initial
    state, on the first slide. *)
Lemma mount_nonempty (p : Props) (s : Slide) (rest : list Slide) :
  slides (course p) = s :: rest →
  ∃ r, mount p = Returned (initialState, r) ∧ r_slide r = s.
Proof.
  intros H. unfold mount, render, slide. rewrite H. simpl. eauto.
Qed.

(** C8, as stated, does not hold.  Opened on a course without
    slides, the player reads [slides[0]] out of bounds (it gets
    [undefined]), divides by the zero length in the progress (it gets
    [Infinity]) and its first render throws a [TypeError]. *)
Lemma C8_empty_course_is_not_guarded :
  slides (course pEmpty) = []
  ∧ slide pEmpty initialState = None
  ∧ js_div (Z.of_nat (currentSlideIndex initialState) + 1)
           (Z.of_nat (length (slides (course pEmpty)))) = PosInfinity
  ∧ progress pEmpty initialState = PosInfinity
  ∧ mount pEmpty = Threw TypeError.
Proof. repeat split. Qed.

(** C8 (amended).  The player has no guard for a course without slides
    and no [InvalidCourse] condition: on such a course the first render
    reads the slide out of bounds, the progress is a division by zero
    that yields [Infinity], and the render throws a [TypeError] at its
    first use of the missing slide.  Such courses are kept out upstream:
    the course builder neither saves nor previews one. *)
Theorem C8_empty_course_throws_on_mount
        (p : Props) (title category : string) :
  slides (course p) = [] →
  slide p initialState = None
  ∧ progress p initialState = PosInfinity
  ∧ mount p = Threw TypeError
  ∧ CourseBuilder.handleSaveCourse title category (slides (course p)) = None
  ∧ CourseBuilder.handlePreview title category (slides (course p)) = false.
Proof.
  intros H.
  unfold mount, render, progress, slide, CourseBuilder.handleSaveCourse,
    CourseBuilder.handlePreview.
  rewrite H. simpl.
  repeat split; try reflexivity.
  - destruct (bool_decide (title = "")), (bool_decide (category = ""));
      reflexivity.
  - destruct (bool_decide (title = "")), (bool_decide (category = ""));
      reflexivity.
Qed.

Lemma C8_empty_course_throws_on_mount_witness :
  slides (course pEmpty) = []
  ∧ slide pEmpty initialState = None
  ∧ progress pEmpty initialState = PosInfinity
  ∧ mount pEmpty = Threw TypeError
  ∧ CourseBuilder.handleSaveCourse "Empty" "Safety" (slides (course pEmpty))
    = None
  ∧ CourseBuilder.handlePreview "Empty" "Safety" (slides (course pEmpty))
    = false.
Proof.
  split; [reflexivity|].
  apply (C8_empty_course_throws_on_mount pEmpty "Empty" "Safety").
  reflexivity.
Defined.

End PlayerMount.

(* ===================================================================== *)
(** ** The player: the total of a session *)
(* ===================================================================== *)

Section PlayerTotal.
Import CoursePlayer Scoring Examples.

Lemma sumAwards_app (F : gset string) (l1 l2 : list Slide) :
  sumAwards F (l1 ++ l2) = (sumAwards F l1 + sumAwards F l2)%Z.
Proof.
  unfold sumAwards. induction l1 as [|s l1 IH]; simpl; [reflexivity|].
  rewrite IH. lia.
Qed.

(** Adding an id that no slide of the list carries changes no award. *)
Lemma sumAwards_fresh (F : gset string) (x : string) (l : list Slide) :
  Forall (fun s => slide_id s ≠ x) l →
  sumAwards (F ∪ {[ x ]}) l = sumAwards F l.
Proof.
  unfold sumAwards. induction 1 as [|s l Hs _ IH]; simpl; [reflexivity|].
  rewrite IH. f_equal. unfold scoringRule.
  destruct (slide_type s); try reflexivity.
  rewrite (bool_decide_ext (slide_id s ∈ F ∪ {[ x ]}) (slide_id s ∈ F))
    by (rewrite elem_of_union, elem_of_singleton; intuition congruence).
  reflexivity.
Qed.

(** With distinct ids, the slides before position [i] carry other ids
    than the slide at position [i]. *)
Lemma earlier_slides_other_id (l : list Slide) (i : nat) (s : Slide) :
  NoDup (map slide_id l) →
  l !! i = Some s →
  Forall (fun s' => slide_id s' ≠ slide_id s) (take i l).
Proof.
  intros Hnd Hi. apply Forall_forall. intros s' Hin Heq.
  apply list_elem_of_lookup in Hin as [j Hj].
  pose proof (lookup_lt_Some _ _ _ Hj) as Hjlt.
  rewrite length_take in Hjlt.
  rewrite lookup_take_lt in Hj by lia.
  assert (Hmi : map slide_id l !! i = Some (slide_id s))
    by (rewrite list_lookup_fmap, Hi; reflexivity).
  assert (Hmj : map slide_id l !! j = Some (slide_id s))
    by (rewrite list_lookup_fmap, Hj; simpl; congruence).
  pose proof (NoDup_lookup _ _ _ _ Hnd Hmi Hmj). lia.
Qed.

(** The sum of the awards counts 50 for every slide that is not a quiz
    with its id in the set. *)
Lemma sumAwards_count (F : gset string) (l : list Slide) :
  sumAwards F l
  = ((Z.of_nat (length l)
      - Z.of_nat (length (filter
           (fun s => is_quiz s && bool_decide (slide_id s ∈ F) = true) l)))
     * 50)%Z.
Proof.
  induction l as [|s l IH]; [reflexivity|].
  unfold sumAwards in *. simpl foldr. rewrite IH.
  rewrite filter_cons. unfold scoringRule, is_quiz.
  destruct (slide_type s); simpl; try lia.
  destruct (bool_decide (slide_id s ∈ F)); simpl; lia.
Qed.

End PlayerTotal.

Section PlayerRun.
Import CoursePlayer Scoring Examples.

Lemma reportedXp_app_l (calls1 calls2 : list Call) :
  existsb isComplete calls1 = false →
  reportedXp (calls1 ++ calls2) = reportedXp calls2.
Proof.
  intros H. unfold reportedXp. rewrite filter_app.
  replace (filter (λ c, isComplete c = true) calls1) with (@nil Call);
    [reflexivity|].
  induction calls1 as [|c calls1 IH]; [reflexivity|].
  simpl in H. apply orb_false_iff in H as [Hc Hrest].
  rewrite filter_cons, decide_False by congruence. auto.
Qed.

Lemma Consistent_initial (p : Props) (s : Slide) :
  slide p initialState = Some s → Consistent p initialState.
Proof.
  intros H. split; [|reflexivity].
  apply slide_in_range. rewrite H. eauto.
Qed.

Lemma take_all_at_last (p : Props) (st : State) (s : Slide) :
  slide p st = Some s →
  isLastSlide p st = true →
  slides (course p)
  = take (currentSlideIndex st) (slides (course p)) ++ [s].
Proof.
  unfold slide, isLastSlide. intros Hs Hlast.
  apply Z.eqb_eq in Hlast.
  rewrite <- (take_S_r _ _ _ Hs).
  rewrite take_ge by lia. reflexivity.
Qed.

(** One handler invocation from a state under way: the failed set grows
    by exactly the ids the observer saw answered wrong; either the
    session goes on in a state under way, or it completes and reports
    the sum of the awards of all slides. *)
Lemma handler_step (p : Props) (st : State) (s : Slide) (ev : Event) :
  onQuizAttempt p = true →
  uniqueSlideIds (course p) →
  slide p st = Some s →
  Consistent p st →
  (∀ sid, sid ∈ failedSlides (handler p st s ev).1 ↔
          sid ∈ failedSlides st
          ∨ existsb (isWrongAttemptOn sid) (handler p st s ev).2 = true)
  ∧ (existsb isComplete (handler p st s ev).2 = false →
     Consistent p (handler p st s ev).1)
  ∧ (existsb isComplete (handler p st s ev).2 = true →
     (handler p st s ev).1 = st
     ∧ (handler p st s ev).2
       = [OnComplete (course_id (course p))
                     (sumAwards (failedSlides st) (slides (course p)))]).
Proof.
  intros Hobs Hnd Hs [Hlt Hxp]. destruct ev; simpl.
  - (* an option button *)
    unfold handleSelect. destruct (isAnswerChecked st); simpl;
      (split; [intros sid; split; [auto | intros [?|?]; [auto|discriminate]]
              |split; [intros _; split; assumption | discriminate]]).
  - (* the check *)
    unfold handleQuizSubmit.
    destruct (selectedOption st) as [sel|]; simpl;
      [destruct (quizData s) as [q|]; simpl|].
    + rewrite Hobs. simpl.
      destruct (bool_decide (sel = correctIndex q)) eqn:Hc; simpl.
      * split; [intros sid; rewrite andb_false_r; simpl;
                split; [auto | intros [?|?]; [auto|discriminate]]|].
        split; [intros _; split; assumption | discriminate].
      * split.
        { intros sid. rewrite elem_of_union, elem_of_singleton.
          rewrite andb_true_r, orb_false_r, bool_decide_eq_true.
          intuition congruence. }
        split; [|discriminate].
        intros _. split; simpl; [assumption|].
        rewrite Hxp. symmetry. apply sumAwards_fresh.
        apply earlier_slides_other_id; assumption.
    + split; [intros sid; split; [auto | intros [?|?]; [auto|discriminate]]|].
      split; [intros _; split; assumption | discriminate].
    + split; [intros sid; split; [auto | intros [?|?]; [auto|discriminate]]|].
      split; [intros _; split; assumption | discriminate].
  - (* the retry *)
    split; [intros sid; split; [auto | intros [?|?]; [auto|discriminate]]|].
    split; [intros _; split; assumption | discriminate].
  - (* the advance *)
    unfold handleNext. rewrite calculateSlideXp_rule.
    destruct (isLastSlide p st) eqn:Hlast; simpl.
    + split; [intros sid; split; [auto | intros [?|?]; [auto|discriminate]]|].
      split; [discriminate|]. intros _. split; [reflexivity|].
      rewrite (f_equal (sumAwards (failedSlides st))
                       (take_all_at_last p st s Hs Hlast)).
      rewrite sumAwards_app, Hxp. unfold sumAwards at 3. simpl.
      do 2 f_equal. lia.
    + split; [intros sid; split; [auto | intros [?|?]; [auto|discriminate]]|].
      split; [|discriminate]. intros _.
      unfold isLastSlide in Hlast. apply Z.eqb_neq in Hlast.
      split; simpl; [lia|].
      replace (currentSlideIndex st + 1) with (S (currentSlideIndex st))
        by lia.
      rewrite (take_S_r _ _ _ Hs), sumAwards_app, Hxp.
      unfold sumAwards at 3. simpl. lia.
Qed.

(** Any sequence of handler invocations from a state under way. *)
Lemma invoke_total (p : Props) (evs : list Event) (st st' : State)
      (calls : list Call) :
  onQuizAttempt p = true →
  uniqueSlideIds (course p) →
  Consistent p st →
  invoke p st evs = Returned (st', calls) →
  (∀ sid, sid ∈ failedSlides st' ↔
          sid ∈ failedSlides st
          ∨ existsb (isWrongAttemptOn sid) calls = true)
  ∧ (∀ total, reportedXp calls = Some total →
              total = sumAwards (failedSlides st') (slides (course p))).
Proof.
  intros Hobs Hnd. revert st st' calls.
  induction evs as [|ev evs IH]; intros st st' calls Hc.
  - simpl. destruct (slide p st); [|discriminate].
    intros [= <- <-]. split; [|discriminate].
    intros sid. simpl. intuition discriminate.
  - simpl. destruct (slide p st) as [s|] eqn:Hs; [|discriminate].
    destruct (handler_step p st s ev Hobs Hnd Hs Hc) as (Hf & Hgo & Hend).
    destruct (handler p st s ev) as [st1 calls1]; simpl in *.
    destruct (existsb isComplete calls1) eqn:Hdone.
    + intros [= <- <-]. split; [exact Hf|].
      destruct (Hend eq_refl) as [-> ->].
      intros total [= <-]. reflexivity.
    + destruct (invoke p st1 evs) as [[st2 calls2]|] eqn:Hi; [|discriminate].
      intros [= <- <-].
      destruct (IH _ _ _ (Hgo eq_refl) Hi) as [Hf2 Hx2].
      split.
      * intros sid. rewrite existsb_app, orb_true_iff, Hf2, Hf. tauto.
      * intros total. rewrite reportedXp_app_l by exact Hdone. apply Hx2.
Qed.

(** C2. On a course whose slide ids are distinct, a session that
    completes reports (N - K) * 50, where N is the number of slides and K
    the number of quiz slides that received a wrong answer during the
    session. *)
Theorem C2_total_xp_on_completion
        (p : Props) (evs : list Event) (st : State) (calls : list Call)
        (total : Z) :
  onQuizAttempt p = true →
  uniqueSlideIds (course p) →
  play p initialState evs = Returned (st, calls) →
  reportedXp calls = Some total →
  total
  = ((Z.of_nat (length (slides (course p)))
      - Z.of_nat (length (failedQuizzes calls (slides (course p)))))
     * XP_PER_SLIDE)%Z.
Proof.
  intros Hobs Hnd Hplay Hrep.
  assert (Hc : Consistent p initialState).
  { destruct (slide p initialState) as [s|] eqn:Hs.
    - exact (Consistent_initial p s Hs).
    - destruct evs; simpl in Hplay; rewrite Hs in Hplay; discriminate. }
  destruct (play_is_invoke _ _ _ _ Hplay) as [evs' Hinv].
  destruct (invoke_total p evs' _ _ _ Hobs Hnd Hc Hinv) as [Hf Hx].
  rewrite (Hx _ Hrep), sumAwards_count. unfold XP_PER_SLIDE.
  do 4 f_equal. unfold failedQuizzes.
  apply list_filter_iff. intros s. unfold everFailed.
  rewrite !andb_true_iff, bool_decide_eq_true, Hf.
  simpl. rewrite elem_of_empty. tauto.
Qed.

End PlayerRun.

Section PlayerExamples.
Import CoursePlayer Scoring Examples.

Lemma c1_uniqueSlideIds : uniqueSlideIds (course p1).
Proof.
  unfold uniqueSlideIds. apply (bool_decide_unpack _). vm_compute. exact I.
Qed.

(** The four-slide seed course, quiz right at the first attempt: 200. *)
Lemma play_firstTry : play p1 initialState firstTry = Returned firstTryEnd.
Proof. vm_compute. reflexivity. Qed.

(** The same course, quiz failed once and then corrected: 150. *)
Lemma play_failedOnce :
  play p1 initialState failedOnce = Returned failedOnceEnd.
Proof. vm_compute. reflexivity. Qed.

Lemma C2_total_xp_on_completion_witness :
  (onQuizAttempt p1 = true
   ∧ uniqueSlideIds (course p1)
   ∧ play p1 initialState firstTry = Returned firstTryEnd
   ∧ reportedXp firstTryEnd.2 = Some 200%Z
   ∧ length (slides (course p1)) = 4
   ∧ failedQuizzes firstTryEnd.2 (slides (course p1)) = []
   ∧ 200%Z
     = ((Z.of_nat (length (slides (course p1)))
         - Z.of_nat (length (failedQuizzes firstTryEnd.2
                                           (slides (course p1)))))
        * XP_PER_SLIDE)%Z)
  ∧ (play p1 initialState failedOnce = Returned failedOnceEnd
     ∧ reportedXp failedOnceEnd.2 = Some 150%Z
     ∧ failedQuizzes failedOnceEnd.2 (slides (course p1)) = [s3]
     ∧ 150%Z
       = ((Z.of_nat (length (slides (course p1)))
           - Z.of_nat (length (failedQuizzes failedOnceEnd.2
                                             (slides (course p1)))))
          * XP_PER_SLIDE)%Z).
Proof.
  split.
  - split; [reflexivity|]. split; [exact c1_uniqueSlideIds|].
    split; [exact play_firstTry|]. split; [reflexivity|].
    split; [reflexivity|]. split; [vm_compute; reflexivity|].
    apply (C2_total_xp_on_completion p1 firstTry firstTryEnd.1
                                     firstTryEnd.2 200%Z).
    + reflexivity.
    + exact c1_uniqueSlideIds.
    + exact play_firstTry.
    + reflexivity.
  - split; [exact play_failedOnce|]. split; [reflexivity|].
    split; [vm_compute; reflexivity|].
    apply (C2_total_xp_on_completion p1 failedOnce failedOnceEnd.1
                                     failedOnceEnd.2 150%Z).
    + reflexivity.
    + exact c1_uniqueSlideIds.
    + exact play_failedOnce.
    + reflexivity.
Defined.

Lemma C3_failed_slide_is_permanent_witness :
  slide p1 atQuizWrongSelected = Some s3
  ∧ slide_type s3 = quiz
  ∧ selectedOption atQuizWrongSelected = Some 0
  ∧ 0 ≠ 2
  ∧ slide_id s3 ∈ failedSlides (handleQuizSubmit p1 atQuizWrongSelected s3).1
  ∧ ∃ st' calls,
      invoke p1 (handleQuizSubmit p1 atQuizWrongSelected s3).1
             [TryAgain; SelectOption 2; CheckAnswer]
      = Returned (st', calls)
      ∧ slide_id s3 ∈ failedSlides st'
      ∧ calculateSlideXp st' s3 = 0%Z
      ∧ awardedXp p1 st' s3 = 0%Z.
Proof.
  split; [reflexivity|]. split; [reflexivity|]. split; [reflexivity|].
  split; [lia|].
  apply (C3_failed_slide_is_permanent p1 atQuizWrongSelected s3
           (mkQuizData
              "How long should you rub your hands together with soap?"
              ["5 seconds"; "10 seconds"; "At least 20 seconds"; "1 minute"]
              2)
           0 [TryAgain; SelectOption 2; CheckAnswer]).
  - reflexivity.
  - reflexivity.
  - reflexivity.
  - reflexivity.
  - simpl. lia.
Defined.

(** The state that sequence reaches: the last check was right, and the
    slide is still in the failed set. *)
Lemma retry_then_right_keeps_failed :
  ∃ st' calls,
    invoke p1 (handleQuizSubmit p1 atQuizWrongSelected s3).1
           [TryAgain; SelectOption 2; CheckAnswer]
    = Returned (st', calls)
    ∧ isAnswerChecked st' = true
    ∧ isCorrect st' = true
    ∧ failedSlides st' = {[ "s3" ]}
    ∧ (handleNext p1 st' s3).1.(sessionXp) = 100%Z.
Proof.
  eexists _, _. split; [vm_compute; reflexivity|].
  repeat split; vm_compute; reflexivity.
Qed.

Lemma C4_submit_emits_one_attempt_witness :
  selectedOption atQuizWrongSelected = Some 0
  ∧ quizData s3
    = Some (mkQuizData
              "How long should you rub your hands together with soap?"
              ["5 seconds"; "10 seconds"; "At least 20 seconds"; "1 minute"]
              2)
  ∧ isAnswerChecked (handleQuizSubmit p1 atQuizWrongSelected s3).1 = true
  ∧ isCorrect (handleQuizSubmit p1 atQuizWrongSelected s3).1 = false
  ∧ (handleQuizSubmit p1 atQuizWrongSelected s3).2
    = [OnQuizAttempt "c1" "s3"
         "How long should you rub your hands together with soap?"
         (Some "5 seconds") false].
Proof.
  exact (conj eq_refl (conj eq_refl
           (C4_submit_emits_one_attempt p1 atQuizWrongSelected s3 _ 0
              eq_refl eq_refl))).
Defined.

(** The claim as stated fails in the preview of the course builder, which
    opens the player without an observer: on the seed course the preview
    opens, two advances and a press on the first option lead to the quiz
    slide with a selection, and the check is made (the answer is marked
    as checked and wrong, the slide as failed) with no call at all. *)
Lemma C4_preview_check_emits_nothing :
  CourseBuilder.handlePreview "Hand Hygiene Protocol" "Infection Control"
    MockData.c1_slides = true
  ∧ onQuizAttempt Preview.pPreview = false
  ∧ play Preview.pPreview initialState [Continue; Continue; SelectOption 0]
    = Returned (atQuizWrongSelected, [])
  ∧ slide Preview.pPreview atQuizWrongSelected = Some s3
  ∧ click Preview.pPreview atQuizWrongSelected s3 CheckAnswer
    = handleQuizSubmit Preview.pPreview atQuizWrongSelected s3
  ∧ (handleQuizSubmit Preview.pPreview atQuizWrongSelected s3).1
    = {| currentSlideIndex := 2; selectedOption := Some 0;
         isAnswerChecked := true; isCorrect := false;
         failedSlides := {[ "s3" ]}; sessionXp := 100 |}
  ∧ (handleQuizSubmit Preview.pPreview atQuizWrongSelected s3).2 = []
  ∧ ¬ (∃ c, (handleQuizSubmit Preview.pPreview atQuizWrongSelected s3).2
            = [c]).
Proof.
  repeat split; try (vm_compute; reflexivity).
  intros [c Hc]. vm_compute in Hc. discriminate Hc.
Qed.

(** Distinct ids are needed: when two quiz slides share an id, the first
    answered right at once and the second failed, the session reports 50,
    while both slides count as failed by their id. *)
Lemma shared_id_breaks_the_count :
  ∃ st calls,
    play pTwins initialState secondTwinFailed = Returned (st, calls)
    ∧ reportedXp calls = Some 50%Z
    ∧ length (slides (course pTwins)) = 2
    ∧ length (failedQuizzes calls (slides (course pTwins))) = 2.
Proof.
  eexists _, _. split; [vm_compute; reflexivity|].
  repeat split; vm_compute; reflexivity.
Qed.

End PlayerExamples.

(* ===================================================================== *)
(** ** The application: applying a completion *)
(* ===================================================================== *)

Section Completion.
Import App Examples.

Lemma includes_true (l : list string) (x : string) :
  includes l x = true ↔ x ∈ l.
Proof. unfold includes. apply bool_decide_eq_true. Qed.

Lemma includes_false (l : list string) (x : string) :
  includes l x = false ↔ x ∉ l.
Proof. unfold includes. apply bool_decide_eq_false. Qed.

Lemma elem_of_pushBadge (cond : bool) (b x : string) (l : list string) :
  x ∈ pushBadge cond b l ↔ x ∈ l ∨ (cond = true ∧ x = b).
Proof.
  unfold pushBadge. destruct cond; simpl.
  - destruct (includes l b) eqn:Hb; simpl.
    + apply includes_true in Hb. split; [auto|].
      intros [H|[_ ->]]; assumption.
    + rewrite elem_of_app, list_elem_of_singleton. tauto.
  - split; [auto|]. intros [H|[H _]]; [assumption|discriminate].
Qed.

(** The callback leaves every other user alone. *)
Lemma completeFor_other (cur : User) (perfect : bool) (cid : string)
      (earned : Z) (u : User) :
  user_id u ≠ user_id cur → completeFor cur perfect cid earned u = u.
Proof.
  intros H. unfold completeFor, hasId.
  rewrite bool_decide_eq_false_2 by exact H. reflexivity.
Qed.

(** The guard against a double reward. *)
Lemma completeFor_done (cur : User) (perfect : bool) (cid : string)
      (earned : Z) (u : User) :
  cid ∈ user_completedCourses u → completeFor cur perfect cid earned u = u.
Proof.
  intros H. unfold completeFor.
  destruct (hasId (user_id cur) u); [|reflexivity].
  apply includes_true in H. rewrite H. reflexivity.
Qed.

(** The reward of the logged-in user for a course not completed before. *)
Lemma completeFor_new (cur : User) (perfect : bool) (cid : string)
      (earned : Z) (u : User) :
  user_id u = user_id cur →
  cid ∉ user_completedCourses u →
  user_xp (completeFor cur perfect cid earned u) = (user_xp u + earned)%Z
  ∧ user_completedCourses (completeFor cur perfect cid earned u)
    = user_completedCourses u ++ [cid]
  ∧ ("b4" ∈ user_badges (completeFor cur perfect cid earned u) ↔
     "b4" ∈ user_badges u ∨ perfect = true).
Proof.
  intros Hid Hnew. unfold completeFor, hasId.
  rewrite bool_decide_eq_true_2 by exact Hid.
  apply includes_false in Hnew. rewrite Hnew. simpl.
  repeat split; try tauto.
  - rewrite !elem_of_pushBadge. intros [[[H|[_ H]]|[_ H]]|[H _]];
      try discriminate H; auto.
  - rewrite !elem_of_pushBadge. intros [H|H]; auto.
Qed.

Lemma map_completeFor_idle (cur : User) (perfect : bool) (cid : string)
      (earned : Z) (xs : list User) :
  userUpdated cur cid xs = false →
  map (completeFor cur perfect cid earned) xs = xs.
Proof.
  unfold userUpdated. induction xs as [|u xs IH]; [reflexivity|].
  simpl. intros H. apply orb_false_iff in H as [Hu Hrest].
  rewrite IH by exact Hrest. f_equal.
  unfold completeFor. destruct (hasId (user_id cur) u); [|reflexivity].
  simpl in Hu. apply negb_false_iff in Hu. rewrite Hu. reflexivity.
Qed.

(** In both revisions the user collection after the handler is the image
    of the collection under the callback. *)
Lemma users_handleCompleteCourse (rev : Revision) (st : State)
      (cid : string) (earned : Z) (cur : User) :
  currentUser (auth st) = Some cur →
  users (handleCompleteCourse rev st cid earned).1
  = map (completeFor cur (isPerfectScore (courses st) cid earned)
                     cid earned) (users st).
Proof.
  intros Hcur. unfold handleCompleteCourse. rewrite Hcur.
  destruct rev; [reflexivity|].
  destruct (userUpdated cur cid (users st)) eqn:Hup; [reflexivity|].
  simpl. symmetry. apply map_completeFor_idle. exact Hup.
Qed.

Lemma users_handleCompleteCourse_logged_out (rev : Revision) (st : State)
      (cid : string) (earned : Z) :
  currentUser (auth st) = None →
  handleCompleteCourse rev st cid earned = (st, []).
Proof. intros H. unfold handleCompleteCourse. rewrite H. reflexivity. Qed.

Lemma isPerfectScore_true (cs : list Course) (cid : string) (earned : Z) :
  isPerfectScore cs cid earned = true ↔
  earned = maxPossibleXp cs cid ∧ (0 < maxPossibleXp cs cid)%Z.
Proof.
  unfold isPerfectScore.
  rewrite andb_true_iff, Z.eqb_eq, Z.ltb_lt. reflexivity.
Qed.

End Completion.

Section CompletionClaims.
Import App Examples.

Lemma completeFor_id (cur : User) (perfect : bool) (cid : string)
      (earned : Z) (u : User) :
  user_id (completeFor cur perfect cid earned u) = user_id u.
Proof.
  unfold completeFor. destruct (hasId (user_id cur) u); [|reflexivity].
  destruct (includes (user_completedCourses u) cid); reflexivity.
Qed.

(** After the callback, the course is in the completed list of every
    record of the logged-in user. *)
Lemma completeFor_completed (cur : User) (perfect : bool) (cid : string)
      (earned : Z) (u : User) :
  user_id u = user_id cur →
  cid ∈ user_completedCourses (completeFor cur perfect cid earned u).
Proof.
  intros Hid. unfold completeFor, hasId.
  rewrite bool_decide_eq_true_2 by exact Hid.
  destruct (includes (user_completedCourses u) cid) eqn:Hin.
  - apply includes_true. exact Hin.
  - simpl. rewrite elem_of_app, list_elem_of_singleton. auto.
Qed.

Lemma completeFor_twice (cur cur' : User) (perfect perfect' : bool)
      (cid : string) (earned earned' : Z) (u : User) :
  user_id cur' = user_id cur →
  completeFor cur' perfect' cid earned' (completeFor cur perfect cid earned u)
  = completeFor cur perfect cid earned u.
Proof.
  intros Hsame.
  destruct (decide (user_id u = user_id cur)) as [Hid|Hid].
  - apply completeFor_done. apply completeFor_completed. exact Hid.
  - apply completeFor_other. rewrite completeFor_id. congruence.
Qed.

Lemma findUser_id (id : string) (xs : list User) (u : User) :
  findUser id xs = Some u → user_id u = id.
Proof.
  unfold findUser. intros H. apply find_some in H as [_ H].
  unfold hasId in H. apply bool_decide_eq_true in H. exact H.
Qed.

(** The logged-in user keeps its id across the handler. *)
Lemma currentUser_id_kept (rev : Revision) (st : State) (cid : string)
      (earned : Z) (cur cur' : User) :
  currentUser (auth st) = Some cur →
  currentUser (auth (handleCompleteCourse rev st cid earned).1) = Some cur' →
  user_id cur' = user_id cur.
Proof.
  intros Hcur. unfold handleCompleteCourse. rewrite Hcur.
  destruct rev; simpl.
  - apply findUser_id.
  - destruct (userUpdated cur cid (users st)); simpl.
    + apply findUser_id.
    + rewrite Hcur. intros [= <-]. reflexivity.
Qed.

(** A second completion of the same course changes no user. *)
Lemma handleCompleteCourse_twice (rev : Revision) (st : State)
      (cid : string) (earned earned' : Z) :
  users (handleCompleteCourse rev
           (handleCompleteCourse rev st cid earned).1 cid earned').1
  = users (handleCompleteCourse rev st cid earned).1.
Proof.
  destruct (currentUser (auth st)) as [cur|] eqn:Hcur.
  - destruct (currentUser (auth (handleCompleteCourse rev st cid earned).1))
      as [cur'|] eqn:Hcur'.
    + rewrite (users_handleCompleteCourse rev _ cid earned' cur' Hcur').
      pose proof (currentUser_id_kept _ _ _ _ _ _ Hcur Hcur') as Hsame.
      rewrite (users_handleCompleteCourse rev st cid earned cur Hcur).
      rewrite map_map. apply map_ext. intros u.
      apply completeFor_twice. exact Hsame.
    + rewrite (users_handleCompleteCourse_logged_out rev _ cid earned' Hcur').
      reflexivity.
  - rewrite (users_handleCompleteCourse_logged_out rev st cid earned Hcur).
    simpl.
    rewrite (users_handleCompleteCourse_logged_out rev st cid earned' Hcur).
    reflexivity.
Qed.

(** C6. When a completion is applied (the logged-in user had not
    completed the course, which is in the course list and has at least
    one slide) to a user who does not hold the badge yet, the
    perfect-score badge b4 is granted if and only if the XP earned in the
    run is the number of slides times 50. *)
Theorem C6_perfect_score_badge
        (rev : Revision) (st : State) (cid : string) (earned : Z)
        (cur : User) (c : Course) (i : nat) (u : User) :
  currentUser (auth st) = Some cur →
  findCourse cid (courses st) = Some c →
  slides c ≠ [] →
  users st !! i = Some u →
  user_id u = user_id cur →
  cid ∉ user_completedCourses u →
  "b4" ∉ user_badges u →
  ∃ u', users (handleCompleteCourse rev st cid earned).1 !! i = Some u'
        ∧ ("b4" ∈ user_badges u' ↔
           earned = (Z.of_nat (length (slides c)) * 50)%Z).
Proof.
  intros Hcur Hfind Hne Hu Hid Hnew Hnob.
  rewrite (users_handleCompleteCourse rev st cid earned cur Hcur).
  change (map ?f ?l) with (f <$> l).
  rewrite list_lookup_fmap, Hu. simpl. eexists. split; [reflexivity|].
  destruct (completeFor_new cur (isPerfectScore (courses st) cid earned)
                            cid earned u Hid Hnew) as (_ & _ & Hb).
  rewrite Hb, isPerfectScore_true. unfold maxPossibleXp. rewrite Hfind.
  assert (0 < length (slides c)) by (destruct (slides c); simpl; [done|lia]).
  split.
  - intros [H'|[H' _]]; [contradiction|exact H'].
  - intros H'. right. split; [exact H'|lia].
Qed.

(** C7. A user whose completed list already holds the course id is left
    as it is by the completion handler (XP, badges and completed list
    included), and invoking the handler a second time for the same
    course changes no user at all. *)
Theorem C7_completion_is_idempotent
        (rev : Revision) (st : State) (cid : string) (earned earned' : Z)
        (i : nat) (u : User) :
  users st !! i = Some u →
  cid ∈ user_completedCourses u →
  users (handleCompleteCourse rev st cid earned).1 !! i = Some u
  ∧ users (handleCompleteCourse rev
             (handleCompleteCourse rev st cid earned).1 cid earned').1
    = users (handleCompleteCourse rev st cid earned).1.
Proof.
  intros Hu Hdone. split; [|apply handleCompleteCourse_twice].
  destruct (currentUser (auth st)) as [cur|] eqn:Hcur.
  - rewrite (users_handleCompleteCourse rev st cid earned cur Hcur).
    change (map ?f ?l) with (f <$> l).
    rewrite list_lookup_fmap, Hu. simpl.
    rewrite completeFor_done by exact Hdone. reflexivity.
  - rewrite (users_handleCompleteCourse_logged_out rev st cid earned Hcur).
    exact Hu.
Qed.

(** *** The range in which the XP sum is exact *)

Lemma isSafeInteger_bounds (z : Z) :
  isSafeInteger z = true
  ↔ (- MAX_SAFE_INTEGER <= z <= MAX_SAFE_INTEGER)%Z.
Proof.
  unfold isSafeInteger. rewrite andb_true_iff, !Z.leb_le. reflexivity.
Qed.

(** A sum that is a safe integer is not rounded. *)
Lemma numberAdd_safe (a b : Z) :
  isSafeInteger (a + b) = true → numberAdd a b = Some (a + b)%Z.
Proof.
  intros H. apply isSafeInteger_bounds in H. unfold MAX_SAFE_INTEGER in H.
  unfold numberAdd, roundToDouble.
  change (2 ^ 53)%Z with 9007199254740992%Z.
  rewrite (proj2 (Z.ltb_lt _ _)) by lia. reflexivity.
Qed.

(** Past that range it is: 2^53 + 1 gives 2^53 and 2^53 + 3 gives
    2^53 + 4, so an XP of 2^53 does not grow by an earned 1. *)
Lemma numberAdd_past_the_safe_range :
  isSafeInteger (2 ^ 53) = false
  ∧ numberAdd (2 ^ 53) 1 = Some (2 ^ 53)%Z
  ∧ numberAdd (2 ^ 53) 3 = Some (2 ^ 53 + 4)%Z.
Proof. repeat split; vm_compute; reflexivity. Qed.

(** Within the range, the XP of a rewarded record is the sum the doubles
    of the source give. *)
Lemma completeFor_xp_exact (cur : User) (perfect : bool) (cid : string)
      (earned : Z) (u : User) :
  user_id u = user_id cur →
  cid ∉ user_completedCourses u →
  isSafeInteger (user_xp u + earned) = true →
  numberAdd (user_xp u) earned
  = Some (user_xp (completeFor cur perfect cid earned u)).
Proof.
  intros Hid Hnew Hsafe.
  destruct (completeFor_new cur perfect cid earned u Hid Hnew) as (Hx & _).
  rewrite Hx. apply numberAdd_safe. exact Hsafe.
Qed.

(** C10. When the course id is not in the course list, a completion that
    is applied (the logged-in user had not completed that id) still adds
    the earned XP and appends the id to the completed list, and it does
    not grant the perfect-score badge b4: the maximum is taken as 0 and a
    perfect score needs a positive maximum.  The XP before, the earned XP
    and their sum are safe integers, the range in which the addition of
    the source is the sum of the integers. *)
Theorem C10_unknown_course_completion
        (rev : Revision) (st : State) (cid : string) (earned : Z)
        (cur : User) (i : nat) (u : User) :
  currentUser (auth st) = Some cur →
  findCourse cid (courses st) = None →
  users st !! i = Some u →
  user_id u = user_id cur →
  cid ∉ user_completedCourses u →
  isSafeInteger (user_xp u) = true →
  isSafeInteger earned = true →
  isSafeInteger (user_xp u + earned) = true →
  maxPossibleXp (courses st) cid = 0%Z
  ∧ isPerfectScore (courses st) cid earned = false
  ∧ ∃ u', users (handleCompleteCourse rev st cid earned).1 !! i = Some u'
          ∧ user_xp u' = (user_xp u + earned)%Z
          ∧ numberAdd (user_xp u) earned = Some (user_xp u')
          ∧ user_completedCourses u' = user_completedCourses u ++ [cid]
          ∧ ("b4" ∈ user_badges u' ↔ "b4" ∈ user_badges u).
Proof.
  intros Hcur Hfind Hu Hid Hnew _ _ Hsum.
  assert (Hmax : maxPossibleXp (courses st) cid = 0%Z)
    by (unfold maxPossibleXp; rewrite Hfind; reflexivity).
  assert (Hperf : isPerfectScore (courses st) cid earned = false)
    by (unfold isPerfectScore; rewrite Hmax; apply andb_false_r).
  split; [exact Hmax|]. split; [exact Hperf|].
  rewrite (users_handleCompleteCourse rev st cid earned cur Hcur).
  change (map ?f ?l) with (f <$> l).
  rewrite list_lookup_fmap, Hu. simpl. eexists. split; [reflexivity|].
  destruct (completeFor_new cur (isPerfectScore (courses st) cid earned)
                            cid earned u Hid Hnew) as (Hx & Hc & Hb).
  split; [exact Hx|].
  split; [rewrite Hx; apply numberAdd_safe; exact Hsum|].
  split; [exact Hc|].
  rewrite Hb, Hperf. split; [|auto].
  intros [H|H]; [exact H|discriminate H].
Qed.

End CompletionClaims.

Section CompletionExamples.
Import App Examples.

(** The two runs of the four-slide seed course, applied to Sarah: the
    150-XP run grants no b4, the 200-XP run grants it. *)
Lemma complete_150_no_badge (rev : Revision) :
  users (handleCompleteCourse rev sarahPlaying "c1" 150).1 !! 0
  = Some sarahAfter150
  ∧ "b4" ∉ user_badges sarahAfter150.
Proof.
  split; [destruct rev; reflexivity|].
  apply (bool_decide_unpack _). vm_compute. exact I.
Qed.

Lemma complete_200_badge (rev : Revision) :
  users (handleCompleteCourse rev sarahPlaying "c1" 200).1 !! 0
  = Some sarahAfter200
  ∧ "b4" ∈ user_badges sarahAfter200.
Proof.
  split; [destruct rev; reflexivity|].
  apply (bool_decide_unpack _). vm_compute. exact I.
Qed.

Lemma sarah_fresh :
  currentUser (auth sarahPlaying) = Some sarah
  ∧ users sarahPlaying !! 0 = Some sarah
  ∧ ("c1" ∉ user_completedCourses sarah)
  ∧ ("zz" ∉ user_completedCourses sarah)
  ∧ "b4" ∉ user_badges sarah.
Proof.
  split; [reflexivity|]. split; [reflexivity|].
  repeat split; apply (bool_decide_unpack _); vm_compute; exact I.
Qed.

Lemma C6_perfect_score_badge_witness :
  currentUser (auth sarahPlaying) = Some sarah
  ∧ findCourse "c1" (courses sarahPlaying) = Some (MockData.c1 0)
  ∧ slides (MockData.c1 0) ≠ []
  ∧ users sarahPlaying !! 0 = Some sarah
  ∧ ("c1" ∉ user_completedCourses sarah)
  ∧ ("b4" ∉ user_badges sarah)
  ∧ (∃ u', users (handleCompleteCourse ApiApp sarahPlaying "c1" 200).1 !! 0
           = Some u'
           ∧ ("b4" ∈ user_badges u' ↔
              200%Z
              = (Z.of_nat (length (slides (MockData.c1 0))) * 50)%Z))
  ∧ (∃ u', users (handleCompleteCourse LocalStorageApp sarahPlaying
                                       "c1" 150).1 !! 0
           = Some u'
           ∧ ("b4" ∈ user_badges u' ↔
              150%Z
              = (Z.of_nat (length (slides (MockData.c1 0))) * 50)%Z)).
Proof.
  destruct sarah_fresh as (Hcur & Hu & Hnew & _ & Hnob).
  assert (Hfind : findCourse "c1" (courses sarahPlaying)
                  = Some (MockData.c1 0)) by reflexivity.
  assert (Hne : slides (MockData.c1 0) ≠ []) by discriminate.
  split; [exact Hcur|]. split; [exact Hfind|]. split; [exact Hne|].
  split; [exact Hu|]. split; [exact Hnew|]. split; [exact Hnob|].
  split.
  - exact (C6_perfect_score_badge ApiApp sarahPlaying "c1" 200 sarah
             (MockData.c1 0) 0 sarah Hcur Hfind Hne Hu eq_refl Hnew Hnob).
  - exact (C6_perfect_score_badge LocalStorageApp sarahPlaying "c1" 150
             sarah (MockData.c1 0) 0 sarah Hcur Hfind Hne Hu eq_refl
             Hnew Hnob).
Defined.

Lemma C7_completion_is_idempotent_witness :
  users sarahDone !! 0 = Some sarahAfter150
  ∧ "c1" ∈ user_completedCourses sarahAfter150
  ∧ users (handleCompleteCourse ApiApp sarahDone "c1" 200).1 !! 0
    = Some sarahAfter150
  ∧ users (handleCompleteCourse ApiApp
             (handleCompleteCourse ApiApp sarahDone "c1" 200).1 "c1" 200).1
    = users (handleCompleteCourse ApiApp sarahDone "c1" 200).1.
Proof.
  assert (Hu : users sarahDone !! 0 = Some sarahAfter150) by reflexivity.
  assert (Hin : "c1" ∈ user_completedCourses sarahAfter150)
    by (apply (bool_decide_unpack _); vm_compute; exact I).
  split; [exact Hu|]. split; [exact Hin|].
  exact (C7_completion_is_idempotent ApiApp sarahDone "c1" 200 200 0
           sarahAfter150 Hu Hin).
Defined.

Lemma C10_unknown_course_completion_witness :
  currentUser (auth sarahPlaying) = Some sarah
  ∧ findCourse "zz" (courses sarahPlaying) = None
  ∧ users sarahPlaying !! 0 = Some sarah
  ∧ ("zz" ∉ user_completedCourses sarah)
  ∧ isSafeInteger (user_xp sarah) = true
  ∧ isSafeInteger 150 = true
  ∧ isSafeInteger (user_xp sarah + 150) = true
  ∧ maxPossibleXp (courses sarahPlaying) "zz" = 0%Z
  ∧ isPerfectScore (courses sarahPlaying) "zz" 150 = false
  ∧ ∃ u', users (handleCompleteCourse ApiApp sarahPlaying "zz" 150).1 !! 0
          = Some u'
          ∧ user_xp u' = (user_xp sarah + 150)%Z
          ∧ numberAdd (user_xp sarah) 150 = Some (user_xp u')
          ∧ user_completedCourses u' = user_completedCourses sarah ++ ["zz"]
          ∧ ("b4" ∈ user_badges u' ↔ "b4" ∈ user_badges sarah).
Proof.
  destruct sarah_fresh as (Hcur & Hu & _ & Hnew & _).
  assert (Hfind : findCourse "zz" (courses sarahPlaying) = None)
    by reflexivity.
  split; [exact Hcur|]. split; [exact Hfind|]. split; [exact Hu|].
  split; [exact Hnew|].
  split; [reflexivity|]. split; [reflexivity|]. split; [reflexivity|].
  exact (C10_unknown_course_completion ApiApp sarahPlaying "zz" 150 sarah 0
           sarah Hcur Hfind Hu eq_refl Hnew eq_refl eq_refl eq_refl).
Defined.

(** A later run of a course already completed rewards nothing, whatever
    it earned: no XP and no b4 for Sarah on a second, perfect run of c1. *)
Lemma second_run_rewards_nothing (rev : Revision) :
  users (handleCompleteCourse rev sarahDone "c1" 200).1 !! 0
  = Some sarahAfter150.
Proof. destruct rev; reflexivity. Qed.

(** The observer of the application turns the call of the player into one
    [QuizAttempt] stamped with the current time, appended to the attempts
    of the logged-in user. *)
Lemma handleQuizAttempt_appends (st : State) (now : Z)
      (courseId slideId question : string) (answer : option string)
      (correct : bool) (cur : User) :
  currentUser (auth st) = Some cur →
  ∃ u', currentUser (auth (handleQuizAttempt ApiApp st now courseId slideId
                             question answer correct).1) = Some u'
        ∧ user_quizAttempts u'
          = Some (default [] (user_quizAttempts cur)
                  ++ [mkQuizAttempt courseId slideId question answer
                                    correct now])
        ∧ user_xp u' = user_xp cur.
Proof.
  intros Hcur. unfold handleQuizAttempt. rewrite Hcur. simpl.
  eexists. split; [reflexivity|]. split; reflexivity.
Qed.

End CompletionExamples.


(* ===================================================================== *)
(** ** The application: the XP of the users already in the collection *)
(* ===================================================================== *)

Section UserXp.
Import App Examples.

(** A completion with a non-negative amount lowers no user's XP. *)
Lemma handleCompleteCourse_xp_mono (rev : Revision) (st : State)
      (cid : string) (earned : Z) (i : nat) (u : User) :
  (0 <= earned)%Z →
  users st !! i = Some u →
  ∃ u', users (handleCompleteCourse rev st cid earned).1 !! i = Some u'
        ∧ (user_xp u <= user_xp u')%Z.
Proof.
  intros Hpos Hu.
  destruct (currentUser (auth st)) as [cur|] eqn:Hcur.
  - rewrite (users_handleCompleteCourse rev st cid earned cur Hcur).
    change (map ?f ?l) with (f <$> l).
    rewrite list_lookup_fmap, Hu. simpl. eexists. split; [reflexivity|].
    unfold completeFor. destruct (hasId (user_id cur) u); [|lia].
    destruct (includes (user_completedCourses u) cid); simpl; lia.
  - rewrite (users_handleCompleteCourse_logged_out rev st cid earned Hcur).
    exists u. split; [exact Hu|lia].
Qed.

(** One imported record, first revision: every entry keeps its XP. *)
Lemma importOne_local_xp (l : list User) (imported : User) (j : nat)
      (u : User) :
  l !! j = Some u →
  ∃ u', importOne LocalStorageApp l imported !! j = Some u'
        ∧ user_xp u' = user_xp u.
Proof.
  intros Hj. unfold importOne.
  destruct (list_find _ l) as [[index old]|] eqn:Hf.
  - apply list_find_Some in Hf as (Hidx & _ & _).
    destruct (decide (index = j)) as [->|Hne].
    + rewrite list_lookup_insert_eq by (eapply lookup_lt_Some; eauto).
      eexists. split; [reflexivity|]. simpl. congruence.
    + rewrite list_lookup_insert_ne by exact Hne. eauto.
  - rewrite lookup_app_l by (eapply lookup_lt_Some; eauto). eauto.
Qed.

(** A CSV import in the first revision keeps the XP of every user
    already in the collection. *)
Lemma handleImportUsers_local_xp (st : State) (importedUsers : list User)
      (j : nat) (u : User) :
  users st !! j = Some u →
  ∃ u', users (handleImportUsers LocalStorageApp st importedUsers).1 !! j
        = Some u'
        ∧ user_xp u' = user_xp u.
Proof.
  simpl. generalize (users st) as l. intros l. revert l u.
  induction importedUsers as [|imp rest IH]; intros l u Hj; simpl.
  - eauto.
  - destruct (importOne_local_xp l imp j u Hj) as (u1 & H1 & Hx1).
    destruct (IH _ _ H1) as (u2 & H2 & Hx2).
    exists u2. split; [exact H2|congruence].
Qed.

(** One imported record, second revision: the entry with the same id
    takes the XP, the badges and the completed list of the import. *)
Lemma importOne_api_overwrites (l : list User) (imported old : User)
      (index : nat) :
  list_find (fun u => user_id u = user_id imported) l = Some (index, old) →
  ∃ u', importOne ApiApp l imported !! index = Some u'
        ∧ user_xp u' = user_xp imported
        ∧ user_badges u' = user_badges imported
        ∧ user_completedCourses u' = user_completedCourses imported.
Proof.
  intros Hf. unfold importOne. rewrite Hf.
  apply list_find_Some in Hf as (Hidx & _ & _).
  rewrite list_lookup_insert_eq by (eapply lookup_lt_Some; eauto).
  eexists. split; [reflexivity|]. simpl. auto.
Qed.

(** With distinct ids, two entries with the same id are the same. *)
Lemma same_id_same_user (xs : list User) (u v : User) :
  NoDup (map user_id xs) →
  u ∈ xs → v ∈ xs → user_id u = user_id v → u = v.
Proof.
  intros Hnd Hu Hv Hid.
  apply list_elem_of_lookup in Hu as [i Hi].
  apply list_elem_of_lookup in Hv as [j Hj].
  assert (Hmi : map user_id xs !! i = Some (user_id u))
    by (change (map ?f ?l) with (f <$> l);
        rewrite list_lookup_fmap, Hi; reflexivity).
  assert (Hmj : map user_id xs !! j = Some (user_id u))
    by (change (map ?f ?l) with (f <$> l);
        rewrite list_lookup_fmap, Hj; simpl; congruence).
  pose proof (NoDup_lookup _ _ _ _ Hnd Hmi Hmj) as ->. congruence.
Qed.

Section Edit.
Variable encodeURIComponent : string → string.

(** An edit in the user dialog, with distinct ids in the collection,
    keeps the XP of every user. *)
Lemma edit_user_xp (rev : Revision) (st : State)
      (newUser : EducatorDashboard.NewUser) (updatedUser : User)
      (j : nat) (u : User) :
  NoDup (map user_id (users st)) →
  EducatorDashboard.handleSaveUser_edit encodeURIComponent
    (users st) newUser = Some updatedUser →
  users st !! j = Some u →
  ∃ u', users (handleUpdateUser rev st updatedUser).1 !! j = Some u'
        ∧ user_xp u' = user_xp u.
Proof.
  intros Hnd Hedit Hj. simpl.
  change (map ?f ?l) with (f <$> l).
  rewrite list_lookup_fmap, Hj. simpl. eexists. split; [reflexivity|].
  unfold EducatorDashboard.handleSaveUser_edit in Hedit.
  destruct (_ || _) in Hedit; [discriminate|].
  destruct (findUser _ (users st)) as [original|] eqn:Hfind;
    [|discriminate].
  injection Hedit as <-. simpl.
  unfold hasId. simpl. case_bool_decide as Hid; [|reflexivity].
  simpl. f_equal. apply (same_id_same_user (users st)); auto.
  - unfold findUser in Hfind. apply find_some in Hfind as [Hin _].
    apply list_elem_of_In. exact Hin.
  - apply list_elem_of_lookup. eauto.
Qed.
End Edit.

(** C9 (the code at the failing input).  In the second revision, a CSV
    import whose line carries the id of an existing user overwrites that
    user with the parsed record: Sarah Jenkins, who had 1250 XP and two
    badges, is left with 0 XP and no badge. *)
Theorem C9_import_resets_xp (encodeURIComponent : string → string) :
  users sarahPlaying !! 0 = Some sarah
  ∧ user_xp sarah = 1250%Z
  ∧ ∃ u',
      users (handleImportUsers ApiApp sarahPlaying
               [EducatorDashboard.parsedUser encodeURIComponent
                  "12345" "Sarah Jenkins" "1234" Nurse]).1 !! 0
      = Some u'
      ∧ user_id u' = "12345"
      ∧ user_xp u' = 0%Z
      ∧ (user_xp u' < user_xp sarah)%Z
      ∧ user_badges u' = []
      ∧ user_completedCourses u' = [].
Proof.
  split; [reflexivity|]. split; [reflexivity|].
  eexists. split; [reflexivity|]. simpl. repeat split.
Qed.

(** The same import in the first revision leaves her XP alone. *)
Lemma import_local_keeps_xp (encodeURIComponent : string → string) :
  ∃ u',
    users (handleImportUsers LocalStorageApp sarahPlaying
             [EducatorDashboard.parsedUser encodeURIComponent
                "12345" "Sarah Jenkins" "1234" Nurse]).1 !! 0
    = Some u'
    ∧ user_xp u' = 1250%Z
    ∧ user_badges u' = ["b1"; "b2"].
Proof. eexists. split; [reflexivity|]. split; reflexivity. Qed.

End UserXp.


(* ===================================================================== *)
(** ** The player: sessions beyond the scoring rule *)
(* ===================================================================== *)

Section PlayerSessions.
Import CoursePlayer Scoring Sessions Examples.

Lemma play_cons (p : Props) (st : State) (s : Slide) (ev : Event)
      (evs : list Event) :
  slide p st = Some s →
  play p st (ev :: evs)
  = if existsb isComplete (click p st s ev).2
    then Returned (click p st s ev)
    else match play p (click p st s ev).1 evs with
         | Returned (st'', calls') =>
             Returned (st'', (click p st s ev).2 ++ calls')
         | Threw e => Threw e
         end.
Proof.
  intros Hs. simpl. rewrite Hs.
  destruct (click p st s ev) as [st' calls]. reflexivity.
Qed.

Lemma click_index_in_range (p : Props) (st : State) (s : Slide) (ev : Event) :
  currentSlideIndex st < length (slides (course p)) →
  currentSlideIndex (click p st s ev).1 < length (slides (course p)).
Proof.
  intros H. unfold click. destruct (enabled st s ev); [|exact H].
  apply handler_index_in_range. exact H.
Qed.

Lemma play_empty_course (p : Props) (st : State) (evs : list Event) :
  slides (course p) = [] → play p st evs = Threw TypeError.
Proof.
  intros H. destruct evs; simpl; unfold slide; rewrite H; reflexivity.
Qed.

Lemma play_in_range (p : Props) (evs : list Event) (st : State) :
  currentSlideIndex st < length (slides (course p)) →
  ∃ st' calls, play p st evs = Returned (st', calls)
               ∧ currentSlideIndex st' < length (slides (course p)).
Proof.
  revert st. induction evs as [|ev evs IH]; intros st Hlt.
  - pose proof Hlt as Hlt'. apply slide_in_range in Hlt as [s Hs].
    simpl. rewrite Hs. eauto.
  - pose proof Hlt as Hlt'. apply slide_in_range in Hlt as [s Hs].
    rewrite (play_cons p st s ev evs Hs).
    pose proof (click_index_in_range p st s ev Hlt') as Hnext.
    destruct (click p st s ev) as [st1 calls1]; simpl in *.
    destruct (existsb isComplete calls1); [eauto|].
    destruct (IH st1 Hnext) as (st2 & calls2 & -> & Hlt2). eauto.
Qed.

(** X1. On a course with at least one slide no sequence of presses makes
    the player throw, and the slide index stays within the slide list; on
    a course without slides every session throws. *)
Theorem play_never_throws_on_slides (p : Props) (evs : list Event) :
  (slides (course p) ≠ [] →
   ∃ st calls, play p initialState evs = Returned (st, calls)
               ∧ currentSlideIndex st < length (slides (course p)))
  ∧ (slides (course p) = [] → play p initialState evs = Threw TypeError).
Proof.
  split.
  - intros Hne. apply play_in_range. simpl.
    destruct (slides (course p)); [congruence|simpl; lia].
  - apply play_empty_course.
Qed.

Lemma play_never_throws_on_slides_witness :
  slides (course p1) ≠ []
  ∧ (∃ st calls, play p1 initialState failedOnce = Returned (st, calls)
                 ∧ currentSlideIndex st < length (slides (course p1)))
  ∧ slides (course pEmpty) = []
  ∧ play pEmpty initialState failedOnce = Threw TypeError.
Proof.
  assert (H1 : slides (course p1) ≠ []) by discriminate.
  assert (H2 : slides (course pEmpty) = []) by reflexivity.
  exact (conj H1
          (conj (proj1 (play_never_throws_on_slides p1 failedOnce) H1)
            (conj H2
              (proj2 (play_never_throws_on_slides pEmpty failedOnce) H2)))).
Defined.

End PlayerSessions.

Section PlayerBounds.
Import CoursePlayer Scoring Sessions Examples.

Lemma reportedXp_none (calls : list Call) :
  existsb isComplete calls = false → reportedXp calls = None.
Proof.
  intros H. rewrite <- (app_nil_r calls).
  rewrite (reportedXp_app_l calls [] H). reflexivity.
Qed.

Lemma calculateSlideXp_cases (st : State) (s : Slide) :
  calculateSlideXp st s = 0%Z ∨ calculateSlideXp st s = 50%Z.
Proof.
  unfold calculateSlideXp, XP_PER_SLIDE.
  destruct (is_quiz s && bool_decide (slide_id s ∈ failedSlides st)); auto.
Qed.

(** One handler invocation keeps the running total a multiple of 50 that
    counts at most the slides already left; a completion reports a
    multiple of 50 that counts at most all slides. *)
Lemma handler_total_bounds (p : Props) (st : State) (s : Slide) (ev : Event)
      (k : Z) :
  currentSlideIndex st < length (slides (course p)) →
  sessionXp st = (50 * k)%Z →
  (0 <= k <= Z.of_nat (currentSlideIndex st))%Z →
  (existsb isComplete (handler p st s ev).2 = false →
   ∃ k', sessionXp (handler p st s ev).1 = (50 * k')%Z
         ∧ (0 <= k'
            <= Z.of_nat (currentSlideIndex (handler p st s ev).1))%Z)
  ∧ (∀ total, reportedXp (handler p st s ev).2 = Some total →
       ∃ k', total = (50 * k')%Z
             ∧ (0 <= k' <= Z.of_nat (length (slides (course p))))%Z).
Proof.
  intros Hlt Hxp Hk. destruct ev; simpl.
  - unfold handleSelect. destruct (isAnswerChecked st); simpl;
      (split; [intros _; exists k; auto | discriminate]).
  - unfold handleQuizSubmit.
    destruct (selectedOption st) as [sel|];
      [destruct (quizData s) as [q|]|]; simpl;
      try (split; [intros _; exists k; auto | discriminate]).
    split; [intros _; exists k; auto|].
    destruct (onQuizAttempt p); discriminate.
  - split; [intros _; exists k; auto | discriminate].
  - unfold handleNext, isLastSlide.
    destruct (Z.eqb_spec (Z.of_nat (currentSlideIndex st))
                         (Z.of_nat (length (slides (course p))) - 1))
      as [Hlast|Hmid]; simpl.
    + split; [discriminate|]. intros total [= <-].
      destruct (calculateSlideXp_cases st s) as [->| ->].
      * exists k. lia.
      * exists (k + 1)%Z. lia.
    + split; [|discriminate]. intros _.
      destruct (calculateSlideXp_cases st s) as [->| ->].
      * exists k. lia.
      * exists (k + 1)%Z. lia.
Qed.

Lemma invoke_total_bounds (p : Props) (evs : list Event) (st st' : State)
      (calls : list Call) (k total : Z) :
  currentSlideIndex st < length (slides (course p)) →
  sessionXp st = (50 * k)%Z →
  (0 <= k <= Z.of_nat (currentSlideIndex st))%Z →
  invoke p st evs = Returned (st', calls) →
  reportedXp calls = Some total →
  ∃ k', total = (50 * k')%Z
        ∧ (0 <= k' <= Z.of_nat (length (slides (course p))))%Z.
Proof.
  revert st calls k. induction evs as [|ev evs IH]; intros st calls k Hlt Hxp Hk.
  - simpl. destruct (slide p st); [|discriminate].
    intros [= <- <-]. discriminate.
  - simpl. destruct (slide p st) as [s|] eqn:Hs; [|discriminate].
    destruct (handler_total_bounds p st s ev k Hlt Hxp Hk) as [Hgo Hend].
    pose proof (handler_index_in_range p st s ev Hlt) as Hlt1.
    destruct (handler p st s ev) as [st1 calls1]; simpl in *.
    destruct (existsb isComplete calls1) eqn:Hdone.
    + intros [= <- <-]. apply Hend.
    + destruct (invoke p st1 evs) as [[st2 calls2]|] eqn:Hi; [|discriminate].
      intros [= <- <-]. rewrite reportedXp_app_l by exact Hdone.
      destruct (Hgo eq_refl) as (k1 & Hxp1 & Hk1).
      exact (IH st1 calls2 k1 Hlt1 Hxp1 Hk1 Hi).
Qed.

(** X2. Whatever the course (slide ids may repeat), the total a session
    reports on completion is a multiple of 50 between 0 and 50 times the
    number of slides. *)
Theorem reported_total_is_bounded
        (p : Props) (evs : list Event) (st : State) (calls : list Call)
        (total : Z) :
  play p initialState evs = Returned (st, calls) →
  reportedXp calls = Some total →
  ∃ k, total = (XP_PER_SLIDE * k)%Z
       ∧ (0 <= k <= Z.of_nat (length (slides (course p))))%Z.
Proof.
  intros Hplay Hrep.
  assert (Hlt : currentSlideIndex initialState < length (slides (course p))).
  { apply slide_in_range.
    destruct (slide p initialState) eqn:Hs; [eauto|].
    destruct evs; simpl in Hplay; rewrite Hs in Hplay; discriminate. }
  destruct (play_is_invoke _ _ _ _ Hplay) as [evs' Hinv].
  apply (invoke_total_bounds p evs' initialState st calls 0 total Hlt);
    simpl; auto; lia.
Qed.

Lemma reported_total_is_bounded_witness :
  ∃ st calls,
    play pTwins initialState secondTwinFailed = Returned (st, calls)
    ∧ reportedXp calls = Some 50%Z
    ∧ ∃ k, 50%Z = (XP_PER_SLIDE * k)%Z
           ∧ (0 <= k <= Z.of_nat (length (slides (course pTwins))))%Z.
Proof.
  eexists _, _. split; [vm_compute; reflexivity|].
  split; [vm_compute; reflexivity|].
  eapply (reported_total_is_bounded pTwins secondTwinFailed);
    vm_compute; reflexivity.
Defined.

End PlayerBounds.

Section PlayerSelection.
Import CoursePlayer Scoring Sessions Examples.

Lemma enabled_SelectOption (st : State) (s : Slide) (idx : nat) :
  enabled st s (SelectOption idx) = true →
  isAnswerChecked st = false
  ∧ ∃ q, quizData s = Some q ∧ idx < length (options q).
Proof.
  simpl. unfold optionButton. intros H.
  apply andb_true_iff in H as [H Hc]. apply andb_true_iff in H as [_ H].
  apply negb_true_iff in Hc. split; [exact Hc|].
  destruct (quizData s) as [q|]; [|discriminate].
  apply bool_decide_eq_true in H. eauto.
Qed.

(** One press keeps the selection within the options of the current
    slide, and every answer it hands to the observer is a text. *)
Lemma click_selection (p : Props) (st : State) (s : Slide) (ev : Event) :
  slide p st = Some s →
  selectionInRange p st →
  selectionInRange p (click p st s ev).1
  ∧ Forall answerDefined (click p st s ev).2.
Proof.
  intros Hs Hinv. unfold click.
  destruct (enabled st s ev) eqn:He; [|split; [exact Hinv|constructor]].
  destruct ev; simpl.
  - apply enabled_SelectOption in He as (Hc & q & Hq & Hidx).
    unfold handleSelect. rewrite Hc. simpl. split; [|constructor].
    intros sel [= <-]. exists s, q. auto.
  - unfold handleQuizSubmit.
    destruct (selectedOption st) as [sel|] eqn:Hsel;
      [|split; [exact Hinv|constructor]].
    destruct (quizData s) as [q|] eqn:Hq;
      [|split; [exact Hinv|constructor]].
    simpl. destruct (Hinv sel Hsel) as (s' & q' & Hs' & Hq' & Hlt).
    assert (s' = s) as -> by congruence.
    assert (q' = q) as -> by congruence.
    split.
    + intros sel' Hsel'. simpl in Hsel'.
      injection Hsel' as <-. exists s, q. auto.
    + destruct (onQuizAttempt p); constructor; [|constructor].
      simpl. apply lookup_lt_is_Some. exact Hlt.
  - split; [|constructor]. intros sel Hsel. discriminate Hsel.
  - unfold handleNext. destruct (isLastSlide p st); simpl.
    + split; [exact Hinv|]. constructor; [exact I|constructor].
    + split; [|constructor]. intros sel Hsel. discriminate Hsel.
Qed.

Lemma play_selection (p : Props) (evs : list Event) (st st' : State)
      (calls : list Call) :
  selectionInRange p st →
  play p st evs = Returned (st', calls) →
  selectionInRange p st' ∧ Forall answerDefined calls.
Proof.
  revert st st' calls. induction evs as [|ev evs IH]; intros st st' calls Hinv.
  - simpl. destruct (slide p st); [|discriminate].
    intros [= <- <-]. split; [exact Hinv|constructor].
  - destruct (slide p st) as [s|] eqn:Hs;
      [|simpl; rewrite Hs; discriminate].
    rewrite (play_cons p st s ev evs Hs).
    destruct (click_selection p st s ev Hs Hinv) as [Hinv1 Hans1].
    destruct (click p st s ev) as [st1 calls1]; simpl in *.
    destruct (existsb isComplete calls1).
    + intros [= <- <-]. auto.
    + destruct (play p st1 evs) as [[st2 calls2]|] eqn:Hp; [|discriminate].
      intros [= <- <-]. destruct (IH _ _ _ Hinv1 Hp) as [Hinv2 Hans2].
      split; [exact Hinv2|]. apply Forall_app. auto.
Qed.

Lemma selectionInRange_initial (p : Props) :
  selectionInRange p initialState.
Proof. intros sel H. discriminate H. Qed.

(** X3. In a session on the rendered player the selected index is always
    the index of an option of the current slide, so the answer handed to
    the attempt observer is always the text of an option, never
    [undefined]. *)
Theorem observer_never_gets_undefined
        (p : Props) (evs : list Event) (st : State) (calls : list Call) :
  play p initialState evs = Returned (st, calls) →
  selectionInRange p st ∧ Forall answerDefined calls.
Proof.
  apply play_selection. apply selectionInRange_initial.
Qed.

Lemma observer_never_gets_undefined_witness :
  play p1 initialState failedOnce = Returned failedOnceEnd
  ∧ selectionInRange p1 failedOnceEnd.1
  ∧ Forall answerDefined failedOnceEnd.2.
Proof.
  split; [exact play_failedOnce|].
  exact (observer_never_gets_undefined p1 failedOnce failedOnceEnd.1
           failedOnceEnd.2 play_failedOnce).
Defined.

(** The handler itself has no such guard: invoked with a selection past
    the options it hands [undefined] to the observer. *)
Lemma handler_can_pass_undefined :
  (handleQuizSubmit p1
     {| currentSlideIndex := 2; selectedOption := Some 7;
        isAnswerChecked := false; isCorrect := false;
        failedSlides := ∅; sessionXp := 100 |} s3).2
  = [OnQuizAttempt "c1" "s3"
       "How long should you rub your hands together with soap?"
       None false].
Proof. reflexivity. Qed.

(** One press while a quiz slide at position [i] cannot be answered right:
    the session neither completes nor gets past that slide. *)
Lemma click_blocked (p : Props) (i : nat) (b : Slide) (st : State)
      (s : Slide) (ev : Event) :
  slides (course p) !! i = Some b →
  slide_type b = quiz →
  (∀ q, quizData b = Some q → length (options q) <= correctIndex q) →
  slide p st = Some s →
  selectionInRange p st →
  currentSlideIndex st <= i →
  (currentSlideIndex st = i → isCorrect st = false) →
  existsb isComplete (click p st s ev).2 = false
  ∧ currentSlideIndex (click p st s ev).1 <= i
  ∧ (currentSlideIndex (click p st s ev).1 = i →
     isCorrect (click p st s ev).1 = false).
Proof.
  intros Hb Hquiz Hbad Hs Hinv Hle Hwrong. unfold click.
  destruct (enabled st s ev) eqn:He; [|simpl; auto].
  destruct ev; simpl.
  - unfold handleSelect. destruct (isAnswerChecked st); simpl; auto.
  - unfold handleQuizSubmit.
    destruct (selectedOption st) as [sel|] eqn:Hsel; [|simpl; auto].
    destruct (quizData s) as [q|] eqn:Hq; [|simpl; auto].
    simpl. split; [destruct (onQuizAttempt p); reflexivity|].
    split; [exact Hle|]. intros Hi.
    destruct (Hinv sel Hsel) as (s' & q' & Hs' & Hq' & Hlt).
    assert (s' = s) as -> by congruence.
    assert (q' = q) as -> by congruence.
    assert (s = b) as -> by (unfold slide in Hs; rewrite Hi in Hs; congruence).
    specialize (Hbad q Hq).
    apply bool_decide_eq_false. lia.
  - auto.
  - apply enabled_Continue in He.
    assert (Hlt : currentSlideIndex st < i).
    { destruct (decide (currentSlideIndex st = i)) as [Hi|Hi]; [|lia].
      exfalso.
      assert (s = b) as ->
          by (unfold slide in Hs; rewrite Hi in Hs; congruence).
      destruct He as [He|[_ He]]; [contradiction|].
      rewrite (Hwrong Hi) in He. discriminate He. }
    pose proof (lookup_lt_Some _ _ _ Hb) as HiN.
    unfold handleNext, isLastSlide.
    destruct (Z.eqb_spec (Z.of_nat (currentSlideIndex st))
                         (Z.of_nat (length (slides (course p))) - 1));
      [lia|].
    simpl. split; [reflexivity|]. split; [lia|]. auto.
Qed.

Lemma play_blocked (p : Props) (i : nat) (b : Slide) (evs : list Event)
      (st st' : State) (calls : list Call) :
  slides (course p) !! i = Some b →
  slide_type b = quiz →
  (∀ q, quizData b = Some q → length (options q) <= correctIndex q) →
  selectionInRange p st →
  currentSlideIndex st <= i →
  (currentSlideIndex st = i → isCorrect st = false) →
  play p st evs = Returned (st', calls) →
  existsb isComplete calls = false ∧ currentSlideIndex st' <= i.
Proof.
  intros Hb Hquiz Hbad. revert st st' calls.
  induction evs as [|ev evs IH]; intros st st' calls Hinv Hle Hwrong.
  - simpl. destruct (slide p st); [|discriminate].
    intros [= <- <-]. auto.
  - destruct (slide p st) as [s|] eqn:Hs;
      [|simpl; rewrite Hs; discriminate].
    rewrite (play_cons p st s ev evs Hs).
    destruct (click_blocked p i b st s ev Hb Hquiz Hbad Hs Hinv Hle Hwrong)
      as (Hno & Hle1 & Hwrong1).
    destruct (click_selection p st s ev Hs Hinv) as [Hinv1 _].
    destruct (click p st s ev) as [st1 calls1]; simpl in *.
    rewrite Hno.
    destruct (play p st1 evs) as [[st2 calls2]|] eqn:Hp; [|discriminate].
    intros [= <- <-].
    destruct (IH _ _ _ Hinv1 Hle1 Hwrong1 Hp) as [Hno2 Hle2].
    split; [|exact Hle2]. rewrite existsb_app, Hno, Hno2. reflexivity.
Qed.

(** X4. A quiz slide without quiz data, or whose correct index is not the
    index of one of its options, blocks the course: no sequence of presses
    completes a session on it, and the session never gets past that
    slide. *)
Theorem unanswerable_quiz_blocks_the_course
        (p : Props) (i : nat) (b : Slide) (evs : list Event) (st : State)
        (calls : list Call) :
  slides (course p) !! i = Some b →
  slide_type b = quiz →
  (∀ q, quizData b = Some q → length (options q) <= correctIndex q) →
  play p initialState evs = Returned (st, calls) →
  reportedXp calls = None ∧ currentSlideIndex st <= i.
Proof.
  intros Hb Hquiz Hbad Hplay.
  destruct (play_blocked p i b evs initialState st calls Hb Hquiz Hbad
              (selectionInRange_initial p)) as [Hno Hle]; auto.
  - simpl. lia.
  - split; [|exact Hle]. apply reportedXp_none. exact Hno.
Qed.

End PlayerSelection.

Section PlayerFlawless.
Import CoursePlayer Scoring Sessions Examples.

Lemma isLastSlide_split (p : Props) (st : State) (pre rest : list Slide)
      (s : Slide) :
  slides (course p) = pre ++ s :: rest →
  currentSlideIndex st = length pre →
  isLastSlide p st = bool_decide (rest = []).
Proof.
  intros Hsl Hi. unfold isLastSlide. rewrite Hsl, Hi, length_app. simpl.
  destruct rest as [|s2 rest]; simpl.
  - apply Z.eqb_eq. lia.
  - apply Z.eqb_neq. lia.
Qed.

(** Leaving a slide that is not a quiz, on arrival. *)
Lemma click_Continue_plain (p : Props) (i : nat) (x : Z) (s : Slide) :
  is_quiz s = false →
  click p (arriving i x) s Continue = handleNext p (arriving i x) s
  ∧ calculateSlideXp (arriving i x) s = 50%Z.
Proof.
  intros Hq. unfold click, enabled, footer, showQuizCheckBtn,
    calculateSlideXp. rewrite Hq. simpl. auto.
Qed.

(** The three presses on a quiz slide that can be answered right. *)
Lemma click_quiz_right (p : Props) (i : nat) (x : Z) (s : Slide)
      (q : QuizData) :
  is_quiz s = true →
  quizData s = Some q →
  correctIndex q < length (options q) →
  let chosen :=
    {| currentSlideIndex := i; selectedOption := Some (correctIndex q);
       isAnswerChecked := false; isCorrect := false;
       failedSlides := ∅; sessionXp := x |} in
  let checked :=
    {| currentSlideIndex := i; selectedOption := Some (correctIndex q);
       isAnswerChecked := true; isCorrect := true;
       failedSlides := ∅; sessionXp := x |} in
  click p (arriving i x) s (SelectOption (correctIndex q)) = (chosen, [])
  ∧ (click p chosen s CheckAnswer).1 = checked
  ∧ existsb isComplete (click p chosen s CheckAnswer).2 = false
  ∧ reportedXp (click p chosen s CheckAnswer).2 = None
  ∧ click p checked s Continue = handleNext p checked s
  ∧ calculateSlideXp checked s = 50%Z.
Proof.
  intros Hquiz Hq Hlt. simpl.
  unfold click, enabled, optionButton, footer, showQuizCheckBtn,
    calculateSlideXp, XP_PER_SLIDE.
  rewrite Hquiz, Hq. simpl.
  rewrite (bool_decide_eq_true_2 _ Hlt). simpl.
  unfold handleQuizSubmit. simpl. rewrite Hq.
  rewrite (bool_decide_eq_true_2 (correctIndex q = correctIndex q) eq_refl).
  simpl. repeat split; destruct (onQuizAttempt p); reflexivity.
Qed.

Lemma flawless_from (p : Props) (rest pre : list Slide) (x : Z) :
  slides (course p) = pre ++ rest →
  rest ≠ [] →
  Forall passable rest →
  ∃ st' calls,
    play p (arriving (length pre) x) (flawlessRun rest)
    = Returned (st', calls)
    ∧ reportedXp calls = Some (x + 50 * Z.of_nat (length rest))%Z
    ∧ failedSlides st' = ∅.
Proof.
  revert pre x. induction rest as [|s rest IH]; intros pre x Hsl Hne Hpass;
    [congruence|].
  inversion Hpass as [|? ? Hs Hrest]; subst.
  assert (Hcur : ∀ st, currentSlideIndex st = length pre →
                       slide p st = Some s).
  { intros st Hi. unfold slide. rewrite Hi, Hsl.
    apply list_lookup_middle. reflexivity. }
  assert (Hnext : ∀ st, currentSlideIndex st = length pre →
            failedSlides st = ∅ →
            calculateSlideXp st s = 50%Z →
            sessionXp st = x →
            click p st s Continue = handleNext p st s →
            ∃ st' calls,
              play p st (Continue :: flawlessRun rest) = Returned (st', calls)
              ∧ reportedXp calls
                = Some (x + 50 * Z.of_nat (length (s :: rest)))%Z
              ∧ failedSlides st' = ∅).
  { intros st Hi Hf Hxp Hx Hclick.
    rewrite play_cons with (s := s) by (apply Hcur; exact Hi).
    rewrite Hclick. unfold handleNext.
    rewrite (isLastSlide_split p st pre rest s Hsl Hi), Hxp, Hx.
    destruct rest as [|s2 rest].
    - simpl. eexists _, _. split; [reflexivity|]. split; [|exact Hf].
      unfold reportedXp. simpl. f_equal; lia.
    - rewrite bool_decide_eq_false_2 by discriminate. simpl existsb.
      cbv iota. cbn [fst snd].
      destruct (IH (pre ++ [s]) (x + 50)%Z) as (st' & calls & Hp & Hr & Hf').
      + rewrite <- app_assoc. exact Hsl.
      + discriminate.
      + exact Hrest.
      + rewrite length_app in Hp. change (length [s]) with 1 in Hp.
        rewrite Hi, Hf. unfold arriving in Hp. rewrite Hp.
        eexists _, _. split; [reflexivity|]. split; [|exact Hf'].
        simpl app. rewrite Hr. f_equal. simpl length. lia. }
  unfold flawlessRun. simpl flat_map. fold (flawlessRun rest).
  unfold flawlessPresses.
  destruct (is_quiz s) eqn:Hquiz.
  - apply is_quiz_true in Hquiz as Hty.
    destruct (Hs Hty) as (q & Hq & Hlt). rewrite Hq. simpl app.
    destruct (click_quiz_right p (length pre) x s q Hquiz Hq Hlt)
      as (H1 & H2 & H3 & H4 & H5 & H6).
    rewrite play_cons with (s := s) by (apply Hcur; reflexivity).
    rewrite H1. cbn [fst snd existsb app].
    rewrite play_cons with (s := s) by (apply Hcur; reflexivity). rewrite H3, H2.
    destruct (Hnext {| currentSlideIndex := length pre;
                       selectedOption := Some (correctIndex q);
                       isAnswerChecked := true; isCorrect := true;
                       failedSlides := ∅; sessionXp := x |}
                    eq_refl eq_refl H6 eq_refl H5)
      as (st' & calls & Hp & Hr & Hf').
    match goal with
    | |- context [play p ?st ?evs] =>
        match type of Hp with
        | play p ?st2 ?evs2 = _ => change (play p st evs) with (play p st2 evs2)
        end
    end.
    rewrite Hp. eexists _, _. split; [reflexivity|]. split; [|exact Hf'].
    simpl app. rewrite reportedXp_app_l by exact H3. exact Hr.
  - simpl app.
    destruct (click_Continue_plain p (length pre) x s Hquiz) as [H1 H2].
    exact (Hnext (arriving (length pre) x) eq_refl eq_refl H2 eq_refl H1).
Qed.

(** X5. Every course with at least one slide, whose quiz slides all carry
    their data with a correct index among their options, can be completed:
    answering every quiz right at the first attempt completes the session,
    fails no slide and reports 50 times the number of slides. *)
Theorem flawless_run_completes (p : Props) :
  slides (course p) ≠ [] →
  Forall passable (slides (course p)) →
  ∃ st calls,
    play p initialState (flawlessRun (slides (course p)))
    = Returned (st, calls)
    ∧ reportedXp calls
      = Some (50 * Z.of_nat (length (slides (course p))))%Z
    ∧ failedSlides st = ∅.
Proof.
  intros Hne Hpass.
  destruct (flawless_from p (slides (course p)) [] 0 eq_refl Hne Hpass)
    as (st & calls & Hp & Hr & Hf).
  exists st, calls. split; [exact Hp|]. split; [|exact Hf].
  rewrite Hr. reflexivity.
Qed.

End PlayerFlawless.
Section PlayerSessionExamples.
Import CoursePlayer Scoring Sessions Examples Cases.

Lemma c1_passable : Forall passable (slides (course p1)).
Proof.
  repeat constructor; intros Hty; try discriminate Hty.
  eexists. split; [reflexivity|]. simpl. lia.
Qed.

Lemma flawless_run_completes_witness :
  slides (course p1) ≠ []
  ∧ Forall passable (slides (course p1))
  ∧ flawlessRun (slides (course p1)) = firstTry
  ∧ ∃ st calls,
      play p1 initialState (flawlessRun (slides (course p1)))
      = Returned (st, calls)
      ∧ reportedXp calls = Some 200%Z
      ∧ failedSlides st = ∅.
Proof.
  assert (Hne : slides (course p1) ≠ []) by discriminate.
  exact (conj Hne (conj c1_passable (conj eq_refl
           (flawless_run_completes p1 Hne c1_passable)))).
Defined.

Lemma unanswerable_quiz_blocks_the_course_witness :
  slides (course pBlocked) !! 1 = Some emptyQuiz
  ∧ slide_type emptyQuiz = quiz
  ∧ (∀ q, quizData emptyQuiz = Some q →
          length (options q) <= correctIndex q)
  ∧ (∃ st calls,
       play pBlocked initialState
            [Continue; SelectOption 0; CheckAnswer; Continue]
       = Returned (st, calls)
       ∧ reportedXp calls = None ∧ currentSlideIndex st <= 1).
Proof.
  assert (Hb : slides (course pBlocked) !! 1 = Some emptyQuiz)
    by reflexivity.
  assert (Hbad : ∀ q, quizData emptyQuiz = Some q →
                      length (options q) <= correctIndex q)
    by (intros q [= <-]; simpl; lia).
  split; [exact Hb|]. split; [reflexivity|]. split; [exact Hbad|].
  eexists _, _. split; [vm_compute; reflexivity|].
  eapply (unanswerable_quiz_blocks_the_course pBlocked 1 emptyQuiz
            [Continue; SelectOption 0; CheckAnswer; Continue]).
  - exact Hb.
  - reflexivity.
  - exact Hbad.
  - vm_compute. reflexivity.
Defined.

End PlayerSessionExamples.

Section PerfectScore.
Import CoursePlayer Scoring Sessions Examples.

(** The total a completed session reports, as a sum of awards under the
    final failed set, which holds exactly the ids answered wrong. *)
Lemma play_reports_awards (p : Props) (evs : list Event) (st : State)
      (calls : list Call) (total : Z) :
  onQuizAttempt p = true →
  uniqueSlideIds (course p) →
  play p initialState evs = Returned (st, calls) →
  reportedXp calls = Some total →
  total = sumAwards (failedSlides st) (slides (course p))
  ∧ (∀ sid, sid ∈ failedSlides st ↔
            existsb (isWrongAttemptOn sid) calls = true)
  ∧ 0 < length (slides (course p)).
Proof.
  intros Hobs Hnd Hplay Hrep.
  assert (Hs : is_Some (slide p initialState)).
  { destruct (slide p initialState) eqn:Hs; [eauto|].
    destruct evs; simpl in Hplay; rewrite Hs in Hplay; discriminate. }
  destruct Hs as [s Hs].
  destruct (play_is_invoke _ _ _ _ Hplay) as [evs' Hinv].
  destruct (invoke_total p evs' _ _ _ Hobs Hnd (Consistent_initial p s Hs) Hinv)
    as [Hf Hx].
  split; [exact (Hx _ Hrep)|]. split.
  - intros sid. rewrite Hf. simpl. rewrite elem_of_empty. tauto.
  - apply lookup_lt_Some in Hs. simpl in Hs. exact Hs.
Qed.

(** X6. The player and the application agree on what a perfect run is: on
    a course of the course list whose slide ids are distinct, the total a
    completed session reports passes the perfect-score test of the
    completion handler if and only if no quiz slide received a wrong
    answer during the session. *)
Theorem perfect_score_iff_no_failed_quiz
        (p : Props) (evs : list Event) (st : State) (calls : list Call)
        (total : Z) (cs : list Course) :
  onQuizAttempt p = true →
  uniqueSlideIds (course p) →
  App.findCourse (course_id (course p)) cs = Some (course p) →
  play p initialState evs = Returned (st, calls) →
  reportedXp calls = Some total →
  App.isPerfectScore cs (course_id (course p)) total = true
  ↔ failedQuizzes calls (slides (course p)) = [].
Proof.
  intros Hobs Hnd Hfind Hplay Hrep.
  destruct (play_reports_awards p evs st calls total Hobs Hnd Hplay Hrep)
    as (Ht & Hf & Hpos).
  rewrite isPerfectScore_true. unfold App.maxPossibleXp. rewrite Hfind.
  rewrite Ht, sumAwards_count.
  assert (Hsame :
    filter (λ s, is_quiz s && bool_decide (slide_id s ∈ failedSlides st)
                 = true) (slides (course p))
    = failedQuizzes calls (slides (course p))).
  { unfold failedQuizzes. apply list_filter_iff. intros s.
    unfold everFailed.
    rewrite !andb_true_iff, bool_decide_eq_true, Hf. tauto. }
  rewrite Hsame. split.
  - intros [H _]. apply length_zero_iff_nil. lia.
  - intros ->. simpl. lia.
Qed.

Lemma perfect_score_iff_no_failed_quiz_witness :
  onQuizAttempt p1 = true
  ∧ uniqueSlideIds (course p1)
  ∧ App.findCourse (course_id (course p1)) (App.courses sarahPlaying)
    = Some (course p1)
  ∧ play p1 initialState failedOnce = Returned failedOnceEnd
  ∧ reportedXp failedOnceEnd.2 = Some 150%Z
  ∧ (App.isPerfectScore (App.courses sarahPlaying) (course_id (course p1)) 150 = true
     ↔ failedQuizzes failedOnceEnd.2 (slides (course p1)) = []).
Proof.
  assert (Hfind : App.findCourse (course_id (course p1)) (App.courses sarahPlaying)
                  = Some (course p1)) by reflexivity.
  assert (Hrep : reportedXp failedOnceEnd.2 = Some 150%Z) by reflexivity.
  exact (conj eq_refl (conj c1_uniqueSlideIds (conj Hfind
          (conj play_failedOnce (conj Hrep
            (perfect_score_iff_no_failed_quiz p1 failedOnce failedOnceEnd.1
               failedOnceEnd.2 150 (App.courses sarahPlaying) eq_refl
               c1_uniqueSlideIds Hfind play_failedOnce Hrep)))))).
Defined.

End PerfectScore.

(* ===================================================================== *)
(** ** The application: logging in and resetting a PIN *)
(* ===================================================================== *)

Section Login.
Import App AppHandlers Examples.

(** [find] on a list whose entry at [i] was replaced: when no earlier entry
    satisfies the test and the new entry does, the new entry is found. *)
Lemma find_insert_first {A : Type} (f : A → bool) (l : list A) (i : nat)
      (v : A) :
  i < length l →
  (∀ j y, j < i → l !! j = Some y → f y = false) →
  f v = true →
  List.find f (<[ i := v ]> l) = Some v.
Proof.
  revert i. induction l as [|x l IH]; intros i Hlt Hbefore Hv;
    [simpl in Hlt; lia|].
  destruct i as [|i]; simpl.
  - rewrite Hv. reflexivity.
  - rewrite (Hbefore 0 x) by (simpl; auto; lia).
    apply IH; [simpl in Hlt; lia| |exact Hv].
    intros j y Hj Hy. apply (Hbefore (S j) y); [lia|exact Hy].
Qed.

(** [find] returns the first entry that passes the test. *)
Lemma find_first {A : Type} (f : A → bool) (l : list A) (x : A) :
  List.find f l = Some x →
  ∃ i, l !! i = Some x ∧ f x = true
       ∧ ∀ j y, j < i → l !! j = Some y → f y = false.
Proof.
  induction l as [|a l IH]; intros Hf; [discriminate Hf|].
  simpl in Hf. destruct (f a) eqn:Ha.
  - injection Hf as ->. exists 0. split; [reflexivity|].
    split; [exact Ha|]. intros j y Hj. lia.
  - destruct (IH Hf) as (i & Hi & Hx & Hbefore).
    exists (S i). split; [exact Hi|]. split; [exact Hx|].
    intros [|j] y Hj Hy.
    + injection Hy as <-. exact Ha.
    + apply (Hbefore j y); [lia|exact Hy].
Qed.

Lemma credentialsMatch_true (id pin : string) (u : User) :
  credentialsMatch id pin u = true ↔ user_id u = id ∧ user_pin u = pin.
Proof.
  unfold credentialsMatch.
  rewrite andb_true_iff, !bool_decide_eq_true. reflexivity.
Qed.

(** X7. A login succeeds exactly when some user of the collection has the
    given id and PIN; it then logs in the first such user of the
    collection, clears the login error and changes nothing else.
    Otherwise nothing changes but the login error. *)
Theorem login_checks_id_and_pin (st : State) (id pin : string) :
  match (handleLogin st id pin).2 with
  | None =>
      ∃ i u, users st !! i = Some u
             ∧ user_id u = id ∧ user_pin u = pin
             ∧ (∀ j v, j < i → users st !! j = Some v →
                       ¬ (user_id v = id ∧ user_pin v = pin))
             ∧ (handleLogin st id pin).1
               = {| users := users st; courses := courses st;
                    auth := mkAuth true (Some u);
                    activeCourse := activeCourse st |}
  | Some msg =>
      (handleLogin st id pin).1 = st
      ∧ msg = "Invalid Staff ID or PIN"
      ∧ ∀ u, u ∈ users st → ¬ (user_id u = id ∧ user_pin u = pin)
  end.
Proof.
  unfold handleLogin.
  destruct (find (credentialsMatch id pin) (users st)) as [u|] eqn:Hf; simpl.
  - destruct (find_first _ _ _ Hf) as (i & Hi & Hm & Hbefore).
    apply credentialsMatch_true in Hm as [Hid Hpin].
    exists i, u. split; [exact Hi|]. split; [exact Hid|].
    split; [exact Hpin|]. split; [|reflexivity].
    intros j v Hj Hv Hmatch. apply credentialsMatch_true in Hmatch.
    rewrite (Hbefore j v Hj Hv) in Hmatch. discriminate Hmatch.
  - split; [reflexivity|]. split; [reflexivity|].
    intros u Hin Hmatch. rewrite list_elem_of_In in Hin.
    apply credentialsMatch_true in Hmatch.
    rewrite (find_none _ _ Hf u Hin) in Hmatch. discriminate Hmatch.
Qed.

(** When two records carry the same id and PIN, the one that comes first
    in the collection is logged in. *)
Lemma login_takes_the_first_match :
  auth (handleLogin
          {| users := [sarah; Cases.sarahTwin]; courses := [];
             auth := mkAuth false None; activeCourse := None |}
          "12345" "1234").1
  = mkAuth true (Some sarah)
  ∧ auth (handleLogin
            {| users := [Cases.sarahTwin; sarah]; courses := [];
               auth := mkAuth false None; activeCourse := None |}
            "12345" "1234").1
    = mkAuth true (Some Cases.sarahTwin)
  ∧ sarah ≠ Cases.sarahTwin.
Proof.
  split; [reflexivity|]. split; [reflexivity|].
  intros H. apply (f_equal user_name) in H. discriminate H.
Qed.

(** X8. Resetting a PIN needs nothing but a staff id: whenever the id is
    that of some user the reset returns true, changes no other entry and
    no other field, and a login with the id and the new PIN then succeeds
    as that user; when no user has the id it returns false and changes
    nothing. *)
Theorem reset_pin_then_login (rev : Revision) (st : State)
        (id newPin : string) :
  ((∃ u, u ∈ users st ∧ user_id u = id) →
   (handleResetPin rev st id newPin).2 = true
   ∧ map user_id (users (handleResetPin rev st id newPin).1.1)
     = map user_id (users st)
   ∧ map user_xp (users (handleResetPin rev st id newPin).1.1)
     = map user_xp (users st)
   ∧ ∃ u', auth (handleLogin (handleResetPin rev st id newPin).1.1
                             id newPin).1
           = mkAuth true (Some u')
           ∧ user_id u' = id ∧ user_pin u' = newPin)
  ∧ ((∀ u, u ∈ users st → user_id u ≠ id) →
     handleResetPin rev st id newPin = (st, [], false)).
Proof.
  unfold handleResetPin. split.
  - intros (u0 & Hin & Hid).
    destruct (list_find_elem_of (fun u => user_id u = id) (users st) u0 Hin Hid)
      as [[i u] Hf].
    rewrite Hf. simpl.
    apply list_find_Some in Hf as (Hi & Hu & Hbefore).
    pose proof (lookup_lt_Some _ _ _ Hi) as Hlt.
    split; [reflexivity|]. split; [|split].
    + change (map ?f ?l) with (f <$> l). rewrite list_fmap_insert. simpl.
      apply list_insert_id. rewrite list_lookup_fmap, Hi. reflexivity.
    + change (map ?f ?l) with (f <$> l). rewrite list_fmap_insert. simpl.
      apply list_insert_id. rewrite list_lookup_fmap, Hi. reflexivity.
    + exists (withPin u newPin). unfold handleLogin. simpl.
      rewrite (find_insert_first (credentialsMatch id newPin) (users st) i
                 (withPin u newPin) Hlt).
      * simpl. auto.
      * intros j y Hj Hy. unfold credentialsMatch.
        rewrite (bool_decide_eq_false_2 _ (Hbefore j y Hy Hj)). reflexivity.
      * unfold credentialsMatch. simpl.
        rewrite (bool_decide_eq_true_2 _ Hu).
        rewrite (bool_decide_eq_true_2 (newPin = newPin) eq_refl).
        reflexivity.
  - intros Hnone.
    destruct (list_find _ (users st)) as [[i u]|] eqn:Hf; [|reflexivity].
    apply list_find_Some in Hf as (Hi & Hu & _).
    exfalso. apply (Hnone u); [|exact Hu].
    apply list_elem_of_lookup. eauto.
Qed.

Lemma reset_pin_then_login_witness :
  (∃ u, u ∈ users sarahPlaying ∧ user_id u = "54321")
  ∧ (handleResetPin ApiApp sarahPlaying "54321" "0000").2 = true
  ∧ (∃ u', auth (handleLogin
                   (handleResetPin ApiApp sarahPlaying "54321" "0000").1.1
                   "54321" "0000").1
           = mkAuth true (Some u')
           ∧ user_id u' = "54321" ∧ user_pin u' = "0000")
  ∧ (∀ u, u ∈ users sarahPlaying → user_id u ≠ "nobody")
  ∧ handleResetPin ApiApp sarahPlaying "nobody" "0000"
    = (sarahPlaying, [], false).
Proof.
  assert (H1 : ∃ u, u ∈ users sarahPlaying ∧ user_id u = "54321").
  { eexists. split;
      [apply list_elem_of_lookup; exists 1; reflexivity | reflexivity]. }
  assert (H2 : ∀ u, u ∈ users sarahPlaying → user_id u ≠ "nobody").
  { intros u Hin. simpl in Hin.
    repeat (apply elem_of_cons in Hin as [->|Hin]; [discriminate|]).
    apply elem_of_nil in Hin. contradiction. }
  destruct (proj1 (reset_pin_then_login ApiApp sarahPlaying "54321" "0000")
              H1) as (T1 & _ & _ & T2).
  exact (conj H1 (conj T1 (conj T2 (conj H2
          (proj2 (reset_pin_then_login ApiApp sarahPlaying "nobody" "0000")
             H2))))).
Defined.

End Login.

(* ===================================================================== *)
(** ** The application: the ids of the user collection *)
(* ===================================================================== *)

Section UserIds.
Import App AppHandlers Examples.

Lemma idTaken_true (id : string) (xs : list User) :
  idTaken id xs = true ↔ id ∈ map user_id xs.
Proof.
  unfold idTaken. rewrite existsb_exists. split.
  - intros (u & Hin & Hid). unfold hasId in Hid.
    apply bool_decide_eq_true in Hid. subst id.
    apply list_elem_of_In, in_map. exact Hin.
  - intros Hin. apply list_elem_of_In, in_map_iff in Hin as (u & Hid & Hin).
    exists u. split; [exact Hin|]. unfold hasId.
    apply bool_decide_eq_true. exact Hid.
Qed.

Lemma idTaken_false (id : string) (xs : list User) :
  idTaken id xs = false ↔ id ∉ map user_id xs.
Proof.
  rewrite <- idTaken_true. destruct (idTaken id xs); split; auto;
    try discriminate. intros H. exfalso. auto.
Qed.

(** One imported record adds its id at the end when the id is new, and
    leaves the list of ids as it is otherwise. *)
Lemma importOne_ids (rev : Revision) (l : list User) (imported : User) :
  map user_id (importOne rev l imported)
  = if idTaken (user_id imported) l then map user_id l
    else map user_id l ++ [user_id imported].
Proof.
  unfold importOne.
  destruct (list_find _ l) as [[index old]|] eqn:Hf.
  - apply list_find_Some in Hf as (Hidx & Hid & _).
    replace (idTaken (user_id imported) l) with true.
    + change (map ?f ?l) with (f <$> l). rewrite list_fmap_insert.
      apply list_insert_id. rewrite list_lookup_fmap, Hidx.
      destruct rev; simpl; congruence.
    + symmetry. apply idTaken_true. rewrite <- Hid.
      apply list_elem_of_In, in_map, list_elem_of_In.
      apply list_elem_of_lookup. eauto.
  - replace (idTaken (user_id imported) l) with false.
    + rewrite map_app. reflexivity.
    + symmetry. apply idTaken_false. intros Hin.
      apply list_elem_of_In, in_map_iff in Hin as (u & Hid & Hin).
      apply list_elem_of_In in Hin.
      pose proof (proj1 (list_find_None _ _) Hf) as Hall.
      rewrite Forall_forall in Hall. exact (Hall u Hin Hid).
Qed.

Lemma importOne_ids_grow (rev : Revision) (l : list User) (imported : User) :
  (NoDup (map user_id l) → NoDup (map user_id (importOne rev l imported)))
  ∧ map user_id l `prefix_of` map user_id (importOne rev l imported)
  ∧ user_id imported ∈ map user_id (importOne rev l imported).
Proof.
  rewrite importOne_ids.
  destruct (idTaken (user_id imported) l) eqn:Ht.
  - apply idTaken_true in Ht. auto.
  - apply idTaken_false in Ht. split; [|split].
    + intros Hnd. apply NoDup_app. split; [exact Hnd|]. split.
      * intros x Hx Hx'. apply list_elem_of_singleton in Hx'. congruence.
      * apply NoDup_singleton.
    + apply prefix_app_r. reflexivity.
    + apply elem_of_app. right. apply list_elem_of_singleton. reflexivity.
Qed.

Lemma foldl_importOne_ids (rev : Revision) (imps : list User)
      (l : list User) :
  (NoDup (map user_id l) → NoDup (map user_id (foldl (importOne rev) l imps)))
  ∧ map user_id l `prefix_of` map user_id (foldl (importOne rev) l imps)
  ∧ ∀ imp, imp ∈ imps →
           user_id imp ∈ map user_id (foldl (importOne rev) l imps).
Proof.
  revert l. induction imps as [|imp imps IH]; intros l; simpl.
  - split; [auto|]. split; [reflexivity|].
    intros imp Hin. apply elem_of_nil in Hin. contradiction.
  - destruct (importOne_ids_grow rev l imp) as (Hnd1 & Hpre1 & Hin1).
    destruct (IH (importOne rev l imp)) as (Hnd2 & Hpre2 & Hin2).
    split; [auto|]. split; [etrans; eauto|].
    intros imp' Hin. apply elem_of_cons in Hin as [->|Hin]; [|auto].
    destruct Hpre2 as [k ->]. apply elem_of_app. left. exact Hin1.
Qed.

(** X9. A CSV import, in both revisions, removes and reorders no user and
    changes no id: the ids before the import are a prefix of the ids after
    it; the id of every imported record is in the collection afterwards;
    and distinct ids stay distinct even when the imported list repeats an
    id. *)
Theorem import_keeps_ids_distinct (rev : Revision) (st : State)
        (importedUsers : list User) :
  map user_id (users st)
    `prefix_of` map user_id (users (handleImportUsers rev st importedUsers).1)
  ∧ (∀ imp, imp ∈ importedUsers →
            user_id imp
            ∈ map user_id (users (handleImportUsers rev st importedUsers).1))
  ∧ (NoDup (map user_id (users st)) →
     NoDup (map user_id (users (handleImportUsers rev st importedUsers).1))).
Proof.
  simpl.
  destruct (foldl_importOne_ids rev importedUsers (users st))
    as (Hnd & Hpre & Hin). auto.
Qed.

(** X10. Adding a user whose id is taken changes nothing and raises an
    alert; otherwise the user is appended; either way distinct ids stay
    distinct. *)
Theorem add_user_keeps_ids_distinct (rev : Revision) (st : State)
        (newUser : User) :
  (user_id newUser ∈ map user_id (users st) →
   (handleAddUser rev st newUser).1 = st
   ∧ (handleAddUser rev st newUser).2
     = [Alert ("User with ID " +:+ user_id newUser +:+ " already exists.")])
  ∧ (user_id newUser ∉ map user_id (users st) →
     users (handleAddUser rev st newUser).1 = users st ++ [newUser])
  ∧ (NoDup (map user_id (users st)) →
     NoDup (map user_id (users (handleAddUser rev st newUser).1))).
Proof.
  unfold handleAddUser.
  destruct (idTaken (user_id newUser) (users st)) eqn:Ht.
  - apply idTaken_true in Ht. split; [auto|]. split; [|auto].
    intros Hn. contradiction.
  - apply idTaken_false in Ht. split; [intros Hin; contradiction|].
    split; [reflexivity|]. simpl. intros Hnd. rewrite map_app.
    apply NoDup_app. split; [exact Hnd|]. split.
    + intros x Hx Hx'. apply list_elem_of_singleton in Hx'. congruence.
    + apply NoDup_singleton.
Qed.

(** X11. The handlers that record progress or edit one user (completion,
    quiz attempt, user update, PIN reset) add, remove and reorder no user:
    the list of ids is the same afterwards. *)
Theorem progress_handlers_keep_the_ids
        (rev : Revision) (st : State) (cid : string) (earned now : Z)
        (sid question : string) (answer : option string) (correct : bool)
        (updatedUser : User) (id newPin : string) :
  map user_id (users (handleCompleteCourse rev st cid earned).1)
  = map user_id (users st)
  ∧ map user_id (users (handleQuizAttempt rev st now cid sid question
                                          answer correct).1)
    = map user_id (users st)
  ∧ map user_id (users (handleUpdateUser rev st updatedUser).1)
    = map user_id (users st)
  ∧ map user_id (users (handleResetPin rev st id newPin).1.1)
    = map user_id (users st).
Proof.
  split; [|split; [|split]].
  - destruct (currentUser (auth st)) as [cur|] eqn:Hcur.
    + rewrite (users_handleCompleteCourse rev st cid earned cur Hcur).
      rewrite map_map. apply map_ext. intros u. apply completeFor_id.
    + rewrite (users_handleCompleteCourse_logged_out rev st cid earned Hcur).
      reflexivity.
  - unfold handleQuizAttempt.
    destruct (currentUser (auth st)) as [cur|]; [|reflexivity].
    destruct rev; simpl; rewrite map_map; apply map_ext; intros u;
      unfold hasId; case_bool_decide; simpl; congruence.
  - simpl. rewrite map_map. apply map_ext. intros u.
    unfold hasId. case_bool_decide; simpl; congruence.
  - unfold handleResetPin.
    destruct (list_find _ (users st)) as [[i u]|] eqn:Hf; [|reflexivity].
    simpl. apply list_find_Some in Hf as (Hi & _ & _).
    change (map ?f ?l) with (f <$> l). rewrite list_fmap_insert.
    apply list_insert_id. rewrite list_lookup_fmap, Hi. reflexivity.
Qed.

(** X12. Removing a user: the logged-in account cannot be removed and a
    declined confirmation changes nothing; a confirmed removal of another
    id leaves no user with that id, keeps every other user in order, and
    keeps distinct ids distinct. *)
Theorem remove_user_removes_only_that_id
        (rev : Revision) (st : State) (userId : string) (confirmed : bool) :
  ((∃ cur, currentUser (auth st) = Some cur ∧ user_id cur = userId) →
   (handleRemoveUser rev st userId confirmed).1 = st)
  ∧ (handleRemoveUser rev st userId false).1 = st
  ∧ ((∀ cur, currentUser (auth st) = Some cur → user_id cur ≠ userId) →
     (userId ∉ map user_id (users (handleRemoveUser rev st userId true).1))
     ∧ users (handleRemoveUser rev st userId true).1
       = List.filter (fun u => negb (hasId userId u)) (users st)
     ∧ (∀ u, u ∈ users st → user_id u ≠ userId →
             u ∈ users (handleRemoveUser rev st userId true).1)
     ∧ (NoDup (map user_id (users st)) →
        NoDup (map user_id (users (handleRemoveUser rev st userId true).1)))).
Proof.
  unfold handleRemoveUser. split; [|split].
  - intros (cur & -> & <-).
    rewrite bool_decide_eq_true_2 by reflexivity. reflexivity.
  - destruct (match currentUser (auth st) with
              | Some cur => bool_decide (userId = user_id cur)
              | None => false
              end); reflexivity.
  - intros Hother.
    replace (match currentUser (auth st) with
             | Some cur => bool_decide (userId = user_id cur)
             | None => false
             end) with false.
    + simpl. split; [|split; [reflexivity|split]].
      * intros Hin. apply list_elem_of_In, in_map_iff in Hin
          as (u & Hid & Hin).
        apply filter_In in Hin as [_ Hkeep]. unfold hasId in Hkeep.
        rewrite (bool_decide_eq_true_2 _ Hid) in Hkeep. discriminate Hkeep.
      * intros u Hin Hne. apply list_elem_of_In, filter_In.
        split; [apply list_elem_of_In; exact Hin|].
        unfold hasId. rewrite (bool_decide_eq_false_2 _ Hne). reflexivity.
      * intros Hnd. induction (users st) as [|u l IH]; [constructor|].
        simpl in Hnd. apply NoDup_cons in Hnd as [Hu Hl].
        simpl. destruct (negb (hasId userId u)); [|auto].
        simpl. apply NoDup_cons. split; [|auto].
        intros Hin. apply Hu.
        apply list_elem_of_In, in_map_iff in Hin as (v & Hid & Hin).
        apply filter_In in Hin as [Hin _].
        apply list_elem_of_In, in_map_iff. eauto.
    + destruct (currentUser (auth st)) as [cur|]; [|reflexivity].
      symmetry. apply bool_decide_eq_false. intros ->.
      exact (Hother cur eq_refl eq_refl).
Qed.

Lemma seed_ids_distinct : NoDup (map user_id (users sarahPlaying)).
Proof. apply (bool_decide_unpack _). vm_compute. exact I. Qed.

Lemma import_keeps_ids_distinct_witness :
  NoDup (map user_id (users sarahPlaying))
  ∧ map user_id
      (users (handleImportUsers ApiApp sarahPlaying
                [withPin sarah "1111"; withPin sarahAfter150 "2222"]).1)
    = ["12345"; "54321"; "99901"; "admin"]
  ∧ NoDup (map user_id
             (users (handleImportUsers ApiApp sarahPlaying
                       [withPin sarah "1111";
                        withPin sarahAfter150 "2222"]).1)).
Proof.
  split; [exact seed_ids_distinct|]. split; [reflexivity|].
  exact (proj2 (proj2 (import_keeps_ids_distinct ApiApp sarahPlaying
                         [withPin sarah "1111"; withPin sarahAfter150 "2222"]))
               seed_ids_distinct).
Defined.

Lemma add_user_keeps_ids_distinct_witness :
  (user_id sarahAfter150 ∈ map user_id (users sarahPlaying))
  ∧ (handleAddUser ApiApp sarahPlaying sarahAfter150).1 = sarahPlaying
  ∧ NoDup (map user_id (users sarahPlaying))
  ∧ NoDup (map user_id
             (users (handleAddUser ApiApp sarahPlaying sarahAfter150).1)).
Proof.
  assert (Hin : user_id sarahAfter150 ∈ map user_id (users sarahPlaying))
    by (apply (bool_decide_unpack _); vm_compute; exact I).
  destruct (add_user_keeps_ids_distinct ApiApp sarahPlaying sarahAfter150)
    as (T1 & _ & T3).
  exact (conj Hin (conj (proj1 (T1 Hin))
          (conj seed_ids_distinct (T3 seed_ids_distinct)))).
Defined.

Lemma remove_user_removes_only_that_id_witness :
  (∀ cur, currentUser (auth sarahPlaying) = Some cur →
          user_id cur ≠ "54321")
  ∧ ("54321"
     ∉ map user_id (users (handleRemoveUser ApiApp sarahPlaying
                                            "54321" true).1))
  ∧ (∃ cur, currentUser (auth sarahPlaying) = Some cur
            ∧ user_id cur = "12345")
  ∧ (handleRemoveUser ApiApp sarahPlaying "12345" true).1 = sarahPlaying.
Proof.
  assert (H1 : ∀ cur, currentUser (auth sarahPlaying) = Some cur →
                      user_id cur ≠ "54321")
    by (intros cur [= <-]; discriminate).
  assert (H2 : ∃ cur, currentUser (auth sarahPlaying) = Some cur
                      ∧ user_id cur = "12345")
    by (exists sarah; split; reflexivity).
  exact (conj H1
          (conj (proj1 (proj2 (proj2 (remove_user_removes_only_that_id
                                        ApiApp sarahPlaying "54321" true))
                              H1))
            (conj H2
              (proj1 (remove_user_removes_only_that_id
                        ApiApp sarahPlaying "12345" true) H2)))).
Defined.

End UserIds.

(* ===================================================================== *)
(** ** The application: what a completion and an import keep *)
(* ===================================================================== *)

Section Progress.
Import App AppHandlers Examples.

(** The fields of a user that record progress. *)
Lemma importOne_local_progress (l : list User) (imported : User) (j : nat)
      (u : User) :
  l !! j = Some u →
  ∃ u', importOne LocalStorageApp l imported !! j = Some u'
        ∧ user_id u' = user_id u
        ∧ user_xp u' = user_xp u
        ∧ user_streak u' = user_streak u
        ∧ user_badges u' = user_badges u
        ∧ user_completedCourses u' = user_completedCourses u
        ∧ user_quizAttempts u' = user_quizAttempts u
        ∧ user_avatar u' = user_avatar u.
Proof.
  intros Hj. unfold importOne.
  destruct (list_find _ l) as [[index old]|] eqn:Hf.
  - apply list_find_Some in Hf as (Hidx & _ & _).
    destruct (decide (index = j)) as [->|Hne].
    + rewrite list_lookup_insert_eq by (eapply lookup_lt_Some; eauto).
      eexists. split; [reflexivity|].
      assert (old = u) as -> by congruence. simpl. repeat split.
    + rewrite list_lookup_insert_ne by exact Hne.
      exists u. repeat split. exact Hj.
  - rewrite lookup_app_l by (eapply lookup_lt_Some; eauto).
    exists u. repeat split. exact Hj.
Qed.

(** X13. In the first revision a CSV import touches nothing but the name,
    the PIN and the role of the users already in the collection: each
    keeps its place, id, XP, streak, badges, completed courses, quiz
    attempts and avatar. *)
Theorem local_import_keeps_progress (st : State) (importedUsers : list User)
        (j : nat) (u : User) :
  users st !! j = Some u →
  ∃ u', users (handleImportUsers LocalStorageApp st importedUsers).1 !! j
        = Some u'
        ∧ user_id u' = user_id u
        ∧ user_xp u' = user_xp u
        ∧ user_streak u' = user_streak u
        ∧ user_badges u' = user_badges u
        ∧ user_completedCourses u' = user_completedCourses u
        ∧ user_quizAttempts u' = user_quizAttempts u
        ∧ user_avatar u' = user_avatar u.
Proof.
  simpl. generalize (users st) as l. intros l. revert l u.
  induction importedUsers as [|imp rest IH]; intros l u Hj; simpl.
  - exists u. repeat split. exact Hj.
  - destruct (importOne_local_progress l imp j u Hj)
      as (u1 & H1 & E1 & E2 & E3 & E4 & E5 & E6 & E7).
    destruct (IH _ _ H1) as (u2 & H2 & F1 & F2 & F3 & F4 & F5 & F6 & F7).
    exists u2. split; [exact H2|]. repeat split; congruence.
Qed.

Lemma local_import_keeps_progress_witness :
  users sarahPlaying !! 0 = Some sarah
  ∧ ∃ u', users (handleImportUsers LocalStorageApp sarahPlaying
                   [withPin sarahAfter150 "2222"]).1 !! 0 = Some u'
          ∧ user_id u' = user_id sarah
          ∧ user_xp u' = user_xp sarah
          ∧ user_streak u' = user_streak sarah
          ∧ user_badges u' = user_badges sarah
          ∧ user_completedCourses u' = user_completedCourses sarah
          ∧ user_quizAttempts u' = user_quizAttempts sarah
          ∧ user_avatar u' = user_avatar sarah.
Proof.
  split; [reflexivity|].
  exact (local_import_keeps_progress sarahPlaying
           [withPin sarahAfter150 "2222"] 0 sarah eq_refl).
Defined.

Lemma pushBadge_prefix (cond : bool) (b : string) (l : list string) :
  l `prefix_of` pushBadge cond b l.
Proof.
  unfold pushBadge. destruct (cond && negb (includes l b)).
  - apply prefix_app_r. reflexivity.
  - reflexivity.
Qed.

Lemma pushBadge_NoDup (cond : bool) (b : string) (l : list string) :
  NoDup l → NoDup (pushBadge cond b l).
Proof.
  intros Hnd. unfold pushBadge.
  destruct cond; simpl; [|exact Hnd].
  destruct (includes l b) eqn:Hb; simpl; [exact Hnd|].
  apply includes_false in Hb. apply NoDup_app. split; [exact Hnd|]. split.
  - intros x Hx Hx'. apply list_elem_of_singleton in Hx'. congruence.
  - apply NoDup_singleton.
Qed.

(** X14. A completion never takes anything back, in either revision: for
    every user the badges and the completed courses before it are a prefix
    of those after it, lists without repetition stay without repetition,
    and the quiz attempts, the id, the PIN, the name and the role are
    untouched.  When the XP before, the earned XP and their sum are safe
    integers, the XP is unchanged or grows by exactly the earned amount,
    which is then what the addition of the source gives. *)
Theorem completion_only_adds (rev : Revision) (st : State) (cid : string)
        (earned : Z) (i : nat) (u : User) :
  users st !! i = Some u →
  ∃ u', users (handleCompleteCourse rev st cid earned).1 !! i = Some u'
        ∧ user_badges u `prefix_of` user_badges u'
        ∧ user_completedCourses u `prefix_of` user_completedCourses u'
        ∧ (NoDup (user_badges u) → NoDup (user_badges u'))
        ∧ (NoDup (user_completedCourses u) →
           NoDup (user_completedCourses u'))
        ∧ (isSafeInteger (user_xp u) = true →
           isSafeInteger earned = true →
           isSafeInteger (user_xp u + earned) = true →
           user_xp u' = user_xp u
           ∨ (user_xp u' = (user_xp u + earned)%Z
              ∧ numberAdd (user_xp u) earned = Some (user_xp u')))
        ∧ user_quizAttempts u' = user_quizAttempts u
        ∧ user_id u' = user_id u ∧ user_pin u' = user_pin u
        ∧ user_name u' = user_name u ∧ user_role u' = user_role u.
Proof.
  intros Hu.
  destruct (currentUser (auth st)) as [cur|] eqn:Hcur.
  - rewrite (users_handleCompleteCourse rev st cid earned cur Hcur).
    change (map ?f ?l) with (f <$> l).
    rewrite list_lookup_fmap, Hu. simpl. eexists. split; [reflexivity|].
    unfold completeFor. destruct (hasId (user_id cur) u);
      [|repeat split; auto].
    destruct (includes (user_completedCourses u) cid) eqn:Hinc;
      [repeat split; auto|].
    simpl. apply includes_false in Hinc. repeat split; auto.
    + etrans; [|apply pushBadge_prefix].
      etrans; [|apply pushBadge_prefix]. apply pushBadge_prefix.
    + apply prefix_app_r. reflexivity.
    + intros Hnd. do 3 apply pushBadge_NoDup. exact Hnd.
    + intros Hnd. apply NoDup_app. split; [exact Hnd|]. split.
      * intros x Hx Hx'. apply list_elem_of_singleton in Hx'. congruence.
      * apply NoDup_singleton.
    + intros _ _ Hsum. right. split; [reflexivity|].
      apply numberAdd_safe. exact Hsum.
  - rewrite (users_handleCompleteCourse_logged_out rev st cid earned Hcur).
    exists u. repeat split; auto.
Qed.

Lemma completion_only_adds_witness :
  users sarahPlaying !! 0 = Some sarah
  ∧ isSafeInteger (user_xp sarah) = true
  ∧ isSafeInteger 200 = true
  ∧ isSafeInteger (user_xp sarah + 200) = true
  ∧ ∃ u', users (handleCompleteCourse ApiApp sarahPlaying "c1" 200).1 !! 0
          = Some u'
          ∧ user_badges sarah `prefix_of` user_badges u'
          ∧ user_completedCourses sarah `prefix_of` user_completedCourses u'
          ∧ (user_xp u' = user_xp sarah
             ∨ (user_xp u' = (user_xp sarah + 200)%Z
                ∧ numberAdd (user_xp sarah) 200 = Some (user_xp u')))
          ∧ user_quizAttempts u' = user_quizAttempts sarah
          ∧ user_id u' = user_id sarah ∧ user_pin u' = user_pin sarah
          ∧ user_name u' = user_name sarah ∧ user_role u' = user_role sarah.
Proof.
  split; [reflexivity|]. do 3 (split; [reflexivity|]).
  destruct (completion_only_adds ApiApp sarahPlaying "c1" 200 0 sarah eq_refl)
    as (u' & Hu' & Hb & Hc & _ & _ & Hxp & Hrest).
  exists u'.
  exact (conj Hu' (conj Hb (conj Hc
           (conj (Hxp eq_refl eq_refl eq_refl) Hrest)))).
Defined.

(** X15. The other two badges of an applied completion: b1 is granted
    exactly when the course is the first the user completes, b2 exactly
    when the XP after the completion is at least 1000; a badge that is not
    b1, b2 or b4 is never granted. *)
Theorem first_course_and_milestone_badges
        (rev : Revision) (st : State) (cid : string) (earned : Z)
        (cur : User) (i : nat) (u : User) :
  currentUser (auth st) = Some cur →
  users st !! i = Some u →
  user_id u = user_id cur →
  cid ∉ user_completedCourses u →
  ∃ u', users (handleCompleteCourse rev st cid earned).1 !! i = Some u'
        ∧ ("b1" ∈ user_badges u' ↔
           "b1" ∈ user_badges u ∨ user_completedCourses u = [])
        ∧ ("b2" ∈ user_badges u' ↔
           "b2" ∈ user_badges u ∨ (1000 <= user_xp u + earned)%Z)
        ∧ (∀ b, b ≠ "b1" → b ≠ "b2" → b ≠ "b4" →
                b ∈ user_badges u' → b ∈ user_badges u).
Proof.
  intros Hcur Hu Hid Hnew.
  rewrite (users_handleCompleteCourse rev st cid earned cur Hcur).
  change (map ?f ?l) with (f <$> l).
  rewrite list_lookup_fmap, Hu. simpl. eexists. split; [reflexivity|].
  unfold completeFor, hasId. rewrite bool_decide_eq_true_2 by exact Hid.
  apply includes_false in Hnew. rewrite Hnew. simpl.
  assert (Hfirst : bool_decide (length (user_completedCourses u ++ [cid]) = 1)
                   = true ↔ user_completedCourses u = []).
  { rewrite bool_decide_eq_true, length_app. simpl.
    destruct (user_completedCourses u); simpl; split; intros H;
      try reflexivity; try discriminate; lia. }
  split; [|split].
  - rewrite !elem_of_pushBadge, Hfirst. split.
    + intros [[[H|[H _]]|[_ H]]|[_ H]]; try discriminate H; auto.
    + intros [H|H]; auto.
  - rewrite !elem_of_pushBadge, Z.leb_le. split.
    + intros [[[H|[_ H]]|[H _]]|[_ H]]; try discriminate H; auto.
    + intros [H|H]; auto.
  - intros b H1 H2 H4. rewrite !elem_of_pushBadge.
    intros [[[H|[_ H]]|[_ H]]|[_ H]]; congruence.
Qed.

Lemma first_course_and_milestone_badges_witness :
  currentUser (auth sarahPlaying) = Some sarah
  ∧ users sarahPlaying !! 0 = Some sarah
  ∧ ("c1" ∉ user_completedCourses sarah)
  ∧ ∃ u', users (handleCompleteCourse ApiApp sarahPlaying "c1" 200).1 !! 0
          = Some u'
          ∧ ("b1" ∈ user_badges u' ↔
             "b1" ∈ user_badges sarah ∨ user_completedCourses sarah = [])
          ∧ ("b2" ∈ user_badges u' ↔
             "b2" ∈ user_badges sarah ∨ (1000 <= user_xp sarah + 200)%Z)
          ∧ (∀ b, b ≠ "b1" → b ≠ "b2" → b ≠ "b4" →
                  b ∈ user_badges u' → b ∈ user_badges sarah).
Proof.
  destruct sarah_fresh as (Hcur & Hu & Hnew & _ & _).
  exact (conj Hcur (conj Hu (conj Hnew
          (first_course_and_milestone_badges ApiApp sarahPlaying "c1" 200
             sarah 0 sarah Hcur Hu eq_refl Hnew)))).
Defined.

(** X16. A completion that rewards nobody (every record of the logged-in
    user already holds the course): the second revision changes nothing at
    all, so the player stays open and nothing is synced; the first
    revision leaves the users as they are but closes the player. *)
Theorem unrewarded_completion_leaves_player_open
        (st : State) (cid : string) (earned : Z) (cur : User) :
  currentUser (auth st) = Some cur →
  (∀ u, u ∈ users st → user_id u = user_id cur →
        cid ∈ user_completedCourses u) →
  handleCompleteCourse ApiApp st cid earned = (st, [])
  ∧ users (handleCompleteCourse LocalStorageApp st cid earned).1 = users st
  ∧ activeCourse (handleCompleteCourse LocalStorageApp st cid earned).1
    = None.
Proof.
  intros Hcur Hall.
  assert (Hup : userUpdated cur cid (users st) = false).
  { unfold userUpdated. apply not_true_is_false. intros H.
    apply existsb_exists in H as (u & Hin & Hu).
    apply andb_true_iff in Hu as [Hid Hnot].
    unfold hasId in Hid. apply bool_decide_eq_true in Hid.
    apply negb_true_iff, includes_false in Hnot.
    apply Hnot, Hall; [apply list_elem_of_In; exact Hin|exact Hid]. }
  unfold handleCompleteCourse. rewrite Hcur, Hup. simpl.
  split; [reflexivity|]. split; [|reflexivity].
  apply map_completeFor_idle. exact Hup.
Qed.

Lemma unrewarded_completion_leaves_player_open_witness :
  currentUser (auth sarahDone) = Some sarahAfter150
  ∧ (∀ u, u ∈ users sarahDone → user_id u = user_id sarahAfter150 →
          "c1" ∈ user_completedCourses u)
  ∧ handleCompleteCourse ApiApp sarahDone "c1" 200 = (sarahDone, [])
  ∧ users (handleCompleteCourse LocalStorageApp sarahDone "c1" 200).1
    = users sarahDone
  ∧ activeCourse (handleCompleteCourse LocalStorageApp sarahDone "c1" 200).1
    = None.
Proof.
  assert (Hall : ∀ u, u ∈ users sarahDone →
                      user_id u = user_id sarahAfter150 →
                      "c1" ∈ user_completedCourses u).
  { intros u Hin Hid. simpl in Hin.
    apply elem_of_cons in Hin as [->|Hin];
      [apply list_elem_of_singleton; reflexivity|].
    repeat (apply elem_of_cons in Hin as [->|Hin]; [discriminate Hid|]).
    apply elem_of_nil in Hin. contradiction. }
  exact (conj eq_refl (conj Hall
          (unrewarded_completion_leaves_player_open sarahDone "c1" 200
             sarahAfter150 eq_refl Hall))).
Defined.

End Progress.

(* ===================================================================== *)
(** ** The application: the history of quiz attempts *)
(* ===================================================================== *)

Section Attempts.
Import App AppHandlers Examples.

(** X17. Recording a quiz attempt, first revision: the record of the
    logged-in user gets the attempt, stamped with the current time, at the
    end of its history (an absent history counts as empty); nothing else
    of any user changes, and the logged-in user held by [auth] is the
    updated record. *)
Theorem local_attempt_is_appended
        (st : State) (now : Z) (cid sid question : string)
        (answer : option string) (correct : bool) (cur : User) (i : nat)
        (u : User) :
  currentUser (auth st) = Some cur →
  users st !! i = Some u →
  ∃ u', users (handleQuizAttempt LocalStorageApp st now cid sid question
                                 answer correct).1 !! i = Some u'
        ∧ user_quizAttempts u'
          = (if bool_decide (user_id u = user_id cur)
             then Some (default [] (user_quizAttempts u)
                        ++ [mkQuizAttempt cid sid question answer
                                          correct now])
             else user_quizAttempts u)
        ∧ user_id u' = user_id u ∧ user_pin u' = user_pin u
        ∧ user_name u' = user_name u ∧ user_role u' = user_role u
        ∧ user_avatar u' = user_avatar u ∧ user_xp u' = user_xp u
        ∧ user_streak u' = user_streak u ∧ user_badges u' = user_badges u
        ∧ user_completedCourses u' = user_completedCourses u.
Proof.
  intros Hcur Hu. unfold handleQuizAttempt. rewrite Hcur. simpl.
  change (map ?f ?l) with (f <$> l).
  rewrite list_lookup_fmap, Hu. simpl. eexists. split; [reflexivity|].
  unfold hasId. case_bool_decide; simpl; repeat split.
Qed.

Lemma local_attempt_is_appended_witness :
  currentUser (auth sarahPlaying) = Some sarah
  ∧ users sarahPlaying !! 0 = Some sarah
  ∧ ∃ u', users (handleQuizAttempt LocalStorageApp sarahPlaying 1700000000000
                   "c1" "s3" "How long?" (Some "5 seconds") false).1 !! 0
          = Some u'
          ∧ user_quizAttempts u'
            = (if bool_decide (user_id sarah = user_id sarah)
               then Some (default [] (user_quizAttempts sarah)
                          ++ [mkQuizAttempt "c1" "s3" "How long?"
                                (Some "5 seconds") false 1700000000000])
               else user_quizAttempts sarah)
          ∧ user_id u' = user_id sarah ∧ user_pin u' = user_pin sarah
          ∧ user_name u' = user_name sarah ∧ user_role u' = user_role sarah
          ∧ user_avatar u' = user_avatar sarah ∧ user_xp u' = user_xp sarah
          ∧ user_streak u' = user_streak sarah
          ∧ user_badges u' = user_badges sarah
          ∧ user_completedCourses u' = user_completedCourses sarah.
Proof.
  exact (conj eq_refl (conj eq_refl
          (local_attempt_is_appended sarahPlaying 1700000000000 "c1" "s3"
             "How long?" (Some "5 seconds") false sarah 0 sarah
             eq_refl eq_refl))).
Defined.

(** X18. Recording a quiz attempt, second revision: every record with the
    id of the logged-in user is replaced by the copy held in [auth] with
    the attempt appended, so whatever the collection held for that user
    and the copy did not (an import or a PIN reset made meanwhile) is
    overwritten; the other users are untouched, and one request logs the
    attempt. *)
Theorem api_attempt_writes_back_auth_copy
        (st : State) (now : Z) (cid sid question : string)
        (answer : option string) (correct : bool) (cur : User) (i : nat)
        (u : User) :
  currentUser (auth st) = Some cur →
  users st !! i = Some u →
  users (handleQuizAttempt ApiApp st now cid sid question answer
                           correct).1 !! i
  = Some (if bool_decide (user_id u = user_id cur)
          then {| user_id := user_id cur; user_pin := user_pin cur;
                  user_name := user_name cur; user_role := user_role cur;
                  user_avatar := user_avatar cur; user_xp := user_xp cur;
                  user_streak := user_streak cur;
                  user_badges := user_badges cur;
                  user_completedCourses := user_completedCourses cur;
                  user_quizAttempts :=
                    Some (default [] (user_quizAttempts cur)
                          ++ [mkQuizAttempt cid sid question answer
                                            correct now]) |}
          else u)
  ∧ (handleQuizAttempt ApiApp st now cid sid question answer correct).2
    = [logQuizAttempt (user_id cur)
         (mkQuizAttempt cid sid question answer correct now)].
Proof.
  intros Hcur Hu. unfold handleQuizAttempt. rewrite Hcur. simpl.
  change (map ?f ?l) with (f <$> l).
  rewrite list_lookup_fmap, Hu. simpl. split; [|reflexivity].
  unfold hasId. case_bool_decide; reflexivity.
Qed.

Lemma api_attempt_writes_back_auth_copy_witness :
  currentUser (auth sarahDone) = Some sarahAfter150
  ∧ users (handleResetPin ApiApp sarahDone "12345" "0000").1.1 !! 0
    = Some (withPin sarahAfter150 "0000")
  ∧ (∃ u', users (handleQuizAttempt ApiApp
                    (handleResetPin ApiApp sarahDone "12345" "0000").1.1
                    1700000000000 "c1" "s3" "How long?"
                    (Some "5 seconds") false).1 !! 0 = Some u'
           ∧ user_pin u' = "1234").
Proof.
  split; [reflexivity|]. split; [reflexivity|].
  eexists. split.
  - exact (proj1 (api_attempt_writes_back_auth_copy
                    (handleResetPin ApiApp sarahDone "12345" "0000").1.1
                    1700000000000 "c1" "s3" "How long?" (Some "5 seconds")
                    false sarahAfter150 0 (withPin sarahAfter150 "0000")
                    eq_refl eq_refl)).
  - reflexivity.
Defined.

End Attempts.

(* ===================================================================== *)
(** ** The dashboard: statistics and editing a course *)
(* ===================================================================== *)

Section Dashboard.
Import App AppHandlers EducatorStats Examples.

Lemma totalCompletions_foldl (xs : list User) (acc : Z) :
  foldl (fun acc user =>
           (acc + Z.of_nat (length (user_completedCourses user)))%Z) acc xs
  = (acc + foldl (fun acc user =>
                    (acc + Z.of_nat (length (user_completedCourses user)))%Z)
                 0 xs)%Z.
Proof.
  revert acc. induction xs as [|u xs IH]; intros acc; simpl; [lia|].
  rewrite (IH (acc + _)%Z), (IH (0 + _)%Z). lia.
Qed.

(** X19. The 'Pending' slice of the chart is not negative as long as the
    completed list of every nurse has no repetition and holds only ids of
    courses of the course list. *)
Theorem pending_is_not_negative (users : list User) (courses : list Course) :
  (∀ u, u ∈ nurses users →
        NoDup (user_completedCourses u)
        ∧ ∀ cid, cid ∈ user_completedCourses u →
                 cid ∈ map course_id courses) →
  (0 <= pending users courses)%Z
  ∧ (0 <= totalCompletions users <= totalAssignments users courses)%Z.
Proof.
  unfold pending, totalAssignments, totalCompletions.
  generalize (nurses users) as ns. intros ns Hall.
  assert (H : (0 <= foldl (fun acc user =>
                   (acc + Z.of_nat (length (user_completedCourses user)))%Z)
                 0 ns
               <= Z.of_nat (length ns) * Z.of_nat (length courses))%Z).
  { induction ns as [|u ns IH]; simpl; [lia|].
    rewrite totalCompletions_foldl.
    destruct (Hall u) as [Hnd Hsub]; [apply elem_of_cons; auto|].
    assert (Hlen : length (user_completedCourses u) <= length courses).
    { pose proof (submseteq_length _ _ (NoDup_submseteq _ _ Hnd Hsub)) as H.
      rewrite length_map in H. exact H. }
    assert (IH' := IH (fun v Hv => Hall v (proj2 (elem_of_cons ns v u)
                                                  (or_intror Hv)))).
    lia. }
  lia.
Qed.

Lemma pending_is_not_negative_witness :
  (∀ u, u ∈ nurses (users sarahDone) →
        NoDup (user_completedCourses u)
        ∧ ∀ cid, cid ∈ user_completedCourses u →
                 cid ∈ map course_id (courses sarahDone))
  ∧ pending (users sarahDone) (courses sarahDone) = 2%Z
  ∧ (0 <= pending (users sarahDone) (courses sarahDone))%Z.
Proof.
  assert (Hall : ∀ u, u ∈ nurses (users sarahDone) →
                      NoDup (user_completedCourses u)
                      ∧ ∀ cid, cid ∈ user_completedCourses u →
                               cid ∈ map course_id (courses sarahDone)).
  { intros u Hin. simpl in Hin.
    repeat (apply elem_of_cons in Hin as [->|Hin];
            [split; [apply (bool_decide_unpack _); vm_compute; exact I
                    |intros cid Hc; exact Hc
                     || (apply elem_of_nil in Hc; contradiction)]|]).
    apply elem_of_nil in Hin. contradiction. }
  exact (conj Hall (conj eq_refl
          (proj1 (pending_is_not_negative (users sarahDone)
                    (courses sarahDone) Hall)))).
Defined.

(** A completion of a course that is not in the course list (C10) breaks
    that condition: with one nurse, no course and one such completion the
    slice is -1. *)
Lemma pending_can_be_negative :
  pending [sarahAfter150] [] = (-1)%Z.
Proof. reflexivity. Qed.

Lemma find_replaced (cs : list Course) (c' : Course) :
  (∃ c, c ∈ cs ∧ course_id c = course_id c') →
  findCourse (course_id c')
    (map (fun c => if bool_decide (course_id c = course_id c')
                   then c' else c) cs)
  = Some c'.
Proof.
  unfold findCourse. intros (c0 & Hin & Hid).
  induction cs as [|c cs IH]; [apply elem_of_nil in Hin; contradiction|].
  simpl. destruct (bool_decide (course_id c = course_id c')) eqn:Hc.
  - rewrite bool_decide_eq_true_2 by reflexivity. reflexivity.
  - rewrite Hc. apply elem_of_cons in Hin as [->|Hin]; [|auto].
    apply bool_decide_eq_false in Hc. contradiction.
Qed.

(** X20. Saving an edited course (builder, dashboard, application): when
    the builder accepts it, the course stored under the id of the edited
    one declares 50 XP and 2 minutes per slide, which is the maximum the
    completion handler computes for that id, and it carries no creation
    timestamp any more; the number of courses is unchanged. *)
Theorem edited_course_is_stored
        (rev : Revision) (st : State) (editing : Course)
        (title category : string) (sl : list Slide)
        (data : string * string * list Slide * Z * Z) :
  CourseBuilder.handleSaveCourse title category sl = Some data →
  editing ∈ courses st →
  let st' := (handleUpdateCourse rev st (editedCourse editing data)).1 in
  findCourse (course_id editing) (courses st')
  = Some (mkCourse (course_id editing) title category sl
                   (Z.of_nat (length sl) * 50) (Z.of_nat (length sl) * 2)
                   None)
  ∧ maxPossibleXp (courses st') (course_id editing)
    = (Z.of_nat (length sl) * 50)%Z
  ∧ (0 < maxPossibleXp (courses st') (course_id editing))%Z
  ∧ length (courses st') = length (courses st).
Proof.
  intros Hsave Hin. unfold CourseBuilder.handleSaveCourse in Hsave.
  destruct (_ || _) eqn:Hguard in Hsave; [discriminate|].
  injection Hsave as <-. simpl.
  apply orb_false_iff in Hguard as [_ Hlen].
  apply bool_decide_eq_false in Hlen.
  assert (Hfind := find_replaced (courses st)
            (mkCourse (course_id editing) title category sl
                      (Z.of_nat (length sl) * 50) (Z.of_nat (length sl) * 2)
                      None)
            (ex_intro _ editing (conj Hin eq_refl))).
  simpl in Hfind. unfold maxPossibleXp. rewrite Hfind. simpl.
  split; [reflexivity|]. split; [reflexivity|]. split; [lia|].
  apply length_map.
Qed.

Lemma edited_course_is_stored_witness :
  CourseBuilder.handleSaveCourse "Hand Hygiene" "Safety" MockData.c1_slides
  = Some ("Hand Hygiene", "Safety", MockData.c1_slides, 8%Z, 200%Z)
  ∧ MockData.c1 0 ∈ courses sarahPlaying
  ∧ findCourse "c1"
      (courses (handleUpdateCourse ApiApp sarahPlaying
                  (editedCourse (MockData.c1 0)
                     ("Hand Hygiene", "Safety", MockData.c1_slides,
                      8%Z, 200%Z))).1)
    = Some (mkCourse "c1" "Hand Hygiene" "Safety" MockData.c1_slides
                     200 8 None).
Proof.
  assert (Hsave : CourseBuilder.handleSaveCourse "Hand Hygiene" "Safety"
                    MockData.c1_slides
                  = Some ("Hand Hygiene", "Safety", MockData.c1_slides,
                          8%Z, 200%Z)) by reflexivity.
  assert (Hin : MockData.c1 0 ∈ courses sarahPlaying)
    by (apply list_elem_of_singleton; reflexivity).
  exact (conj Hsave (conj Hin
          (proj1 (edited_course_is_stored ApiApp sarahPlaying (MockData.c1 0)
                    "Hand Hygiene" "Safety" MockData.c1_slides _ Hsave Hin)))).
Defined.

End Dashboard.

(* ===================================================================== *)
(** ** The course builder: the slide list *)
(* ===================================================================== *)

Section SlideList.
Import SlideEditor Examples.

(** The slides of a reordering in which no entry is [undefined]. *)
Lemma moveEntry_defined {A : Type} (l : list A) (from to : nat) (x : A) :
  l !! from = Some x →
  moveEntry l from to
  = Some <$> (take to (delete from l) ++ [x] ++ drop to (delete from l)).
Proof.
  intros Hx. unfold moveEntry. rewrite Hx.
  rewrite !fmap_app, fmap_take, fmap_drop. reflexivity.
Qed.

(** X21. Dropping a dragged slide on another row reorders the list and
    loses nothing: the new list is a permutation of the old one of the
    same length, the dragged slide sits at the drop index (at the end when
    the index is past it), and the other slides keep their relative
    order. *)
Theorem drop_moves_one_slide (slides : list Slide) (from to : nat)
        (item : Slide) :
  slides !! from = Some item →
  from ≠ to →
  ∃ l', onDrop slides (Some from) to = Some (Some <$> l')
        ∧ l' ≡ₚ slides
        ∧ length l' = length slides
        ∧ l' !! (to `min` (length slides - 1)) = Some item
        ∧ delete (to `min` (length slides - 1)) l' = delete from slides.
Proof.
  intros Hitem Hne. unfold onDrop.
  rewrite bool_decide_eq_false_2 by exact Hne.
  rewrite (moveEntry_defined slides from to item Hitem).
  eexists. split; [reflexivity|].
  pose proof (lookup_lt_Some _ _ _ Hitem) as Hlt.
  assert (Hlen : length (take to (delete from slides))
                 = to `min` (length slides - 1)).
  { rewrite length_take, length_delete by eauto. reflexivity. }
  split; [|split; [|split]].
  - simpl. rewrite <- Permutation_middle, take_drop.
    symmetry. apply delete_Permutation. exact Hitem.
  - rewrite !length_app, length_take, length_drop, length_delete by eauto.
    simpl. lia.
  - rewrite <- Hlen. apply list_lookup_middle. reflexivity.
  - rewrite <- Hlen. simpl. rewrite delete_middle. apply take_drop.
Qed.

Lemma drop_moves_one_slide_witness :
  MockData.c1_slides !! 3 = Some (mkSlide "s4" summary "Module Complete"
    "You have successfully reviewed the Hand Hygiene protocols. Keep up the good work!"
    (Some "https://images.unsplash.com/photo-1628160205073-b26a117b9b00?auto=format&fit=crop&q=80&w=800")
    None)
  ∧ 3 ≠ 0
  ∧ ∃ l', onDrop MockData.c1_slides (Some 3) 0 = Some (Some <$> l')
          ∧ l' ≡ₚ MockData.c1_slides
          ∧ length l' = length MockData.c1_slides
          ∧ l' !! (0 `min` (length MockData.c1_slides - 1))
            = Some (mkSlide "s4" summary "Module Complete"
    "You have successfully reviewed the Hand Hygiene protocols. Keep up the good work!"
    (Some "https://images.unsplash.com/photo-1628160205073-b26a117b9b00?auto=format&fit=crop&q=80&w=800")
    None)
          ∧ delete (0 `min` (length MockData.c1_slides - 1)) l'
            = delete 3 MockData.c1_slides.
Proof.
  assert (Hne : 3 ≠ 0) by lia.
  exact (conj eq_refl (conj Hne
          (drop_moves_one_slide MockData.c1_slides 3 0 _ eq_refl Hne))).
Defined.

(** The guards of a drop: nothing is set when no row is being dragged
    or when the slide is dropped on its own row; and a dragged index past
    the list, which the handler does not check, puts an [undefined] entry
    into the list, which grows by one. *)
Theorem drop_guards (slides : list Slide) (from to : nat) :
  onDrop slides None to = None
  ∧ onDrop slides (Some to) to = None
  ∧ (length slides <= from → from ≠ to →
     ∃ l, onDrop slides (Some from) to = Some l
          ∧ None ∈ l
          ∧ length l = S (length slides)).
Proof.
  split; [reflexivity|]. split.
  - unfold onDrop. rewrite bool_decide_eq_true_2 by reflexivity. reflexivity.
  - intros Hge Hne. unfold onDrop, moveEntry.
    rewrite bool_decide_eq_false_2 by exact Hne.
    rewrite (lookup_ge_None_2 _ _ Hge).
    eexists. split; [reflexivity|]. split.
    + apply elem_of_app. right. apply elem_of_cons. left. reflexivity.
    + assert (Hsame : delete from slides = slides).
      { rewrite delete_take_drop, take_ge, drop_ge by lia.
        apply app_nil_r. }
      rewrite Hsame, !length_app, length_take, length_drop, length_fmap.
      simpl. lia.
Qed.

Lemma drop_guards_witness :
  length MockData.c1_slides <= 9
  ∧ 9 ≠ 0
  ∧ ∃ l, onDrop MockData.c1_slides (Some 9) 0 = Some l
         ∧ None ∈ l
         ∧ length l = S (length MockData.c1_slides).
Proof.
  assert (Hge : length MockData.c1_slides <= 9) by (simpl; lia).
  assert (Hne : 9 ≠ 0) by lia.
  exact (conj Hge (conj Hne
          (proj2 (proj2 (drop_guards MockData.c1_slides 9 0)) Hge Hne))).
Defined.

End SlideList.

(* ===================================================================== *)
(** ** The course builder: the slide form *)
(* ===================================================================== *)

Section SlideForm.
Import SlideEditor Examples.
Variable getEmbedUrl : string → string.
Variable isBlank : string → bool.

(** The entry at [i], when it passes the filter, is found in the filtered
    list after the entries before it that pass. *)
Lemma filter_lookup_kept {A : Type} (f : A → bool) (l : list A) (i : nat)
      (x : A) :
  l !! i = Some x →
  f x = true →
  List.filter f l !! length (List.filter f (take i l)) = Some x.
Proof.
  intros Hx Hf.
  replace (List.filter f l)
    with (List.filter f (take i l ++ x :: drop (S i) l))
    by (rewrite (take_drop_middle l i x Hx); reflexivity).
  rewrite List.filter_app. simpl. rewrite Hf.
  apply list_lookup_middle. reflexivity.
Qed.

Lemma filter_all_kept {A : Type} (f : A → bool) (l : list A) :
  Forall (fun x => f x = true) l → List.filter f l = l.
Proof.
  induction 1 as [|x l Hx _ IH]; [reflexivity|].
  simpl. rewrite Hx, IH. reflexivity.
Qed.

Lemma filter_shorter {A : Type} (f : A → bool) (l : list A) :
  Exists (fun x => f x = false) l → length (List.filter f l) < length l.
Proof.
  induction 1 as [x l Hx|x l _ IH]; simpl.
  - rewrite Hx. pose proof (List.filter_length_le f l). lia.
  - destruct (f x); simpl; lia.
Qed.

(** X22. Saving a quiz slide drops the blank options but keeps the marked
    index as it is.  The option the author marked (when it is not blank)
    ends up at the marked index minus the number of blank options before
    it: the saved correct index points at the marked option when no option
    before it is blank, and past it otherwise. *)
Theorem saved_quiz_keeps_marked_index (freshId : string) (f : Form)
        (text : string) :
  quizOptions f !! quizCorrectIdx f = Some text →
  isBlank text = false →
  ∃ q, quizData (newSlide getEmbedUrl isBlank freshId quiz f) = Some q
       ∧ correctIndex q = quizCorrectIdx f
       ∧ Forall (fun o => isBlank o = false) (options q)
       ∧ options q
           !! length (List.filter (fun o => negb (isBlank o))
                                  (take (quizCorrectIdx f) (quizOptions f)))
         = Some text
       ∧ (Forall (fun o => isBlank o = false)
                 (take (quizCorrectIdx f) (quizOptions f)) →
          options q !! correctIndex q = Some text)
       ∧ (Exists (fun o => isBlank o = true)
                 (take (quizCorrectIdx f) (quizOptions f)) →
          length (List.filter (fun o => negb (isBlank o))
                              (take (quizCorrectIdx f) (quizOptions f)))
          < correctIndex q).
Proof.
  intros Htext Hnb. unfold newSlide. simpl. eexists. split; [reflexivity|].
  simpl. split; [reflexivity|]. split; [|split; [|split]].
  - apply Forall_forall. intros o Hin.
    apply list_elem_of_In, filter_In in Hin as [_ Ho].
    apply negb_true_iff in Ho. exact Ho.
  - apply filter_lookup_kept; [exact Htext|]. rewrite Hnb. reflexivity.
  - intros Hall.
    pose proof (filter_lookup_kept (fun o => negb (isBlank o)) _ _ _ Htext)
      as Hk.
    rewrite filter_all_kept in Hk.
    + rewrite length_take in Hk.
      pose proof (lookup_lt_Some _ _ _ Htext) as Hlt.
      rewrite Nat.min_l in Hk by lia. apply Hk. rewrite Hnb. reflexivity.
    + eapply Forall_impl; [exact Hall|]. intros o Ho. simpl in Ho.
      rewrite Ho. reflexivity.
  - intros Hex.
    pose proof (lookup_lt_Some _ _ _ Htext) as Hlt.
    assert (Hlen : length (take (quizCorrectIdx f) (quizOptions f))
                   = quizCorrectIdx f)
      by (rewrite length_take; lia).
    pose proof (filter_shorter (fun o => negb (isBlank o))
                  (take (quizCorrectIdx f) (quizOptions f))) as Hshort.
    rewrite Hlen in Hshort. apply Hshort.
    eapply Exists_impl; [exact Hex|]. intros o Ho. simpl in Ho.
    rewrite Ho. reflexivity.
Qed.

Lemma same_id_same_slide (l : list Slide) (s s' : Slide) :
  NoDup (map slide_id l) → s ∈ l → s' ∈ l → slide_id s' = slide_id s →
  s' = s.
Proof.
  intros Hnd Hs Hs' Hid.
  apply list_elem_of_lookup in Hs as [i Hi].
  apply list_elem_of_lookup in Hs' as [j Hj].
  assert (Hmi : map slide_id l !! i = Some (slide_id s))
    by (change (map ?f ?l) with (f <$> l);
        rewrite list_lookup_fmap, Hi; reflexivity).
  assert (Hmj : map slide_id l !! j = Some (slide_id s))
    by (change (map ?f ?l) with (f <$> l);
        rewrite list_lookup_fmap, Hj; simpl; congruence).
  pose proof (NoDup_lookup _ _ _ _ Hnd Hmi Hmj) as ->. congruence.
Qed.

Lemma truthy_true (s : string) : s ≠ "" → truthy s = true.
Proof.
  intros H. unfold truthy. rewrite bool_decide_eq_false_2 by exact H.
  reflexivity.
Qed.

(** X23. Opening a slide in the form and saving it unchanged gives the
    slide list back, for a slide as the builder itself saves them: a
    non-empty id, no empty image string, a video address that the embed
    helper leaves alone, quiz data only on a quiz, and on a quiz the title
    "Knowledge Check" and no blank option.  (The ids of the list are
    distinct.) *)
Theorem edit_then_save_gives_back (freshId : string) (b : Builder)
        (s : Slide) :
  s ∈ b_slides b →
  NoDup (map slide_id (b_slides b)) →
  slide_id s ≠ "" →
  slide_image s ≠ Some "" →
  (slide_type s = video → getEmbedUrl (slide_content s) = slide_content s) →
  (slide_type s = quiz →
   slide_title s = "Knowledge Check"
   ∧ ∃ q, quizData s = Some q
          ∧ Forall (fun o => isBlank o = false) (options q)) →
  (slide_type s ≠ quiz → quizData s = None) →
  handleSaveSlide getEmbedUrl isBlank freshId (handleEditSlide b s)
  = {| b_slides := b_slides b; b_form := emptyForm |}.
Proof.
  intros Hin Hnd Hid Himg Hvideo Hquiz Hplain.
  unfold handleSaveSlide, handleEditSlide. simpl.
  rewrite (truthy_true _ Hid). f_equal.
  assert (Hsame : newSlide getEmbedUrl isBlank freshId (slide_type s)
            {| activeSlideType := Some (slide_type s);
               editingSlideId := Some (slide_id s);
               slideTitle := slide_title s;
               slideContent := slide_content s;
               slideImage := default "" (slide_image s);
               quizQuestion :=
                 match quizData s with
                 | Some q =>
                     if is_quiz s && bool_decide (is_Some (quizData s))
                     then question q else quizQuestion (b_form b)
                 | None => quizQuestion (b_form b)
                 end;
               quizOptions :=
                 match quizData s with
                 | Some q =>
                     if is_quiz s && bool_decide (is_Some (quizData s))
                     then options q else quizOptions (b_form b)
                 | None => quizOptions (b_form b)
                 end;
               quizCorrectIdx :=
                 match quizData s with
                 | Some q =>
                     if is_quiz s && bool_decide (is_Some (quizData s))
                     then correctIndex q else quizCorrectIdx (b_form b)
                 | None => quizCorrectIdx (b_form b)
                 end |} = s).
  { unfold newSlide, is_quiz. simpl. rewrite (truthy_true _ Hid).
    destruct s as [id ty title content image qd]. simpl in *.
    f_equal.
    - destruct ty; simpl; try reflexivity.
      symmetry. apply Hquiz. reflexivity.
    - destruct ty; simpl; try reflexivity. apply Hvideo. reflexivity.
    - destruct image as [img|]; simpl; [|reflexivity].
      rewrite truthy_true; [reflexivity|]. intros ->. apply Himg.
      reflexivity.
    - destruct ty; simpl;
        try (symmetry; apply Hplain; discriminate).
      destruct (Hquiz eq_refl) as (_ & q & -> & Hall).
      rewrite (bool_decide_eq_true_2 (is_Some (Some q))) by eauto.
      simpl. destruct q as [qq opts ci]. simpl in *. do 2 f_equal.
      apply filter_all_kept.
      eapply Forall_impl; [exact Hall|]. intros o Ho. simpl in Ho.
      rewrite Ho. reflexivity. }
  rewrite Hsame. clear Hsame.
  rewrite <- (map_id (b_slides b)) at 2. apply map_ext_in.
  intros s' Hs'. case_bool_decide as Heq; [|reflexivity].
  symmetry. apply (same_id_same_slide (b_slides b)); auto.
  apply list_elem_of_In. exact Hs'.
Qed.

(** X24. The builder keeps the ids of the slide list distinct: saving the
    form keeps them when an existing slide is edited, and when a slide is
    added under an id that is not in the list yet; removing a slide keeps
    them and leaves no slide with the removed id; a drop keeps them. *)
Theorem builder_keeps_slide_ids_distinct (freshId : string) (b : Builder)
        (id : string) (from to : nat) (item : Slide) :
  NoDup (map slide_id (b_slides b)) →
  (freshId ∉ map slide_id (b_slides b) →
   NoDup (map slide_id
            (b_slides (handleSaveSlide getEmbedUrl isBlank freshId b))))
  ∧ (∀ id', editingSlideId (b_form b) = Some id' → id' ≠ "" →
       map slide_id
         (b_slides (handleSaveSlide getEmbedUrl isBlank freshId b))
       = map slide_id (b_slides b))
  ∧ NoDup (map slide_id (b_slides (removeSlide b id)))
  ∧ (id ∉ map slide_id (b_slides (removeSlide b id)))
  ∧ (b_slides b !! from = Some item → from ≠ to →
     ∃ l', onDrop (b_slides b) (Some from) to = Some (Some <$> l')
           ∧ NoDup (map slide_id l')).
Proof.
  intros Hnd. split; [|split; [|split; [|split]]].
  - intros Hfresh. unfold handleSaveSlide.
    destruct (activeSlideType (b_form b)) as [ty|]; [|exact Hnd]. simpl.
    assert (Happend : NoDup (map slide_id (b_slides b) ++ [freshId])).
    { apply NoDup_app. split; [exact Hnd|]. split.
      - intros x Hx Hx'. apply list_elem_of_singleton in Hx'. congruence.
      - apply NoDup_singleton. }
    destruct (editingSlideId (b_form b)) as [id'|] eqn:He.
    + destruct (truthy id') eqn:Ht.
      * rewrite map_map.
        replace (map _ (b_slides b)) with (map slide_id (b_slides b));
          [exact Hnd|].
        apply map_ext. intros s'. case_bool_decide as Heq; [|reflexivity].
        unfold newSlide. rewrite He. simpl. rewrite Ht. congruence.
      * rewrite map_app. unfold newSlide. rewrite He. simpl. rewrite Ht.
        exact Happend.
    + rewrite map_app. unfold newSlide. rewrite He. simpl. exact Happend.
  - intros id' He Hne. unfold handleSaveSlide.
    destruct (activeSlideType (b_form b)) as [ty|]; [|reflexivity]. simpl.
    rewrite He, (truthy_true _ Hne), map_map.
    apply map_ext. intros s'. case_bool_decide as Heq; [|reflexivity].
    unfold newSlide. rewrite He. simpl. rewrite (truthy_true _ Hne).
    congruence.
  - simpl. induction (b_slides b) as [|s l IH]; [constructor|].
    simpl in Hnd. apply NoDup_cons in Hnd as [Hs Hl]. simpl.
    destruct (negb (bool_decide (slide_id s = id))); [|auto].
    simpl. apply NoDup_cons. split; [|auto].
    intros Hin. apply Hs.
    apply list_elem_of_In, in_map_iff in Hin as (v & Hid & Hin).
    apply filter_In in Hin as [Hin _].
    apply list_elem_of_In, in_map_iff. eauto.
  - simpl. intros Hin.
    apply list_elem_of_In, in_map_iff in Hin as (v & Hid & Hin).
    apply filter_In in Hin as [_ Hkeep].
    rewrite (bool_decide_eq_true_2 _ Hid) in Hkeep. discriminate Hkeep.
  - intros Hitem Hne. unfold onDrop.
    rewrite bool_decide_eq_false_2 by exact Hne.
    rewrite (moveEntry_defined _ from to item Hitem).
    eexists. split; [reflexivity|].
    assert (Hperm : take to (delete from (b_slides b)) ++ [item]
                      ++ drop to (delete from (b_slides b))
                    ≡ₚ b_slides b).
    { simpl. rewrite <- Permutation_middle, take_drop.
      symmetry. apply delete_Permutation. exact Hitem. }
    change (map ?f ?l) with (f <$> l). rewrite Hperm. exact Hnd.
Qed.

End SlideForm.

Section SlideFormExamples.
Import SlideEditor Examples Cases.

Lemma saved_quiz_keeps_marked_index_witness :
  quizOptions shiftedForm !! quizCorrectIdx shiftedForm = Some "yes"
  ∧ emptyIsBlank "yes" = false
  ∧ quizData (newSlide keepUrl emptyIsBlank "s-1" quiz shiftedForm)
    = Some (mkQuizData "Ready?" ["yes"; "no"] 1)
  ∧ ∃ q, quizData (newSlide keepUrl emptyIsBlank "s-1" quiz shiftedForm)
         = Some q
         ∧ correctIndex q = quizCorrectIdx shiftedForm
         ∧ Forall (fun o => emptyIsBlank o = false) (options q)
         ∧ options q
             !! length (List.filter (fun o => negb (emptyIsBlank o))
                          (take (quizCorrectIdx shiftedForm)
                                (quizOptions shiftedForm)))
           = Some "yes"
         ∧ (Forall (fun o => emptyIsBlank o = false)
                   (take (quizCorrectIdx shiftedForm)
                         (quizOptions shiftedForm)) →
            options q !! correctIndex q = Some "yes")
         ∧ (Exists (fun o => emptyIsBlank o = true)
                   (take (quizCorrectIdx shiftedForm)
                         (quizOptions shiftedForm)) →
            length (List.filter (fun o => negb (emptyIsBlank o))
                      (take (quizCorrectIdx shiftedForm)
                            (quizOptions shiftedForm)))
            < correctIndex q).
Proof.
  exact (conj eq_refl (conj eq_refl (conj eq_refl
          (saved_quiz_keeps_marked_index keepUrl emptyIsBlank "s-1"
             shiftedForm "yes" eq_refl eq_refl)))).
Defined.

(** On that form the saved quiz counts "no" as the right answer, although
    the author marked "yes". *)
Lemma blank_option_shifts_the_answer :
  ∃ q, quizData (newSlide keepUrl emptyIsBlank "s-1" quiz shiftedForm)
       = Some q
       ∧ quizOptions shiftedForm !! quizCorrectIdx shiftedForm = Some "yes"
       ∧ options q !! correctIndex q = Some "no".
Proof. eexists. repeat split. Qed.

Lemma c1_slide_ids_distinct : NoDup (map slide_id (b_slides c1Builder)).
Proof. apply (bool_decide_unpack _). vm_compute. exact I. Qed.

Lemma edit_then_save_gives_back_witness :
  s1 ∈ b_slides c1Builder
  ∧ NoDup (map slide_id (b_slides c1Builder))
  ∧ slide_id s1 ≠ ""
  ∧ slide_image s1 ≠ Some ""
  ∧ handleSaveSlide keepUrl emptyIsBlank "s-1" (handleEditSlide c1Builder s1)
    = {| b_slides := b_slides c1Builder; b_form := emptyForm |}.
Proof.
  assert (Hin : s1 ∈ b_slides c1Builder)
    by (apply list_elem_of_lookup; exists 0; reflexivity).
  assert (Hid : slide_id s1 ≠ "") by discriminate.
  assert (Himg : slide_image s1 ≠ Some "") by discriminate.
  refine (conj Hin (conj c1_slide_ids_distinct (conj Hid (conj Himg
           (edit_then_save_gives_back keepUrl emptyIsBlank "s-1" c1Builder s1
              Hin c1_slide_ids_distinct Hid Himg _ _ _))))).
  - intros H. discriminate H.
  - intros H. discriminate H.
  - intros _. reflexivity.
Defined.

(** A quiz slide that was not saved by the builder comes back renamed:
    the seed quiz "Quick Check" becomes "Knowledge Check". *)
Lemma resave_renames_seed_quiz :
  b_slides (handleSaveSlide keepUrl emptyIsBlank "s-1"
              (handleEditSlide c1Builder s3)) !! 2
  = Some (mkSlide "s3" quiz "Knowledge Check" "" None (quizData s3)).
Proof. reflexivity. Qed.

Lemma builder_keeps_slide_ids_distinct_witness :
  NoDup (map slide_id (b_slides c1Builder))
  ∧ ("s-1" ∉ map slide_id (b_slides c1Builder))
  ∧ NoDup (map slide_id
             (b_slides (handleSaveSlide keepUrl emptyIsBlank "s-1"
                          (mkBuilder MockData.c1_slides shiftedForm))))
  ∧ NoDup (map slide_id (b_slides (removeSlide c1Builder "s2")))
  ∧ ("s2" ∉ map slide_id (b_slides (removeSlide c1Builder "s2")))
  ∧ b_slides c1Builder !! 0 = Some s1
  ∧ ∃ l', onDrop (b_slides c1Builder) (Some 0) 2 = Some (Some <$> l')
          ∧ NoDup (map slide_id l').
Proof.
  assert (Hfresh : "s-1" ∉ map slide_id (b_slides c1Builder))
    by (apply (bool_decide_unpack _); vm_compute; exact I).
  assert (Hne : 0 ≠ 2) by lia.
  destruct (builder_keeps_slide_ids_distinct keepUrl emptyIsBlank "s-1"
              (mkBuilder MockData.c1_slides shiftedForm) "s2" 0 2 s1
              c1_slide_ids_distinct) as (T1 & _ & _ & _ & _).
  destruct (builder_keeps_slide_ids_distinct keepUrl emptyIsBlank "s-1"
              c1Builder "s2" 0 2 s1 c1_slide_ids_distinct)
    as (_ & _ & T3 & T4 & T5).
  exact (conj c1_slide_ids_distinct (conj Hfresh (conj (T1 Hfresh)
          (conj T3 (conj T4 (conj eq_refl (T5 eq_refl Hne))))))).
Defined.

End SlideFormExamples.

(* ===================================================================== *)
(** ** The course builder and the player together *)
(* ===================================================================== *)

Section BuilderAndPlayer.
Import CoursePlayer Sessions SlideEditor Examples Cases.
Variable getEmbedUrl : string → string.
Variable isBlank : string → bool.

(** X25. The builder saves a quiz slide without checking the marked
    index: when the index is not below the number of options that are
    kept (as on the untouched form, whose two options are blank), no
    session can complete a course that holds the saved slide, in the
    preview or in the application. *)
Theorem saved_quiz_can_block_the_course
        (freshId : string) (f : Form) (p : Props) (i : nat)
        (evs : list Event) (st : CoursePlayer.State) (calls : list Call) :
  length (List.filter (fun o => negb (isBlank o)) (quizOptions f))
    <= quizCorrectIdx f →
  slides (course p) !! i
  = Some (newSlide getEmbedUrl isBlank freshId quiz f) →
  play p initialState evs = Returned (st, calls) →
  reportedXp calls = None ∧ currentSlideIndex st <= i.
Proof.
  intros Hidx Hslide Hplay.
  destruct (play_blocked p i _ evs initialState st calls Hslide eq_refl)
    as [Hno Hle]; auto.
  - intros q [= <-]. simpl. exact Hidx.
  - apply selectionInRange_initial.
  - simpl. lia.
  - split; [|exact Hle]. apply reportedXp_none. exact Hno.
Qed.

End BuilderAndPlayer.

Section BuilderAndPlayerExamples.
Import CoursePlayer Sessions SlideEditor Examples Cases.

Lemma saved_quiz_can_block_the_course_witness :
  length (List.filter (fun o => negb (emptyIsBlank o))
                      (quizOptions (mkForm (Some quiz) None "" "" "" ""
                                           [""; ""] 0)))
    <= quizCorrectIdx (mkForm (Some quiz) None "" "" "" "" [""; ""] 0)
  ∧ slides (course pBlocked) !! 1
    = Some (newSlide keepUrl emptyIsBlank "s-1700000000000" quiz
              (mkForm (Some quiz) None "" "" "" "" [""; ""] 0))
  ∧ ∃ st calls,
      play pBlocked initialState
           [Continue; SelectOption 0; CheckAnswer; Continue]
      = Returned (st, calls)
      ∧ reportedXp calls = None ∧ currentSlideIndex st <= 1.
Proof.
  assert (Hidx :
    length (List.filter (fun o => negb (emptyIsBlank o))
                        (quizOptions (mkForm (Some quiz) None "" "" "" ""
                                             [""; ""] 0)))
    <= quizCorrectIdx (mkForm (Some quiz) None "" "" "" "" [""; ""] 0))
    by (simpl; lia).
  split; [exact Hidx|]. split; [reflexivity|].
  eexists _, _. split; [vm_compute; reflexivity|].
  eapply (saved_quiz_can_block_the_course keepUrl emptyIsBlank
            "s-1700000000000"
            (mkForm (Some quiz) None "" "" "" "" [""; ""] 0)
            pBlocked 1 [Continue; SelectOption 0; CheckAnswer; Continue]).
  - exact Hidx.
  - reflexivity.
  - vm_compute. reflexivity.
Defined.

End BuilderAndPlayerExamples.

(* ===================================================================== *)
(** ** The application: importing the same list twice *)
(* ===================================================================== *)

Section ImportTwice.
Import App AppHandlers Examples.

Local Abbreviation ids l := (map user_id l).
Local Abbreviation withId x := (fun a : User => bool_decide (user_id a = x)).

Lemma earlier_ids (l : list User) (j j' : nat) (u' : User) (x : string) :
  x ∉ take j (ids l) → j' < j → l !! j' = Some u' → user_id u' ≠ x.
Proof.
  intros Hx Hlt Hu' <-. apply Hx.
  apply list_elem_of_lookup. exists j'.
  rewrite lookup_take_lt by exact Hlt.
  change (map ?f ?l) with (f <$> l). rewrite list_lookup_fmap, Hu'.
  reflexivity.
Qed.

Lemma mergeImported_id (rev : Revision) (old imported : User) :
  user_id imported = user_id old →
  user_id (mergeImported rev old imported) = user_id old.
Proof. intros H. destruct rev; simpl; congruence. Qed.

Lemma foldl_merge_id (rev : Revision) (M : list User) (u : User) :
  Forall (fun a => user_id a = user_id u) M →
  user_id (foldl (mergeImported rev) u M) = user_id u.
Proof.
  revert u. induction M as [|a M IH]; intros u HM; [reflexivity|].
  inversion HM as [|? ? Ha HM']; subst. simpl.
  rewrite IH.
  - apply mergeImported_id. exact Ha.
  - eapply Forall_impl; [exact HM'|]. intros b Hb. simpl in Hb.
    rewrite mergeImported_id by exact Ha. exact Hb.
Qed.

Lemma filter_withId_Forall (x : string) (L : list User) :
  Forall (fun a => user_id a = x) (List.filter (withId x) L).
Proof.
  apply Forall_forall. intros a Ha.
  apply list_elem_of_In, filter_In in Ha as [_ Ha].
  apply bool_decide_eq_true in Ha. exact Ha.
Qed.

(** The ids before an import step are a prefix of the ids after it. *)
Lemma importOne_ids_prefix (rev : Revision) (l : list User) (a : User) :
  ids l `prefix_of` ids (importOne rev l a).
Proof. apply importOne_ids_grow. Qed.

Lemma take_prefix_ids (l l' : list string) (j : nat) :
  l `prefix_of` l' → j <= length l → take j l' = take j l.
Proof.
  intros [k ->] Hj. rewrite take_app_le by exact Hj. reflexivity.
Qed.

(** One import step at the first entry with a given id. *)
Lemma importOne_lookup_first (rev : Revision) (l : list User) (a : User)
      (j : nat) (u : User) :
  l !! j = Some u →
  user_id u ∉ take j (ids l) →
  importOne rev l a !! j
  = Some (if bool_decide (user_id a = user_id u)
          then mergeImported rev u a else u).
Proof.
  intros Hj Hfirst. unfold importOne.
  pose proof (lookup_lt_Some _ _ _ Hj) as Hlt.
  destruct (list_find _ l) as [[i old]|] eqn:Hf.
  - apply list_find_Some in Hf as (Hi & Hid & Hmin).
    case_bool_decide as Ha.
    + assert (i = j) as ->.
      { destruct (Nat.lt_trichotomy i j) as [Hlt'|[->|Hgt]]; [|reflexivity|].
        - exfalso. apply (earlier_ids l j i old (user_id u) Hfirst Hlt' Hi).
          congruence.
        - exfalso. apply (Hmin j u Hj Hgt). congruence. }
      rewrite list_lookup_insert_eq by exact Hlt. congruence.
    + rewrite list_lookup_insert_ne; [exact Hj|].
      intros ->. apply Ha. congruence.
  - rewrite lookup_app_l by exact Hlt.
    rewrite bool_decide_eq_false_2; [exact Hj|].
    intros Ha. pose proof (proj1 (list_find_None _ _) Hf) as Hall.
    rewrite Forall_forall in Hall. apply (Hall u); [|congruence].
    apply list_elem_of_lookup. eauto.
Qed.

(** An import at the first entry with a given id: the entry takes, in
    order, the imported records that carry its id. *)
Lemma foldl_lookup_first (rev : Revision) (L : list User) (l : list User)
      (j : nat) (u : User) :
  l !! j = Some u →
  user_id u ∉ take j (ids l) →
  foldl (importOne rev) l L !! j
  = Some (foldl (mergeImported rev) u (List.filter (withId (user_id u)) L)).
Proof.
  revert l u. induction L as [|a L IH]; intros l u Hj Hfirst; [exact Hj|].
  simpl foldl at 1.
  pose proof (importOne_lookup_first rev l a j u Hj Hfirst) as H1.
  pose proof (lookup_lt_Some _ _ _ Hj) as Hlt.
  assert (Htake : take j (ids (importOne rev l a)) = take j (ids l)).
  { apply take_prefix_ids; [apply importOne_ids_prefix|].
    rewrite length_map. lia. }
  simpl List.filter. case_bool_decide as Ha.
  - rewrite (IH _ _ H1).
    + rewrite mergeImported_id by exact Ha. reflexivity.
    + rewrite mergeImported_id by exact Ha. rewrite Htake. exact Hfirst.
  - apply (IH _ _ H1). rewrite Htake. exact Hfirst.
Qed.

(** An entry that an earlier entry with the same id shadows is never
    touched. *)
Lemma foldl_lookup_shadowed (rev : Revision) (L : list User) (l : list User)
      (j : nat) (u : User) :
  l !! j = Some u →
  user_id u ∈ take j (ids l) →
  foldl (importOne rev) l L !! j = Some u.
Proof.
  revert l. induction L as [|a L IH]; intros l Hj Hsh; [exact Hj|].
  simpl. pose proof (lookup_lt_Some _ _ _ Hj) as Hlt.
  apply IH.
  - unfold importOne.
    destruct (list_find _ l) as [[i old]|] eqn:Hf.
    + apply list_find_Some in Hf as (Hi & Hid & Hmin).
      rewrite list_lookup_insert_ne; [exact Hj|].
      intros ->. assert (old = u) as -> by congruence.
      apply list_elem_of_lookup in Hsh as [j' Hj'].
      pose proof (lookup_lt_Some _ _ _ Hj') as Hj'lt.
      rewrite length_take in Hj'lt.
      rewrite lookup_take_lt in Hj' by lia.
      change (map ?f ?l) with (f <$> l) in Hj'.
      rewrite list_lookup_fmap in Hj'.
      destruct (l !! j') as [u'|] eqn:Hu'; [|discriminate].
      injection Hj' as Hj'. apply (Hmin j' u' Hu'); [lia|]. congruence.
    + rewrite lookup_app_l by exact Hlt. exact Hj.
  - rewrite (take_prefix_ids (ids l)); [exact Hsh| |rewrite length_map; lia].
    apply importOne_ids_prefix.
Qed.

(** Where an appended entry comes from. *)
Lemma foldl_lookup_appended (rev : Revision) (L : list User) (l : list User)
      (j : nat) (r : User) :
  foldl (importOne rev) l L !! j = Some r →
  length l <= j →
  ∃ L1 a L2,
    L = L1 ++ a :: L2
    ∧ List.filter (withId (user_id a)) L1 = []
    ∧ (user_id a ∉ ids l)
    ∧ r = foldl (mergeImported rev) a (List.filter (withId (user_id a)) L2).
Proof.
  revert l. induction L as [|b L IH]; intros l Hr Hge.
  - simpl in Hr. apply lookup_lt_Some in Hr. lia.
  - simpl in Hr.
    pose proof (importOne_ids rev l b) as Hids.
    destruct (idTaken (user_id b) l) eqn:Ht.
    + assert (Hlen : length (importOne rev l b) = length l).
      { rewrite <- (length_map user_id), Hids, length_map. reflexivity. }
      destruct (IH _ Hr) as (L1 & a & L2 & -> & Hno & Hnew & ->); [lia|].
      rewrite Hids in Hnew. apply idTaken_true in Ht.
      exists (b :: L1), a, L2. split; [reflexivity|]. split; [|auto].
      simpl. rewrite bool_decide_eq_false_2; [exact Hno|].
      intros Hb. apply Hnew. rewrite <- Hb. exact Ht.
    + assert (Hl1 : importOne rev l b = l ++ [b]).
      { unfold importOne.
        destruct (list_find _ l) as [[i old]|] eqn:Hf; [|reflexivity].
        apply list_find_Some in Hf as (Hi & Hid & _).
        apply idTaken_false in Ht. exfalso. apply Ht. rewrite <- Hid.
        apply list_elem_of_In, in_map, list_elem_of_In.
        apply list_elem_of_lookup. eauto. }
      apply idTaken_false in Ht.
      destruct (decide (j = length l)) as [->|Hne].
      * rewrite Hl1 in Hr.
        rewrite (foldl_lookup_first rev L (l ++ [b]) (length l) b) in Hr.
        -- injection Hr as <-. exists [], b, L. auto.
        -- apply list_lookup_middle. reflexivity.
        -- rewrite map_app, take_app_le, take_ge
             by (rewrite ?length_map; lia). exact Ht.
      * destruct (IH _ Hr) as (L1 & a & L2 & -> & Hno & Hnew & ->).
        { rewrite Hl1, length_app. simpl. lia. }
        rewrite Hids in Hnew.
        exists (b :: L1), a, L2. split; [reflexivity|]. split; [|split].
        -- simpl. rewrite bool_decide_eq_false_2; [exact Hno|].
           intros Hb. apply Hnew. apply elem_of_app. right.
           apply list_elem_of_singleton. congruence.
        -- intros Hin. apply Hnew. apply elem_of_app. auto.
        -- reflexivity.
Qed.

(** When every imported id is in the collection, an import changes no
    id. *)
Lemma foldl_ids_saturated (rev : Revision) (L : list User) (l : list User) :
  (∀ a, a ∈ L → user_id a ∈ ids l) →
  ids (foldl (importOne rev) l L) = ids l.
Proof.
  revert l. induction L as [|a L IH]; intros l Hall; [reflexivity|].
  simpl.
  assert (Hone : ids (importOne rev l a) = ids l).
  { rewrite importOne_ids.
    rewrite (proj2 (idTaken_true _ _)); [reflexivity|].
    apply Hall. apply elem_of_cons. auto. }
  rewrite IH; [exact Hone|].
  intros b Hb. rewrite Hone. apply Hall. apply elem_of_cons. auto.
Qed.

(** *** What repeated merges leave *)

Lemma merge_local_over (u a b : User) :
  mergeImported LocalStorageApp (mergeImported LocalStorageApp u a) b
  = mergeImported LocalStorageApp u b.
Proof. reflexivity. Qed.

Lemma merge_local_last (M : list User) (u z : User) :
  mergeImported LocalStorageApp (foldl (mergeImported LocalStorageApp) u M) z
  = mergeImported LocalStorageApp u z.
Proof.
  revert u. induction M as [|a M IH]; intros u; [reflexivity|].
  cbn [foldl]. rewrite IH. apply merge_local_over.
Qed.

Lemma merge_self (rev : Revision) (a : User) : mergeImported rev a a = a.
Proof.
  destruct a as [id pin name role avatar xp streak badges done qa].
  destruct rev; simpl; [reflexivity|]. destruct qa; reflexivity.
Qed.

Lemma merge_api_attempts (v z : User) :
  user_quizAttempts (mergeImported ApiApp v z)
  = keepAttempts z (user_quizAttempts v).
Proof. reflexivity. Qed.

Lemma merge_api_dep (v v' z : User) :
  keepAttempts z (user_quizAttempts v) = keepAttempts z (user_quizAttempts v') →
  mergeImported ApiApp v z = mergeImported ApiApp v' z.
Proof.
  unfold keepAttempts. intros H. unfold mergeImported. f_equal. exact H.
Qed.

Lemma foldl_api_attempts (M : list User) (u : User) :
  user_quizAttempts (foldl (mergeImported ApiApp) u M)
  = foldl (fun q a => keepAttempts a q) (user_quizAttempts u) M.
Proof.
  revert u. induction M as [|a M IH]; intros u; [reflexivity|].
  simpl. rewrite IH. reflexivity.
Qed.

Lemma keepAttempts_absorb (M : list User) (q : option (list QuizAttempt)) :
  foldl (fun q a => keepAttempts a q)
        (foldl (fun q a => keepAttempts a q) q M) M
  = foldl (fun q a => keepAttempts a q) q M.
Proof.
  revert q. induction M as [|z M IH] using rev_ind; intros q;
    [reflexivity|].
  rewrite !foldl_app. cbn [foldl]. unfold keepAttempts in *.
  destruct (user_quizAttempts z) as [x|]; [reflexivity|]. apply IH.
Qed.

(** Merging a list into the result of merging it changes nothing. *)
Lemma merge_all_twice (rev : Revision) (M : list User) (u : User) :
  foldl (mergeImported rev) (foldl (mergeImported rev) u M) M
  = foldl (mergeImported rev) u M.
Proof.
  destruct M as [|z M _] using rev_ind; [reflexivity|].
  rewrite !foldl_app. cbn [foldl]. destruct rev.
  - rewrite !merge_local_last. reflexivity.
  - apply merge_api_dep.
    rewrite !foldl_api_attempts, merge_api_attempts, foldl_api_attempts.
    pose proof (keepAttempts_absorb M (user_quizAttempts u)) as Habs.
    unfold keepAttempts in *.
    destruct (user_quizAttempts z) as [x|]; [reflexivity|]. exact Habs.
Qed.

(** The same for an appended record, which the list starts with. *)
Lemma merge_all_twice_new (rev : Revision) (M : list User) (a : User) :
  foldl (mergeImported rev) (foldl (mergeImported rev) a M) (a :: M)
  = foldl (mergeImported rev) a M.
Proof.
  destruct M as [|z M _] using rev_ind; [apply merge_self|].
  change (a :: M ++ [z]) with ((a :: M) ++ [z]).
  rewrite !foldl_app. cbn [foldl]. destruct rev.
  - rewrite !merge_local_last. reflexivity.
  - apply merge_api_dep.
    rewrite !foldl_api_attempts, !merge_api_attempts, !foldl_api_attempts.
    pose proof (keepAttempts_absorb M (user_quizAttempts a)) as Habs.
    unfold keepAttempts in *.
    destruct (user_quizAttempts z) as [x|]; [reflexivity|].
    destruct (user_quizAttempts a) as [y|]; [reflexivity|]. exact Habs.
Qed.

(** X26. Importing the same list a second time changes no user, in both
    revisions and whatever the list (ids may repeat in it, and in the
    collection): after one import every record of the collection already
    holds what the list would give it. *)
Theorem import_twice_changes_nothing (rev : Revision) (st : State)
        (imported : list User) :
  users (handleImportUsers rev (handleImportUsers rev st imported).1
           imported).1
  = users (handleImportUsers rev st imported).1.
Proof.
  cbn [handleImportUsers fst users].
  generalize (users st). intros l.
  destruct (foldl_importOne_ids rev imported l) as (_ & Hpre & Hsat).
  remember (foldl (importOne rev) l imported) as R eqn:HR.
  pose proof (foldl_ids_saturated rev imported R Hsat) as Hids.
  apply list_eq. intros j.
  destruct (R !! j) as [r|] eqn:Hr.
  2:{ apply lookup_ge_None. apply lookup_ge_None in Hr.
      rewrite <- (length_map user_id), Hids, length_map. exact Hr. }
  destruct (decide (user_id r ∈ take j (ids R))) as [Hsh|Hfirst].
  { apply foldl_lookup_shadowed; assumption. }
  rewrite (foldl_lookup_first rev imported R j r Hr Hfirst).
  f_equal.
  assert (HidR : ids R !! j = Some (user_id r)).
  { change (map ?f ?l) with (f <$> l). rewrite list_lookup_fmap, Hr.
    reflexivity. }
  destruct (decide (j < length l)) as [Hlt|Hge].
  - destruct (lookup_lt_is_Some_2 l j Hlt) as [u Hu].
    assert (Htake : take j (ids R) = take j (ids l)).
    { apply take_prefix_ids; [exact Hpre|rewrite length_map; lia]. }
    assert (Hid : user_id r = user_id u).
    { assert (Hu' : ids l !! j = Some (user_id u)).
      { change (map ?f ?l) with (f <$> l). rewrite list_lookup_fmap, Hu.
        reflexivity. }
      pose proof (prefix_lookup_Some _ _ _ _ Hu' Hpre) as Hu''.
      congruence. }
    rewrite Hid in Hfirst |- *. rewrite Htake in Hfirst.
    pose proof (foldl_lookup_first rev imported l j u Hu Hfirst) as Hr'.
    rewrite <- HR, Hr in Hr'. injection Hr' as ->.
    apply merge_all_twice.
  - rewrite HR in Hr.
    destruct (foldl_lookup_appended rev imported l j r Hr)
      as (L1 & a & L2 & Himp & Hno & _ & Hra); [lia|].
    assert (Hid : user_id r = user_id a).
    { rewrite Hra. apply foldl_merge_id, filter_withId_Forall. }
    rewrite Hid, Himp, List.filter_app, Hno. simpl.
    rewrite bool_decide_eq_true_2 by reflexivity.
    rewrite Hra. apply merge_all_twice_new.
Qed.

End ImportTwice.
